(** * A shallow embedding of the qBittorrent WebUI client (src/index.ts)

    The client is one class, [QBittorrent], whose generic method
    [callMethod] builds one HTTP request, sends it with [fetch] and settles
    the response; every public operation shapes its parameters into a form
    body and delegates to [callMethod].

    Modelling conventions.
    - A JavaScript string is a [string]: one character per code unit, so the
      model covers the code units 0..255.
    - An [async] method is a computation in the monad [M]: it reads and
      writes the client handle ([this]), appends the request it sends to the
      log of the world and either returns a value or throws.
    - What the platform provides ([URL], the [qs] package, [JSON.parse],
      number formatting) is an interface, [Platform]; the network and the
      file system are the environment, [Env].  [Headers], [URLSearchParams]
      and [FormData] are association lists with the operations the code
      calls. *)

From Stdlib Require Import ZArith List String Ascii Bool Lia.
From Stdlib Require Import Strings.Byte.
Import ListNotations.
Open Scope string_scope.
Open Scope Z_scope.
Open Scope list_scope.

(** ** JavaScript strings and arrays *)

Module JS.

Definition chars (s : string) : list ascii := list_ascii_of_string s.
Definition of_chars (l : list ascii) : string := string_of_list_ascii l.

(** [s.startsWith(p)] *)
Definition startsWith (s p : string) : bool := String.prefix p s.

(** [a.join(sep)] for an array of strings. *)
Definition join (a : list string) (sep : string) : string := String.concat sep a.

(** [a.includes(x)] for an array of strings. *)
Definition includes (a : list string) (x : string) : bool := existsb (String.eqb x) a.

(** [a.find(p)]: the first element satisfying [p], or [undefined]. *)
Definition find {A} (p : A -> bool) (a : list A) : option A := List.find p a.

Fixpoint dropWhile {A} (p : A -> bool) (l : list A) : list A :=
  match l with
  | [] => []
  | x :: l' => if p x then dropWhile p l' else l
  end.

(** Removes the longest prefix and the longest suffix of characters
    satisfying [p]. *)
Definition strip (p : ascii -> bool) (s : string) : string :=
  of_chars (rev (dropWhile p (rev (dropWhile p (chars s))))).

Definition code (c : ascii) : N := N_of_ascii c.

(** WhiteSpace and LineTerminator code units (ECMA-262, 12.2 and 12.3)
    below 256: TAB, LF, VT, FF, CR, SP and NBSP. *)
Definition isWhiteSpace (c : ascii) : bool :=
  let n := code c in
  ((9 <=? n) && (n <=? 13) || (n =? 32) || (n =? 160))%N.

(** [s.trim()] *)
Definition trim (s : string) : string := strip isWhiteSpace s.

(** [b.toString()] for a boolean. *)
Definition Boolean_toString (b : bool) : string := if b then "true" else "false".

Fixpoint dropLastSlash (l : list ascii) : list ascii :=
  match l with
  | [] => []
  | [c] => if Ascii.eqb c "/" then [] else [c]
  | c :: l' => c :: dropLastSlash l'
  end.

(** [s.replace(/\/$/, '')]: without the [m] flag [$] matches at the end
    of the input only, so at most the last character is removed. *)
Definition replaceTrailingSlash (s : string) : string := of_chars (dropLastSlash (chars s)).

Definition lowerChar (c : ascii) : ascii :=
  let n := code c in
  if ((65 <=? n) && (n <=? 90))%N then ascii_of_N (n + 32) else c.

Definition toLowerCase (s : string) : string := of_chars (map lowerChar (chars s)).

(** The pieces of [l] between the occurrences of [c]. *)
Fixpoint splitChars (c : ascii) (l : list ascii) : list (list ascii) :=
  match l with
  | [] => [[]]
  | x :: l' =>
      if Ascii.eqb x c then [] :: splitChars c l'
      else match splitChars c l' with
           | [] => [[x]]
           | a :: r => (x :: a) :: r
           end
  end.

(** [s.split(c)] for a separator of one character. *)
Definition split (s : string) (c : ascii) : list string := map of_chars (splitChars c (chars s)).

End JS.

(** ** Web platform containers *)

Module Headers.

(** A header list, in insertion order. *)
Definition t := list (string * string).

(** HTTP whitespace bytes: TAB, LF, CR, SP. *)
Definition isHttpWhitespace (c : ascii) : bool :=
  let n := JS.code c in ((n =? 9) || (n =? 10) || (n =? 13) || (n =? 32))%N.

(** Normalizing a value strips leading and trailing HTTP whitespace. *)
Definition normalize (v : string) : string := JS.strip isHttpWhitespace v.

(** A header value holds no NUL, LF or CR. *)
Definition validValue (v : string) : bool :=
  forallb (fun c => negb ((JS.code c =? 0) || (JS.code c =? 10) || (JS.code c =? 13))%N)
          (JS.chars v).

(** A header name is a non-empty token (RFC 9110, 5.6.2). *)
Definition isTokenChar (c : ascii) : bool :=
  let n := JS.code c in
  ((48 <=? n) && (n <=? 57) || (65 <=? n) && (n <=? 90) || (94 <=? n) && (n <=? 122)
   || (n =? 33) || (35 <=? n) && (n <=? 39) || (n =? 42) || (n =? 43) || (n =? 45)
   || (n =? 46) || (n =? 124) || (n =? 126))%N.

Definition validName (n : string) : bool :=
  negb (String.eqb n "") && forallb isTokenChar (JS.chars n).

(** [new Headers()] *)
Definition empty : t := [].

(** [h.append(name, value)]: the value is normalized, then name and value
    are validated ([None] is the TypeError), then the pair goes to the end
    of the list. *)
Definition append (h : t) (name value : string) : option t :=
  let v := normalize value in
  if validName name && validValue v then Some (h ++ [(name, v)]) else None.

(** All values stored under [name]; header names compare
    case-insensitively. *)
Definition values (h : t) (name : string) : list string :=
  map snd (filter (fun e => String.eqb (JS.toLowerCase (fst e)) (JS.toLowerCase name)) h).

(** [h.getSetCookie()] *)
Definition getSetCookie (h : t) : list string := values h "set-cookie".

(** The Headers object of a response holds the received fields with their
    values as the platform delivers them: nothing is stripped from a
    received value, so whitespace at its end stays.  A field whose name is
    no token, or whose value holds NUL, LF or CR, is not one an HTTP
    message carries (CR LF ends the value), and is not delivered. *)
Definition ofFields (fields : list (string * string)) : t :=
  filter (fun e => validName (fst e) && validValue (snd e)) fields.

End Headers.

Module URLSearchParams.

(** The list of name-value pairs, in order. *)
Definition t := list (string * string).

(** [new URLSearchParams()] and [new URLSearchParams({ k1: v1, ... })]:
    the pairs of the record in property order. *)
Definition empty : t := [].
Definition ofRecord (r : list (string * string)) : t := r.

Fixpoint remove (p : t) (name : string) : t :=
  match p with
  | [] => []
  | (k, v) :: p' => if String.eqb k name then remove p' name else (k, v) :: remove p' name
  end.

(** [p.set(name, value)]: the first pair named [name] takes the value and
    the other pairs of that name go; when there is none, the pair is
    appended. *)
Fixpoint set (p : t) (name value : string) : t :=
  match p with
  | [] => [(name, value)]
  | (k, v) :: p' =>
      if String.eqb k name then (k, value) :: remove p' name
      else (k, v) :: set p' name value
  end.

(** [p.get(name)]: the value of the first pair named [name], or null. *)
Fixpoint get (p : t) (name : string) : option string :=
  match p with
  | [] => None
  | (k, v) :: p' => if String.eqb k name then Some v else get p' name
  end.

(** [p.has(name)] *)
Definition has (p : t) (name : string) : bool :=
  match get p name with Some _ => true | None => false end.

End URLSearchParams.

(** [Blob]: the bytes and the media type. *)
Record Blob := mkBlob { blob_bytes : list byte; blob_type : string }.

(** [new Blob(parts, { type })] for parts that are byte sequences. *)
Definition new_Blob (parts : list (list byte)) (type : string) : Blob :=
  mkBlob (List.concat parts) type.

Module FormData.

Inductive value :=
| Text (s : string)
| File (b : Blob).

Definition t := list (string * value).

(** [new FormData()] *)
Definition empty : t := [].

(** [f.append(name, value)] *)
Definition append (f : t) (name : string) (v : value) : t := f ++ [(name, v)].

Fixpoint remove (f : t) (name : string) : t :=
  match f with
  | [] => []
  | (k, v) :: f' => if String.eqb k name then remove f' name else (k, v) :: remove f' name
  end.

(** [f.set(name, value)]: replaces the first entry named [name] and drops
    the others, or appends. *)
Fixpoint set (f : t) (name : string) (v : value) : t :=
  match f with
  | [] => [(name, v)]
  | (k, w) :: f' =>
      if String.eqb k name then (k, v) :: remove f' name
      else (k, w) :: set f' name v
  end.

(** [f.getAll(name)] *)
Definition getAll (f : t) (name : string) : list value :=
  map snd (filter (fun e => String.eqb (fst e) name) f).

End FormData.

(** ** The platform interface and the environment *)

(** What the runtime and the [qs] package provide.  The client code is
    generic in it; [Reference] below gives an executable instance. *)
Class Platform := {
  (** [URL] objects: [new URL(input)] and [new URL(input, base)] ([None] is
      the TypeError of an invalid URL), [u.href], [u.origin] and the setter
      [u.search = q]. *)
  URL : Type;
  new_URL : string -> option string -> option URL;
  URL_href : URL -> string;
  URL_origin : URL -> string;
  URL_set_search : URL -> string -> URL;
  (** Query objects and [qs.stringify(q, { arrayFormat: 'repeat' })], with
      [None] for [undefined]. *)
  Query : Type;
  qs_stringify : option Query -> string;
  (** [JSON.parse(text)]; [None] is the SyntaxError. *)
  JSONValue : Type;
  JSON_parse : string -> option JSONValue;
  (** Numbers and [n.toString()]. *)
  number : Type;
  Number_toString : number -> string
}.

Module APINames.

Inductive t := auth | app | log | sync | transfer | torrents | rss | search.

(** The string value of each member of the enum. *)
Definition value (a : t) : string :=
  match a with
  | auth => "auth" | app => "app" | log => "log" | sync => "sync"
  | transfer => "transfer" | torrents => "torrents" | rss => "rss" | search => "search"
  end.

End APINames.

Inductive Method := GET | POST.

(** The bodies the client sends ([CallMethodOptions.body]). *)
Inductive BodyInit :=
| BodyFormData (f : FormData.t)
| BodyURLSearchParams (p : URLSearchParams.t)
| BodyString (s : string).

(** The request handed to [fetch(url, { method, headers, body })]. *)
Record Request := mkRequest {
  req_url : string;
  req_method : Method;
  req_headers : Headers.t;
  req_body : option BodyInit
}.

(** What [fetch] resolves to, with the body read to the end
    ([await response.text()]). *)
Record Response := mkResponse {
  status : Z;
  fields : list (string * string);
  text : string
}.

(** [response.ok]: the status is in the range 200 to 299. *)
Definition Response_ok (r : Response) : bool := (200 <=? status r) && (status r <=? 299).

(** [response.headers] *)
Definition Response_headers (r : Response) : Headers.t := Headers.ofFields (fields r).

Inductive FetchOutcome :=
| Responds (r : Response)
| Fails (reason : string).

(** The remote server and the network, as a function of the requests sent
    so far and the current one, and the local file system
    ([fs.readFileSync(path)], [None] when it throws). *)
Record Env := mkEnv {
  remote : list Request -> Request -> FetchOutcome;
  readFileSync : string -> option (list byte)
}.

(** ** Errors *)

Record RequestError := mkRequestError {
  name : string;
  message : string;
  code : Z
}.

(** [new RequestError(code, message)] *)
Definition new_RequestError (code : Z) (message : string) : RequestError :=
  {| name := "RequestError"; message := message; code := code |}.

Inductive Thrown :=
| Thrown_RequestError (e : RequestError)
| Thrown_TypeError
| Thrown_network (reason : string)
| Thrown_fs (path : string).

Inductive Result (A : Type) :=
| Returned (a : A)
| Threw (e : Thrown).
Arguments Returned {A} a.
Arguments Threw {A} e.

(** ** The client handle and the monad of its methods *)

Record QBittorrent := mkQBittorrent {
  url : string;
  authCookie : option string
}.

Record World := mkWorld {
  this : QBittorrent;
  sent : list Request
}.

Definition M (A : Type) : Type := World -> Result A * World.

Class Monad (m : Type -> Type) := {
  ret : forall {A}, A -> m A;
  bind : forall {A B}, m A -> (A -> m B) -> m B
}.

#[export] Instance Monad_Result : Monad Result := {
  ret := fun A a => Returned a;
  bind := fun A B c k => match c with Returned a => k a | Threw e => Threw e end
}.

#[export] Instance Monad_M : Monad M := {
  ret := fun A a w => (Returned a, w);
  bind := fun A B c k w =>
    match c w with
    | (Returned a, w') => k a w'
    | (Threw e, w') => (Threw e, w')
    end
}.

Notation "x <- c ;; k" := (bind c (fun x => k))
  (at level 61, c at next level, right associativity).

(** A step that touches neither the handle nor the network. *)
Definition pure {A} (r : Result A) : M A := fun w => (r, w).

Definition throw {A} (e : Thrown) : Result A := Threw e.

(** [new X(...)] and calls of the platform that throw a TypeError. *)
Definition orTypeError {A} (o : option A) : Result A :=
  match o with Some a => Returned a | None => Threw Thrown_TypeError end.

Definition get_this : M QBittorrent := fun w => (Returned (this w), w).

(** [this.authCookie = c] *)
Definition set_authCookie (c : option string) : M unit :=
  fun w => (Returned tt, mkWorld (mkQBittorrent (url (this w)) c) (sent w)).

(** ** The request dispatcher *)

Section Client.

Context {P : Platform} (env : Env).

Record CallMethodOptions := mkOptions {
  opt_method : option Method;
  opt_query : option Query;
  opt_body : option BodyInit;
  opt_headers : option Headers.t
}.

(** The JSON value when the text parses, the text itself otherwise. *)
Inductive Body :=
| Parsed (v : JSONValue)
| Raw (s : string).

Record CallMethodResponse := mkCallMethodResponse {
  res_body : Body;
  res_headers : Headers.t
}.

(** [fetch(url, init)]: a GET request with a body is refused with a
    TypeError before anything is sent; otherwise the request goes out and
    the remote end answers or the transfer fails. *)
Definition fetch (request : Request) : M Response :=
  fun w =>
    match req_method request, req_body request with
    | GET, Some _ => (Threw Thrown_TypeError, w)
    | _, _ =>
        let w' := mkWorld (this w) (sent w ++ [request]) in
        match remote env (sent w) request with
        | Responds r => (Returned r, w')
        | Fails reason => (Threw (Thrown_network reason), w')
        end
    end.

(** [callMethod], lines 67-75: the verb, the query string, the URL and the
    headers of the request. *)
Definition prepare (self : QBittorrent) (apiName : APINames.t) (methodName : string)
    (options : option CallMethodOptions) : Result Request :=
  let method :=
    match options with
    | Some o => match opt_method o with Some m => m | None => GET end
    | None => GET
    end in
  let query := qs_stringify (match options with Some o => opt_query o | None => None end) in
  target <- orTypeError
              (new_URL (APINames.value apiName ++ "/" ++ methodName)%string (Some (url self))) ;;
  let target := if String.eqb query "" then target else URL_set_search target query in
  let headers := Headers.empty in
  base <- orTypeError (new_URL (url self) None) ;;
  headers <- orTypeError (Headers.append headers "Referer" (URL_origin base)) ;;
  headers <- match authCookie self with
             | Some c =>
                 if negb (String.eqb (JS.trim c) "")
                 then orTypeError (Headers.append headers "Cookie" c)
                 else ret headers
             | None => ret headers
             end ;;
  ret (mkRequest (URL_href target) method headers
                 (match options with Some o => opt_body o | None => None end)).

(** [callMethod], lines 77-84: a status outside the success range throws;
    otherwise the text is parsed as JSON and, when that throws, returned
    as it is. *)
Definition settle (response : Response) : Result CallMethodResponse :=
  let body := text response in
  if negb (Response_ok response)
  then throw (Thrown_RequestError (new_RequestError (status response) body))
  else match JSON_parse body with
       | Some v => ret (mkCallMethodResponse (Parsed v) (Response_headers response))
       | None => ret (mkCallMethodResponse (Raw body) (Response_headers response))
       end.

Definition callMethod (apiName : APINames.t) (methodName : string)
    (options : option CallMethodOptions) : M CallMethodResponse :=
  self <- get_this ;;
  request <- pure (prepare self apiName methodName options) ;;
  response <- fetch request ;;
  pure (settle response).

(** The options [{ method: 'POST', body }] for a URL-encoded form body, and
    the call with them. *)
Definition postOptions (body : URLSearchParams.t) : CallMethodOptions :=
  mkOptions (Some POST) None (Some (BodyURLSearchParams body)) None.

Definition post (apiName : APINames.t) (methodName : string) (body : URLSearchParams.t)
  : M CallMethodResponse :=
  callMethod apiName methodName (Some (postOptions body)).

(** [new QBittorrent(url)], with the default of the parameter. *)
Definition new_QBittorrent (url : option string) : Result QBittorrent :=
  let url := match url with Some u => u | None => "http://localhost:8080" end in
  u <- orTypeError (new_URL "/api/v2/" (Some (JS.replaceTrailingSlash url))) ;;
  ret (mkQBittorrent (URL_href u) None).

(** ** Session *)

Definition login (username password : string) : M unit :=
  let requestBody :=
    URLSearchParams.ofRecord [("username", username); ("password", password)] in
  r <- callMethod APINames.auth "login" (Some (postOptions requestBody)) ;;
  set_authCookie
    (JS.find (fun cookie => JS.startsWith cookie "SID=")
             (Headers.getSetCookie (res_headers r))).

Definition logout : M unit :=
  _ <- callMethod APINames.auth "logout" None ;;
  ret tt.

Definition getApplicationVersion : M Body :=
  r <- callMethod APINames.app "version" None ;;
  ret (res_body r).

(** ** Endpoint surface: form bodies *)

(** An argument of type [string[] | 'all']: an array of hashes or a string
    (the declared type admits the string ['all'] only). *)
Inductive HashesArg :=
| HashArray (a : list string)
| HashString (s : string).

(** [Array.isArray(hashes) ? hashes.join('|') : hashes] *)
Definition hashesField (hashes : HashesArg) : string :=
  match hashes with
  | HashArray a => JS.join a "|"
  | HashString s => s
  end.

(** A boolean parameter with a default value. *)
Definition orDefault (d : bool) (o : option bool) : bool :=
  match o with Some b => b | None => d end.

Definition pauseTorrents_body (hashes : list string) : URLSearchParams.t :=
  URLSearchParams.ofRecord [("hashes", JS.join hashes "|")].
Definition pauseTorrents (hashes : list string) : M unit :=
  _ <- post APINames.torrents "pause" (pauseTorrents_body hashes) ;; ret tt.

Definition resumeTorrents_body (hashes : list string) : URLSearchParams.t :=
  URLSearchParams.ofRecord [("hashes", JS.join hashes "|")].
Definition resumeTorrents (hashes : list string) : M unit :=
  _ <- post APINames.torrents "resume" (resumeTorrents_body hashes) ;; ret tt.

Definition deleteTorrents_body (hashes : HashesArg) (deleteFiles : option bool)
  : URLSearchParams.t :=
  let deleteFiles := orDefault false deleteFiles in
  URLSearchParams.ofRecord
    [("hashes", hashesField hashes); ("deleteFiles", JS.Boolean_toString deleteFiles)].
Definition deleteTorrents (hashes : HashesArg) (deleteFiles : option bool) : M unit :=
  _ <- post APINames.torrents "delete" (deleteTorrents_body hashes deleteFiles) ;; ret tt.

Definition recheckTorrents_body (hashes : list string) : URLSearchParams.t :=
  URLSearchParams.ofRecord [("hashes", JS.join hashes "|")].
Definition recheckTorrents (hashes : list string) : M unit :=
  _ <- post APINames.torrents "recheck" (recheckTorrents_body hashes) ;; ret tt.

Definition reannounceTorrents_body (hashes : list string) : URLSearchParams.t :=
  URLSearchParams.ofRecord [("hashes", JS.join hashes "|")].
Definition reannounceTorrents (hashes : list string) : M unit :=
  _ <- post APINames.torrents "reannounce" (reannounceTorrents_body hashes) ;; ret tt.

Definition addPeers_body (hashes peers : list string) : URLSearchParams.t :=
  URLSearchParams.ofRecord [("hashes", JS.join hashes "|"); ("peers", JS.join peers "|")].
Definition addPeers (hashes peers : list string) : M unit :=
  _ <- post APINames.torrents "addPeers" (addPeers_body hashes peers) ;; ret tt.

Definition increaseTorrentPriority_body (hashes : HashesArg) : URLSearchParams.t :=
  URLSearchParams.ofRecord [("hashes", hashesField hashes)].
Definition increaseTorrentPriority (hashes : HashesArg) : M unit :=
  _ <- post APINames.torrents "increasePrio" (increaseTorrentPriority_body hashes) ;; ret tt.

Definition decreaseTorrentPriority_body (hashes : HashesArg) : URLSearchParams.t :=
  URLSearchParams.ofRecord [("hashes", hashesField hashes)].
Definition decreaseTorrentPriority (hashes : HashesArg) : M unit :=
  _ <- post APINames.torrents "decreasePrio" (decreaseTorrentPriority_body hashes) ;; ret tt.

Definition maximalTorrentPriority_body (hashes : HashesArg) : URLSearchParams.t :=
  URLSearchParams.ofRecord [("hashes", hashesField hashes)].
Definition maximalTorrentPriority (hashes : HashesArg) : M unit :=
  _ <- post APINames.torrents "topPrio" (maximalTorrentPriority_body hashes) ;; ret tt.

Definition minimalTorrentPriority_body (hashes : HashesArg) : URLSearchParams.t :=
  URLSearchParams.ofRecord [("hashes", hashesField hashes)].
Definition minimalTorrentPriority (hashes : HashesArg) : M unit :=
  _ <- post APINames.torrents "bottomPrio" (minimalTorrentPriority_body hashes) ;; ret tt.

Definition getTorrentDownloadLimit_body (hashes : HashesArg) : URLSearchParams.t :=
  URLSearchParams.ofRecord [("hashes", hashesField hashes)].
Definition getTorrentDownloadLimit (hashes : HashesArg) : M Body :=
  r <- post APINames.torrents "downloadLimit" (getTorrentDownloadLimit_body hashes) ;;
  ret (res_body r).

Definition setTorrentDownloadLimit_body (hashes : HashesArg) (limit : number)
  : URLSearchParams.t :=
  URLSearchParams.ofRecord [("hashes", hashesField hashes); ("limit", Number_toString limit)].
Definition setTorrentDownloadLimit (hashes : HashesArg) (limit : number) : M unit :=
  _ <- post APINames.torrents "setDownloadLimit" (setTorrentDownloadLimit_body hashes limit) ;;
  ret tt.

Record SetTorrentShareLimitOptions := mkShareLimitOptions {
  ratioLimit : option number;
  seedingTimeLimit : option number
}.

Definition setTorrentShareLimit_body (hashes : HashesArg) (options : SetTorrentShareLimitOptions)
  : URLSearchParams.t :=
  let body := URLSearchParams.ofRecord [("hashes", hashesField hashes)] in
  let body := match ratioLimit options with
              | Some r => URLSearchParams.set body "ratioLimit" (Number_toString r)
              | None => body
              end in
  let body := match seedingTimeLimit options with
              | Some t => URLSearchParams.set body "ratioLimit" (Number_toString t)
              | None => body
              end in
  body.
Definition setTorrentShareLimit (hashes : HashesArg) (options : SetTorrentShareLimitOptions)
  : M unit :=
  _ <- post APINames.torrents "setShareLimits" (setTorrentShareLimit_body hashes options) ;;
  ret tt.

Definition getTorrentUploadLimit_body (hashes : HashesArg) : URLSearchParams.t :=
  URLSearchParams.ofRecord [("hashes", hashesField hashes)].
Definition getTorrentUploadLimit (hashes : HashesArg) : M Body :=
  r <- post APINames.torrents "uploadLimit" (getTorrentUploadLimit_body hashes) ;;
  ret (res_body r).

Definition setTorrentUploadLimit_body (hashes : HashesArg) (limit : number)
  : URLSearchParams.t :=
  URLSearchParams.ofRecord [("hashes", hashesField hashes); ("limit", Number_toString limit)].
Definition setTorrentUploadLimit (hashes : HashesArg) (limit : number) : M unit :=
  _ <- post APINames.torrents "setUploadLimit" (setTorrentUploadLimit_body hashes limit) ;;
  ret tt.

Definition setTorrentLocation_body (hashes : HashesArg) (location : string)
  : URLSearchParams.t :=
  URLSearchParams.ofRecord [("hashes", hashesField hashes); ("location", location)].
Definition setTorrentLocation (hashes : HashesArg) (location : string) : M unit :=
  _ <- post APINames.torrents "setLocation" (setTorrentLocation_body hashes location) ;; ret tt.

Definition setTorrentCategory_body (hashes : HashesArg) (category : string)
  : URLSearchParams.t :=
  URLSearchParams.ofRecord [("hashes", hashesField hashes); ("category", category)].
Definition setTorrentCategory (hashes : HashesArg) (category : string) : M unit :=
  _ <- post APINames.torrents "setCategory" (setTorrentCategory_body hashes category) ;; ret tt.

Definition addTorrentTags_body (hashes : HashesArg) (tags : list string) : URLSearchParams.t :=
  URLSearchParams.ofRecord [("hashes", hashesField hashes); ("tags", JS.join tags ",")].
Definition addTorrentTags (hashes : HashesArg) (tags : list string) : M unit :=
  _ <- post APINames.torrents "addTags" (addTorrentTags_body hashes tags) ;; ret tt.

(** [tags] is optional: [None] is [undefined]. *)
Definition removeTorrentTags_body (hashes : HashesArg) (tags : option (list string))
  : URLSearchParams.t :=
  let body := URLSearchParams.ofRecord [("hashes", hashesField hashes)] in
  match tags with
  | Some a => URLSearchParams.set body "tags" (JS.join a ",")
  | None => body
  end.
Definition removeTorrentTags (hashes : HashesArg) (tags : option (list string)) : M unit :=
  _ <- post APINames.torrents "removeTags" (removeTorrentTags_body hashes tags) ;; ret tt.

Definition createTags_body (tags : list string) : URLSearchParams.t :=
  URLSearchParams.ofRecord [("tags", JS.join tags ",")].
Definition createTags (tags : list string) : M unit :=
  _ <- post APINames.torrents "createTags" (createTags_body tags) ;; ret tt.

Definition deleteTags_body (tags : list string) : URLSearchParams.t :=
  URLSearchParams.ofRecord [("tags", JS.join tags ",")].
Definition deleteTags (tags : list string) : M unit :=
  _ <- post APINames.torrents "deleteTags" (deleteTags_body tags) ;; ret tt.

Definition setAutomaticTorrentManagement_body (hashes : HashesArg) (enable : option bool)
  : URLSearchParams.t :=
  let enable := orDefault false enable in
  URLSearchParams.ofRecord
    [("hashes", hashesField hashes); ("enable", JS.Boolean_toString enable)].
Definition setAutomaticTorrentManagement (hashes : HashesArg) (enable : option bool) : M unit :=
  _ <- post APINames.torrents "setAutoManagement"
         (setAutomaticTorrentManagement_body hashes enable) ;;
  ret tt.

Definition toggleSequentialDownload_body (hashes : HashesArg) : URLSearchParams.t :=
  URLSearchParams.ofRecord [("hashes", hashesField hashes)].
Definition toggleSequentialDownload (hashes : HashesArg) : M unit :=
  _ <- post APINames.torrents "toggleSequentialDownload"
         (toggleSequentialDownload_body hashes) ;;
  ret tt.

Definition setFirstLastPiecePriority_body (hashes : HashesArg) : URLSearchParams.t :=
  URLSearchParams.ofRecord [("hashes", hashesField hashes)].
Definition setFirstLastPiecePriority (hashes : HashesArg) : M unit :=
  _ <- post APINames.torrents "toggleFirstLastPiecePrio"
         (setFirstLastPiecePriority_body hashes) ;;
  ret tt.

Definition setForceStart_body (hashes : HashesArg) (value : option bool) : URLSearchParams.t :=
  let value := orDefault false value in
  URLSearchParams.ofRecord
    [("hashes", hashesField hashes); ("value", JS.Boolean_toString value)].
Definition setForceStart (hashes : HashesArg) (value : option bool) : M unit :=
  _ <- post APINames.torrents "setForceStart" (setForceStart_body hashes value) ;; ret tt.

Definition setSuperSeeding_body (hashes : HashesArg) (value : option bool) : URLSearchParams.t :=
  let value := orDefault false value in
  URLSearchParams.ofRecord
    [("hashes", hashesField hashes); ("value", JS.Boolean_toString value)].
Definition setSuperSeeding (hashes : HashesArg) (value : option bool) : M unit :=
  _ <- post APINames.torrents "setSuperSeeding" (setSuperSeeding_body hashes value) ;; ret tt.

(** [renameFile] and [renameFolder] declare [hash: string[] | 'all'] and
    write the form field [hash]. *)
Definition renameFile_body (hash : HashesArg) (oldPath newPath : string) : URLSearchParams.t :=
  URLSearchParams.ofRecord
    [("hash", hashesField hash); ("oldPath", oldPath); ("newPath", newPath)].
Definition renameFile (hash : HashesArg) (oldPath newPath : string) : M unit :=
  _ <- post APINames.torrents "renameFile" (renameFile_body hash oldPath newPath) ;; ret tt.

Definition renameFolder_body (hash : HashesArg) (oldPath newPath : string) : URLSearchParams.t :=
  URLSearchParams.ofRecord
    [("hash", hashesField hash); ("oldPath", oldPath); ("newPath", newPath)].
Definition renameFolder (hash : HashesArg) (oldPath newPath : string) : M unit :=
  _ <- post APINames.torrents "renameFolder" (renameFolder_body hash oldPath newPath) ;; ret tt.

(** ** Adding torrents *)

(** An element of the [torrents] argument: [string | Blob | Stream | Buffer].
    A stream is the sequence of chunks it emits before it ends. *)
Inductive TorrentInput :=
| TString (s : string)
| TBlob (b : Blob)
| TStream (chunks : list (list byte))
| TBuffer (b : list byte).

(** The values of an options object and [Object.entries(options ?? {})]:
    the properties in their order, [None] for a missing object. *)
Inductive OptionValue :=
| OptString (s : string)
| OptNumber (n : number)
| OptBoolean (b : bool)
| OptUndefined.

Definition AddNewTorrentOptions := list (string * OptionValue).

Definition Object_entries (options : option AddNewTorrentOptions) : list (string * OptionValue) :=
  match options with Some o => o | None => [] end.

(** The string a non-Blob value becomes in [FormData.append]. *)
Definition String_of (v : OptionValue) : string :=
  match v with
  | OptString s => s
  | OptNumber n => Number_toString n
  | OptBoolean b => JS.Boolean_toString b
  | OptUndefined => "undefined"
  end.

(** The line feed, ['\n']. *)
Definition LF : string := String (ascii_of_N 10) EmptyString.

(** The test of line 391. *)
Definition isLink (v : string) : bool :=
  JS.startsWith v "http://" || JS.startsWith v "https://"
  || JS.startsWith v "magnet:" || JS.startsWith v "bc://bt/".

(** [torrents.filter(v => typeof v === 'string')] *)
Definition stringsOf (torrents : list TorrentInput) : list string :=
  flat_map (fun v => match v with TString s => [s] | _ => [] end) torrents.

Definition bittorrent : string := "application/x-bittorrent".

(** [for (const x of l) { ... }] over a state, stopping at the first throw. *)
Fixpoint forOf {A S} (l : list A) (s : S) (step : S -> A -> Result S) : Result S :=
  match l with
  | [] => ret s
  | x :: l' => s' <- step s x ;; forOf l' s' step
  end.

(** One round of the loop of lines 395-413: its four tests in turn. *)
Definition attach (urls : list string) (body : FormData.t) (torrent : TorrentInput)
  : Result FormData.t :=
  body <- match torrent with
          | TString s =>
              if negb (JS.includes urls s)
              then match readFileSync env s with
                   | Some file =>
                       ret (FormData.append body "torrents"
                              (FormData.File (new_Blob [file] bittorrent)))
                   | None => throw (Thrown_fs s)
                   end
              else ret body
          | _ => ret body
          end ;;
  let body := match torrent with
              | TBlob b => FormData.append body "torrents" (FormData.File b)
              | _ => body
              end in
  let body := match torrent with
              | TBuffer b =>
                  FormData.append body "torrents" (FormData.File (new_Blob [b] bittorrent))
              | _ => body
              end in
  let body := match torrent with
              | TStream chunks =>
                  FormData.append body "torrents" (FormData.File (new_Blob chunks bittorrent))
              | _ => body
              end in
  ret body.

(** [addNewTorrent], lines 385-413: the multipart body. *)
Definition addNewTorrent_body (torrents : list TorrentInput)
    (options : option AddNewTorrentOptions) : Result FormData.t :=
  let body := FormData.empty in
  let body := fold_left (fun body e => FormData.append body (fst e)
                                         (FormData.Text (String_of (snd e))))
                        (Object_entries options) body in
  let urls := filter isLink (stringsOf torrents) in
  let body := FormData.set body "urls" (FormData.Text (JS.join urls LF)) in
  forOf torrents body (attach urls).

Definition addNewTorrent (torrents : list TorrentInput)
    (options : option AddNewTorrentOptions) : M unit :=
  body <- pure (addNewTorrent_body torrents options) ;;
  _ <- callMethod APINames.torrents "add"
         (Some (mkOptions (Some POST) None (Some (BodyFormData body)) None)) ;;
  ret tt.

End Client.

(** ** The partition of the torrents, as the specification words it

    "Elements recognized as URL- or magnet-scheme strings are collected and
    joined with newlines into a single form field; everything else is
    treated as file content: local path strings are read from disk and
    wrapped as a binary upload part; buffers and blobs are attached directly
    as binary upload parts, all under a repeated multipart field name." *)

Section Partition.

Context {P : Platform} (env : Env).

(** The elements that are link strings, in order. *)
Fixpoint linksOf (torrents : list TorrentInput) : list string :=
  match torrents with
  | [] => []
  | TString s :: rest => if isLink s then s :: linksOf rest else linksOf rest
  | _ :: rest => linksOf rest
  end.

(** The upload part of an element that is not a link; [None] when the file
    of a path cannot be read. *)
Definition uploadOf (torrent : TorrentInput) : option Blob :=
  match torrent with
  | TString path =>
      match readFileSync env path with
      | Some file => Some (mkBlob file bittorrent)
      | None => None
      end
  | TBlob b => Some b
  | TBuffer b => Some (mkBlob b bittorrent)
  | TStream chunks => Some (mkBlob (List.concat chunks) bittorrent)
  end.

(** The upload parts of the elements that are not links, in order. *)
Fixpoint uploadsOf (torrents : list TorrentInput) : option (list Blob) :=
  match torrents with
  | [] => Some []
  | torrent :: rest =>
      match torrent with
      | TString s =>
          if isLink s then uploadsOf rest
          else match uploadOf torrent, uploadsOf rest with
               | Some b, Some bs => Some (b :: bs)
               | _, _ => None
               end
      | _ =>
          match uploadOf torrent, uploadsOf rest with
          | Some b, Some bs => Some (b :: bs)
          | _, _ => None
          end
      end
  end.

(** The named options as form fields, in order. *)
Definition optionFields (options : option (AddNewTorrentOptions (P := P)))
  : FormData.t :=
  map (fun e => (fst e, FormData.Text (String_of (snd e)))) (Object_entries options).

(** The body the specification describes: the option fields, the field
    [urls], and one part named [torrents] per upload. *)
Definition partitionedBody (options : option (AddNewTorrentOptions (P := P)))
    (torrents : list TorrentInput) (uploads : list Blob) : FormData.t :=
  FormData.set (optionFields options) "urls" (FormData.Text (JS.join (linksOf torrents) LF))
  ++ map (fun b => ("torrents", FormData.File b)) uploads.

End Partition.

(** ** A reference platform

    An executable instance of [Platform], used to run the client on concrete
    inputs.  Each function is exact on the fragment its comment names and
    answers [None] (or leaves the input as it is) outside of it. *)

Module Reference.

(** *** URLs

    The fragment: [http://] or [https://], a host made of dot-separated
    labels of lower-case letters and digits that start with a letter, an
    optional port that is not the default of the scheme, and a path of
    letters, digits, [/], [_] and [-]; a relative reference is such a path
    that does not start with two slashes.  There is no query, fragment,
    dot segment or character to escape here, so parsing is splitting and
    resolution is concatenation.  Inside the fragment the model gives what
    [URL] gives; outside it the model has no answer ([None]), and nothing
    below is concluded from that: the theorems about this platform take a
    URL that parses. *)

Record url := mkUrl {
  url_scheme : string;
  url_host : string;
  url_pathname : string;
  url_search : string
}.

Definition isLower (c : ascii) : bool := let n := JS.code c in ((97 <=? n) && (n <=? 122))%N.
Definition isUpper (c : ascii) : bool := let n := JS.code c in ((65 <=? n) && (n <=? 90))%N.
Definition isDigit (c : ascii) : bool := let n := JS.code c in ((48 <=? n) && (n <=? 57))%N.

Definition isPathChar (c : ascii) : bool :=
  isLower c || isUpper c || isDigit c || Ascii.eqb c "/" || Ascii.eqb c "_" || Ascii.eqb c "-".

(** Splits at the first occurrence of [c]. *)
Fixpoint splitFirst (c : ascii) (l : list ascii) : list ascii * option (list ascii) :=
  match l with
  | [] => ([], None)
  | x :: l' =>
      if Ascii.eqb x c then ([], Some l')
      else let (a, b) := splitFirst c l' in (x :: a, b)
  end.

Definition validLabel (l : list ascii) : bool :=
  match l with
  | [] => false
  | c :: r => isLower c && forallb (fun x => isLower x || isDigit x) r
  end.

Definition validHostname (l : list ascii) : bool :=
  forallb validLabel (JS.splitChars "." l).

Definition digitsValue (l : list ascii) : N :=
  fold_left (fun n c => (10 * n + (JS.code c - 48))%N) l 0%N.

Definition defaultPort (scheme : string) : N := if String.eqb scheme "http" then 80%N else 443%N.

Definition validPort (scheme : string) (l : list ascii) : bool :=
  match l with
  | [] => false
  | c :: _ =>
      forallb isDigit l && negb (Ascii.eqb c "0") && (Nat.leb (List.length l) 5)
      && (digitsValue l <=? 65535)%N && negb (digitsValue l =? defaultPort scheme)%N
  end.

Definition validAuthority (scheme : string) (l : list ascii) : bool :=
  match splitFirst ":" l with
  | (h, None) => validHostname h
  | (h, Some p) => validHostname h && validPort scheme p
  end.

Definition parseAfterScheme (scheme : string) (rest : list ascii) : option url :=
  let (authority, path) := splitFirst "/" rest in
  let pathname := match path with Some p => "/"%char :: p | None => ["/"%char] end in
  if validAuthority scheme authority && forallb isPathChar pathname
  then Some (mkUrl scheme (JS.of_chars authority) (JS.of_chars pathname) "")
  else None.

Definition dropChars (n : nat) (s : string) : list ascii := skipn n (JS.chars s).

(** [new URL(input)] *)
Definition parseAbsolute (input : string) : option url :=
  if JS.startsWith input "http://" then parseAfterScheme "http" (dropChars 7 input)
  else if JS.startsWith input "https://" then parseAfterScheme "https" (dropChars 8 input)
  else None.

(** The path of the base up to and including its last slash. *)
Definition directory (pathname : string) : list ascii :=
  rev (JS.dropWhile (fun c => negb (Ascii.eqb c "/")) (rev (JS.chars pathname))).

(** [new URL(input, base)] *)
Definition parseRelative (input base : string) : option url :=
  match parseAbsolute input with
  | Some u => Some u
  | None =>
      match parseAbsolute base with
      | None => None
      | Some b =>
          let i := JS.chars input in
          if negb (forallb isPathChar i) || JS.startsWith input "//" then None
          else match i with
               | [] => Some b
               | c :: _ =>
                   if Ascii.eqb c "/" then Some (mkUrl (url_scheme b) (url_host b) input "")
                   else Some (mkUrl (url_scheme b) (url_host b)
                                (JS.of_chars (directory (url_pathname b) ++ i)) "")
               end
      end
  end.

Definition new_URL (input : string) (base : option string) : option url :=
  match base with
  | Some b => parseRelative input b
  | None => parseAbsolute input
  end.

Definition href (u : url) : string :=
  (url_scheme u ++ "://" ++ url_host u ++ url_pathname u ++ url_search u)%string.

Definition origin (u : url) : string := (url_scheme u ++ "://" ++ url_host u)%string.

(** [u.search = q], for a query string that [qs] produced: nothing is left
    to escape, and the empty string removes the query. *)
Definition set_search (u : url) (q : string) : url :=
  mkUrl (url_scheme u) (url_host u) (url_pathname u)
        (if String.eqb q "" then "" else ("?" ++ q)%string).

(** *** Numbers: the integers, printed in decimal. *)

Definition digitChar (n : N) : ascii := ascii_of_N (48 + n).

Fixpoint decimalDigits (fuel : nat) (n : N) (acc : list ascii) : list ascii :=
  match fuel with
  | O => acc
  | S fuel =>
      let acc := digitChar (n mod 10) :: acc in
      if (n <? 10)%N then acc else decimalDigits fuel (n / 10) acc
  end.

Definition N_toString (n : N) : string :=
  JS.of_chars (decimalDigits (S (N.to_nat (N.log2 n))) n []).

Definition Z_toString (z : Z) : string :=
  match z with
  | Z0 => "0"
  | Zpos p => N_toString (Npos p)
  | Zneg p => ("-" ++ N_toString (Npos p))%string
  end.

(** The numbers of the reference platform are the safe integers
    ([Number.isSafeInteger]): the integers of absolute value at most
    2^53 - 1.  Each of them is a JavaScript number, and
    [Number.prototype.toString] gives its decimal digits, with a minus sign
    when it is negative.  Fractions, larger numbers (printed with an
    exponent from 10^21 on), NaN and the infinities are not among them. *)
Definition isSafeInteger (z : Z) : bool := (Z.abs z <=? 9007199254740991)%Z.

Record safeInteger := mkSafeInteger {
  integer : Z;
  integer_safe : isSafeInteger integer = true
}.

Definition Number_toString (n : safeInteger) : string := Z_toString (integer n).

(** *** Query strings

    The fragment of [qs.stringify(q, { arrayFormat: 'repeat' })] for flat
    objects: a scalar gives [key=value], an array repeats the key once per
    element, an undefined value is skipped; keys and values are
    percent-encoded except for letters, digits, [-], [.], [_] and [~]. *)

Inductive QueryValue :=
| QString (s : string)
| QNumber (n : safeInteger)
| QBoolean (b : bool)
| QArray (a : list string)
| QUndefined.

Definition query := list (string * QueryValue).

Definition hexDigit (n : N) : ascii :=
  if (n <? 10)%N then ascii_of_N (48 + n) else ascii_of_N (55 + n).

Definition percentByte (n : N) : list ascii :=
  ["%"%char; hexDigit (n / 16); hexDigit (n mod 16)].

Definition isUnreserved (c : ascii) : bool :=
  isLower c || isUpper c || isDigit c
  || Ascii.eqb c "-" || Ascii.eqb c "." || Ascii.eqb c "_" || Ascii.eqb c "~".

(** A code unit becomes itself or the escapes of its UTF-8 bytes. *)
Definition encodeChar (c : ascii) : list ascii :=
  let n := JS.code c in
  if isUnreserved c then [c]
  else if (n <? 128)%N then percentByte n
  else percentByte (192 + n / 64) ++ percentByte (128 + n mod 64).

Definition encode (s : string) : string := JS.of_chars (flat_map encodeChar (JS.chars s)).

Definition pair (k v : string) : string := (encode k ++ "=" ++ encode v)%string.

Definition stringifyEntry (e : string * QueryValue) : list string :=
  match snd e with
  | QString s => [pair (fst e) s]
  | QNumber n => [pair (fst e) (Number_toString n)]
  | QBoolean b => [pair (fst e) (JS.Boolean_toString b)]
  | QArray a => map (pair (fst e)) a
  | QUndefined => []
  end.

Definition stringify (q : option query) : string :=
  match q with
  | None => ""
  | Some q => JS.join (flat_map stringifyEntry q) "&"
  end.

(** *** JSON

    The grammar of ECMA-404.  The value is the syntax tree: a number keeps
    its digits and a string the characters between its quotes, escapes
    included. *)

#[local] Unset Elimination Schemes.
Inductive json :=
| JNull
| JBoolean (b : bool)
| JNumber (digits : string)
| JString (content : string)
| JArray (elements : list json)
| JObject (members : list (string * json)).
#[local] Set Elimination Schemes.

Inductive parsed (A : Type) :=
| Value (a : A) (rest : list ascii)
| SyntaxError
| OutOfFuel.
Arguments Value {A} a rest.
Arguments SyntaxError {A}.
Arguments OutOfFuel {A}.

Definition isJsonWhitespace (c : ascii) : bool :=
  let n := JS.code c in ((n =? 32) || (n =? 9) || (n =? 10) || (n =? 13))%N.

Definition skipWhitespace (l : list ascii) : list ascii := JS.dropWhile isJsonWhitespace l.

Definition isHex (c : ascii) : bool :=
  let n := JS.code c in
  isDigit c || ((65 <=? n) && (n <=? 70))%N || ((97 <=? n) && (n <=? 102))%N.

(** The quotation mark. *)
Definition quote : ascii := ascii_of_N 34.

Definition isSimpleEscape (c : ascii) : bool :=
  existsb (Ascii.eqb c) [quote; "\"; "/"; "b"; "f"; "n"; "r"; "t"]%char.

(** The characters of a string up to its closing quote. *)
Fixpoint scanString (l : list ascii) (acc : list ascii) : parsed string :=
  match l with
  | [] => SyntaxError
  | c :: r =>
      if Ascii.eqb c quote then Value (JS.of_chars (rev acc)) r
      else if Ascii.eqb c "\" then
        match r with
        | e :: r' =>
            if isSimpleEscape e then scanString r' (e :: c :: acc)
            else if Ascii.eqb e "u" then
              match r' with
              | h1 :: h2 :: h3 :: h4 :: r'' =>
                  if isHex h1 && isHex h2 && isHex h3 && isHex h4
                  then scanString r'' (h4 :: h3 :: h2 :: h1 :: e :: c :: acc)
                  else SyntaxError
              | _ => SyntaxError
              end
            else SyntaxError
        | [] => SyntaxError
        end
      else if (JS.code c <? 32)%N then SyntaxError
      else scanString r (c :: acc)
  end.

(** The longest run of digits at the front. *)
Fixpoint spanDigits (l : list ascii) : list ascii * list ascii :=
  match l with
  | c :: r => if isDigit c then let (d, r') := spanDigits r in (c :: d, r') else ([], l)
  | [] => ([], [])
  end.

Definition scanInteger (l : list ascii) : parsed (list ascii) :=
  match spanDigits l with
  | ([], _) => SyntaxError
  | (c :: d, r) =>
      if Ascii.eqb c "0" then Value [c] (d ++ r) else Value (c :: d) r
  end.

Definition scanFraction (l : list ascii) : parsed (list ascii) :=
  match l with
  | c :: r =>
      if Ascii.eqb c "." then
        match spanDigits r with
        | ([], _) => SyntaxError
        | (d, r') => Value (c :: d) r'
        end
      else Value [] l
  | [] => Value [] l
  end.

Definition scanExponent (l : list ascii) : parsed (list ascii) :=
  match l with
  | c :: r =>
      if Ascii.eqb c "e" || Ascii.eqb c "E" then
        let (sign, r1) :=
          match r with
          | s :: r' => if Ascii.eqb s "+" || Ascii.eqb s "-" then ([s], r') else ([], r)
          | [] => ([], r)
          end in
        match spanDigits r1 with
        | ([], _) => SyntaxError
        | (d, r') => Value (c :: sign ++ d) r'
        end
      else Value [] l
  | [] => Value [] l
  end.

Definition scanNumber (l : list ascii) : parsed string :=
  let (minus, l1) :=
    match l with
    | c :: r => if Ascii.eqb c "-" then ([c], r) else ([], l)
    | [] => ([], l)
    end in
  match scanInteger l1 with
  | Value i l2 =>
      match scanFraction l2 with
      | Value f l3 =>
          match scanExponent l3 with
          | Value e l4 => Value (JS.of_chars (minus ++ i ++ f ++ e)) l4
          | SyntaxError => SyntaxError
          | OutOfFuel => OutOfFuel
          end
      | SyntaxError => SyntaxError
      | OutOfFuel => OutOfFuel
      end
  | SyntaxError => SyntaxError
  | OutOfFuel => OutOfFuel
  end.

Definition literal (word : string) (v : json) (l : list ascii) : parsed json :=
  if String.prefix word (JS.of_chars l)
  then Value v (skipn (String.length word) l)
  else SyntaxError.

Fixpoint parseValue (fuel : nat) (l : list ascii) : parsed json :=
  match fuel with
  | O => OutOfFuel
  | S fuel =>
      match skipWhitespace l with
      | [] => SyntaxError
      | c :: r =>
          if Ascii.eqb c "{" then
            match skipWhitespace r with
            | d :: r' => if Ascii.eqb d "}" then Value (JObject []) r'
                         else parseMembers fuel (d :: r') []
            | [] => SyntaxError
            end
          else if Ascii.eqb c "[" then
            match skipWhitespace r with
            | d :: r' => if Ascii.eqb d "]" then Value (JArray []) r'
                         else parseElements fuel (d :: r') []
            | [] => SyntaxError
            end
          else if Ascii.eqb c quote then
            match scanString r [] with
            | Value s r' => Value (JString s) r'
            | SyntaxError => SyntaxError
            | OutOfFuel => OutOfFuel
            end
          else if Ascii.eqb c "t" then literal "true" (JBoolean true) (c :: r)
          else if Ascii.eqb c "f" then literal "false" (JBoolean false) (c :: r)
          else if Ascii.eqb c "n" then literal "null" JNull (c :: r)
          else match scanNumber (c :: r) with
               | Value n r' => Value (JNumber n) r'
               | SyntaxError => SyntaxError
               | OutOfFuel => OutOfFuel
               end
      end
  end
with parseElements (fuel : nat) (l : list ascii) (acc : list json) : parsed json :=
  match fuel with
  | O => OutOfFuel
  | S fuel =>
      match parseValue fuel l with
      | Value v r =>
          match skipWhitespace r with
          | c :: r' =>
              if Ascii.eqb c "," then parseElements fuel r' (v :: acc)
              else if Ascii.eqb c "]" then Value (JArray (rev (v :: acc))) r'
              else SyntaxError
          | [] => SyntaxError
          end
      | SyntaxError => SyntaxError
      | OutOfFuel => OutOfFuel
      end
  end
with parseMembers (fuel : nat) (l : list ascii) (acc : list (string * json)) : parsed json :=
  match fuel with
  | O => OutOfFuel
  | S fuel =>
      match skipWhitespace l with
      | q :: r0 =>
          if Ascii.eqb q quote then
            match scanString r0 [] with
            | Value k r1 =>
                match skipWhitespace r1 with
                | c :: r2 =>
                    if Ascii.eqb c ":" then
                      match parseValue fuel r2 with
                      | Value v r3 =>
                          match skipWhitespace r3 with
                          | d :: r4 =>
                              if Ascii.eqb d "," then parseMembers fuel r4 ((k, v) :: acc)
                              else if Ascii.eqb d "}"
                                   then Value (JObject (rev ((k, v) :: acc))) r4
                                   else SyntaxError
                          | [] => SyntaxError
                          end
                      | SyntaxError => SyntaxError
                      | OutOfFuel => OutOfFuel
                      end
                    else SyntaxError
                | [] => SyntaxError
                end
            | SyntaxError => SyntaxError
            | OutOfFuel => OutOfFuel
            end
          else SyntaxError
      | [] => SyntaxError
      end
  end.

(** The whole text is one value between optional whitespace.  Of two
    nested calls of the parser at least one consumes a character, so the
    fuel, twice the length of the text and two more, is never used up
    ([parseText_total] below). *)
Definition parseText (text : string) : parsed json :=
  let l := JS.chars text in
  match parseValue (2 * List.length l + 2) l with
  | Value v r => match skipWhitespace r with [] => Value v [] | _ => SyntaxError end
  | SyntaxError => SyntaxError
  | OutOfFuel => OutOfFuel
  end.

(** [JSON.parse(text)] *)
Definition parse (text : string) : option json :=
  match parseText text with
  | Value v _ => Some v
  | _ => None
  end.

(** *** The instance *)

#[export] Instance platform : Platform := {
  URL := url;
  new_URL := new_URL;
  URL_href := href;
  URL_origin := origin;
  URL_set_search := set_search;
  Query := query;
  qs_stringify := stringify;
  JSONValue := json;
  JSON_parse := parse;
  number := safeInteger;
  Number_toString := Number_toString
}.

(** A remote end that answers every request with the same response, and a
    file system with no readable file. *)
Definition constantEnv (r : Response) : Env := mkEnv (fun _ _ => Responds r) (fun _ => None).

Definition initialWorld (c : QBittorrent) : World := mkWorld c [].

End Reference.

(** ** Sample data *)

Module Scenario.

(** The handle [new QBittorrent('http://localhost:8080/')] gives. *)
Definition handle : QBittorrent := mkQBittorrent "http://localhost:8080/api/v2/" None.

Definition sessionCookie : string := "SID=abc123; Path=/".

(** The same handle after a login. *)
Definition loggedIn : QBittorrent :=
  mkQBittorrent "http://localhost:8080/api/v2/" (Some sessionCookie).

(** Answers of the server: an accepted and a refused login, a version
    string, and failures with and without text. *)
Definition accepted : Response :=
  mkResponse 200 [("content-type", "text/plain"); ("set-cookie", sessionCookie)] "Ok.".

Definition refused : Response :=
  mkResponse 200 [("content-type", "text/plain")] "Fails.".

(** An accepted login whose cookie comes with a space at its end. *)
Definition paddedCookie : string := "SID=abc123; Path=/ ".

Definition padded : Response :=
  mkResponse 200 [("content-type", "text/plain"); ("set-cookie", paddedCookie)] "Ok.".

Definition version : Response := mkResponse 200 [] "4.6.5".

Definition pieceStates : Response := mkResponse 200 [] "[0, 1, 2, 2]".

Definition forbidden : Response := mkResponse 403 [] "Forbidden".

Definition unavailable : Response := mkResponse 503 [] "".

(** The request of [login('admin', 'adminadmin')] on [handle]. *)
Definition loginRequest : Request :=
  mkRequest "http://localhost:8080/api/v2/auth/login" POST
    [("Referer", "http://localhost:8080")]
    (Some (BodyURLSearchParams [("username", "admin"); ("password", "adminadmin")])).

(** The request of [getApplicationVersion()] on [handle]. *)
Definition versionRequest : Request :=
  mkRequest "http://localhost:8080/api/v2/app/version" GET
    [("Referer", "http://localhost:8080")] None.

(** The request of [logout()] on [loggedIn]. *)
Definition logoutRequest : Request :=
  mkRequest "http://localhost:8080/api/v2/auth/logout" GET
    [("Referer", "http://localhost:8080"); ("Cookie", sessionCookie)] None.

(** A file system with one torrent file, and a server that accepts. *)
Definition torrentFile : list byte := [x64; x38; x3a; x61; x6e; x6e; x6f; x75; x6e; x63; x65].

Definition disk (path : string) : option (list byte) :=
  if String.eqb path "/tmp/debian.torrent" then Some torrentFile else None.

Definition env : Env := mkEnv (fun _ _ => Responds accepted) disk.

(** An [addNewTorrent] call: two links, a path, a buffer, a stream and a
    blob, with three options. *)
Definition torrents : list TorrentInput :=
  [TString "magnet:?xt=urn:btih:c12fe1c06bba254a9dc9f519b335aa7c1367a88a";
   TString "/tmp/debian.torrent";
   TBuffer [x64; x65];
   TString "https://example.org/ubuntu.torrent";
   TStream [[x64; x34]; [x3a]];
   TBlob (mkBlob [x64; x65] "application/octet-stream")].

(** The numbers of the calls below: an upload limit, a ratio and the
    minutes of a day. *)
Definition upLimit : Reference.safeInteger := Reference.mkSafeInteger 1024 eq_refl.
Definition ratio : Reference.safeInteger := Reference.mkSafeInteger 2 eq_refl.
Definition minutes : Reference.safeInteger := Reference.mkSafeInteger 1440 eq_refl.

Definition options : option (AddNewTorrentOptions (P := Reference.platform)) :=
  Some [("category", OptString "linux"); ("upLimit", OptNumber (upLimit : @number Reference.platform));
        ("autoTMM", OptBoolean false)].

Definition uploads : list Blob :=
  [mkBlob torrentFile bittorrent;
   mkBlob [x64; x65] bittorrent;
   mkBlob [x64; x34; x3a] bittorrent;
   mkBlob [x64; x65] "application/octet-stream"].

(** A [setTorrentShareLimit] call with both limits. *)
Definition shareLimits : SetTorrentShareLimitOptions (P := Reference.platform) :=
  mkShareLimitOptions (Some (ratio : @number Reference.platform))
                      (Some (minutes : @number Reference.platform)).

End Scenario.

(** ** The rest of the endpoint surface

    The operations below need two more things of the platform: the number
    [0] of the default parameters, and the query objects the code writes as
    object literals. *)

(** The value of a property of a query object. *)
Inductive Field {P : Platform} :=
| FieldString (s : string)
| FieldNumber (n : number)
| FieldBoolean (b : bool)
| FieldArray (a : list string)
| FieldUndefined.

Class Values (P : Platform) := {
  (** The number literal [0]. *)
  Number_zero : number;
  (** The object [{ k1: v1, ... }], with its properties in order. *)
  Query_object : list (string * Field) -> Query
}.

(** [JSON.stringify] on the objects the code hands to it.  It returns a
    string, or [undefined] for a value that has no JSON text, or it throws:
    on a cycle, on a BigInt, or what a [toJSON] method or a getter of the
    object throws. *)
Class Serializer := {
  JSObject : Type;
  JSON_stringify : JSObject -> Result (option string)
}.

(** The string a record given to [new URLSearchParams] holds for a
    property: the value converted to a string, [undefined] included. *)
Definition USVString (v : option string) : string :=
  match v with Some s => s | None => "undefined" end.

(** An operation posts [form] to [apiName/methodName] when, in every state
    in which a request to that endpoint can be prepared, it sends exactly
    one request: a POST to the URL of the endpoint, with the headers of the
    handle and [form] for its body. *)
Definition postsForm {P : Platform} {A} (op : M A) (apiName : APINames.t)
    (methodName : string) (form : URLSearchParams.t) : Prop :=
  forall w endpoint,
    prepare (this w) apiName methodName None = Returned endpoint ->
    sent (snd (op w))
    = sent w ++ [mkRequest (req_url endpoint) POST (req_headers endpoint)
                   (Some (BodyURLSearchParams form))].

(** An operation posts the field [name = value] to [apiName/methodName]
    when, in every state in which a request to that endpoint can be
    prepared, it sends exactly one request: a POST to the URL of the
    endpoint, with the headers of the handle and a form for its body, and
    the form holds [value] under [name]. *)
Definition postsField {P : Platform} {A} (op : M A) (apiName : APINames.t)
    (methodName name value : string) : Prop :=
  forall w endpoint,
    prepare (this w) apiName methodName None = Returned endpoint ->
    exists request form,
      sent (snd (op w)) = sent w ++ [request]
      /\ req_url request = req_url endpoint
      /\ req_method request = POST
      /\ req_headers request = req_headers endpoint
      /\ req_body request = Some (BodyURLSearchParams form)
      /\ URLSearchParams.get form name = Some value.

(** An operation keeps the handle when, in every state, it leaves [this] as
    it was and sends nothing or one request. *)
Definition keepsHandle {A} (op : M A) : Prop :=
  forall w,
    this (snd (op w)) = this w
    /\ (sent (snd (op w)) = sent w \/ exists request, sent (snd (op w)) = sent w ++ [request]).

Section Surface.

Context {P : Platform} {V : Values P} {S : Serializer} (env : Env).

(** An optional number as the value of a property. *)
Definition optionalNumber (n : option number) : Field :=
  match n with Some n => FieldNumber n | None => FieldUndefined end.

(** The options [{ query }]. *)
Definition queryOptions (query : Query) : CallMethodOptions :=
  mkOptions None (Some query) None None.

(** The options [{ method: 'POST' }]. *)
Definition postOnly : CallMethodOptions := mkOptions (Some POST) None None None.

(** *** Application *)

Definition getAPIVersion : M Body :=
  r <- callMethod env APINames.app "webapiVersion" None ;; ret (res_body r).

Definition getBuildInfo : M Body :=
  r <- callMethod env APINames.app "buildInfo" None ;; ret (res_body r).

Definition shutdownApplication : M unit :=
  _ <- callMethod env APINames.app "shutdown" (Some postOnly) ;; ret tt.

Definition getApplicationPreferences : M Body :=
  r <- callMethod env APINames.app "preferences" None ;; ret (res_body r).

(** [JSON.stringify(preferences)] runs first; when it throws, nothing is
    built or sent. *)
Definition setApplicationPreferences_body (json : option string) : URLSearchParams.t :=
  URLSearchParams.ofRecord [("json", USVString json)].
Definition setApplicationPreferences (preferences : JSObject) : M unit :=
  json <- pure (JSON_stringify preferences) ;;
  _ <- post env APINames.app "setPreferences" (setApplicationPreferences_body json) ;;
  ret tt.

Definition getDefaultSavePath : M Body :=
  r <- callMethod env APINames.app "defaultSavePath" None ;; ret (res_body r).

(** *** Log and sync *)

(** [GetLogOptions] and [GetTorrentListOptions] objects go to [qs] as they
    are: their properties, in order. *)
Definition getLog (options : option (list (string * Field))) : M Body :=
  r <- callMethod env APINames.log "main"
         (Some (mkOptions None (option_map Query_object options) None None)) ;;
  ret (res_body r).

Definition getPeerLog (lastKnownId : option number) : M Body :=
  r <- callMethod env APINames.log "peers"
         (Some (queryOptions (Query_object [("last_known_id", optionalNumber lastKnownId)]))) ;;
  ret (res_body r).

Definition getMainData (rid : option number) : M Body :=
  r <- callMethod env APINames.sync "maindata"
         (Some (queryOptions (Query_object [("rid", optionalNumber rid)]))) ;;
  ret (res_body r).

Definition getTorrentPeersData (hash : string) (rid : option number) : M Body :=
  let query := Query_object [("hash", FieldString hash); ("rid", optionalNumber rid)] in
  r <- callMethod env APINames.sync "torrentPeers" (Some (queryOptions query)) ;;
  ret (res_body r).

(** *** Transfer *)

Definition getGlobalTransferInfo : M Body :=
  r <- callMethod env APINames.transfer "info" None ;; ret (res_body r).

Definition getAlternativeSpeedLimitsState : M Body :=
  r <- callMethod env APINames.transfer "speedLimitsMode" None ;; ret (res_body r).

Definition toggleAlternativeSpeedLimits : M unit :=
  _ <- callMethod env APINames.transfer "toggleSpeedLimitsMode" (Some postOnly) ;; ret tt.

Definition getGlobalDownloadLimit : M Body :=
  r <- callMethod env APINames.transfer "downloadLimit" None ;; ret (res_body r).

Definition setGlobalDownloadLimit_body (limit : option number) : URLSearchParams.t :=
  let limit := match limit with Some n => n | None => Number_zero end in
  URLSearchParams.ofRecord [("limit", Number_toString limit)].
Definition setGlobalDownloadLimit (limit : option number) : M unit :=
  _ <- post env APINames.transfer "setDownloadLimit" (setGlobalDownloadLimit_body limit) ;;
  ret tt.

Definition getGlobalUploadLimit : M Body :=
  r <- callMethod env APINames.transfer "uploadLimit" None ;; ret (res_body r).

Definition setGlobalUploadLimit_body (limit : option number) : URLSearchParams.t :=
  let limit := match limit with Some n => n | None => Number_zero end in
  URLSearchParams.ofRecord [("limit", Number_toString limit)].
Definition setGlobalUploadLimit (limit : option number) : M unit :=
  _ <- post env APINames.transfer "setUploadLimit" (setGlobalUploadLimit_body limit) ;;
  ret tt.

Definition banPeers_body (peers : list string) : URLSearchParams.t :=
  URLSearchParams.ofRecord [("peers", JS.join peers "|")].
Definition banPeers (peers : list string) : M unit :=
  _ <- post env APINames.transfer "banPeers" (banPeers_body peers) ;; ret tt.

(** *** Torrents: queries *)

Definition getTorrentList (options : option (list (string * Field))) : M Body :=
  r <- callMethod env APINames.torrents "info"
         (Some (mkOptions None (option_map Query_object options) None None)) ;;
  ret (res_body r).

(** The query [{ hash }] of the operations that ask about one torrent. *)
Definition hashQuery (hash : string) : Query := Query_object [("hash", FieldString hash)].

Definition getTorrentGenericProperties (hash : string) : M Body :=
  let query := hashQuery hash in
  r <- callMethod env APINames.torrents "properties" (Some (queryOptions query)) ;;
  ret (res_body r).

Definition getTorrentTrackers (hash : string) : M Body :=
  let query := hashQuery hash in
  r <- callMethod env APINames.torrents "trackers" (Some (queryOptions query)) ;;
  ret (res_body r).

Definition getTorrentWebSeeds (hash : string) : M Body :=
  let query := hashQuery hash in
  r <- callMethod env APINames.torrents "webseeds" (Some (queryOptions query)) ;;
  ret (res_body r).

(** [Array.isArray(indexes) ? indexes.join('|') : undefined], for an array
    of numbers. *)
Definition indexesField (indexes : option (list number)) : Field :=
  match indexes with
  | Some a => FieldString (JS.join (map Number_toString a) "|")
  | None => FieldUndefined
  end.

Definition getTorrentContents_query (hash : string) (indexes : option (list number)) : Query :=
  Query_object [("hash", FieldString hash); ("indexes", indexesField indexes)].
Definition getTorrentContents (hash : string) (indexes : option (list number)) : M Body :=
  let query := getTorrentContents_query hash indexes in
  r <- callMethod env APINames.torrents "files" (Some (queryOptions query)) ;;
  ret (res_body r).

Definition getTorrentPiecesStates (hash : string) : M Body :=
  let query := hashQuery hash in
  r <- callMethod env APINames.torrents "pieceStates" (Some (queryOptions query)) ;;
  ret (res_body r).

Definition getTorrentPiecesHashes (hash : string) : M Body :=
  let query := hashQuery hash in
  r <- callMethod env APINames.torrents "pieceHashes" (Some (queryOptions query)) ;;
  ret (res_body r).

(** *** Torrents: forms *)

Definition addTrackersToTorrent_body (hash : string) (urls : list string) : URLSearchParams.t :=
  URLSearchParams.ofRecord [("hash", hash); ("urls", JS.join urls LF)].
Definition addTrackersToTorrent (hash : string) (urls : list string) : M unit :=
  _ <- post env APINames.torrents "addTrackers" (addTrackersToTorrent_body hash urls) ;; ret tt.

Definition editTrackers_body (hash origUrl newUrl : string) : URLSearchParams.t :=
  URLSearchParams.ofRecord [("hash", hash); ("origUrl", origUrl); ("newUrl", newUrl)].
Definition editTrackers (hash origUrl newUrl : string) : M unit :=
  _ <- post env APINames.torrents "editTracker" (editTrackers_body hash origUrl newUrl) ;;
  ret tt.

Definition removeTrackers_body (hash : string) (urls : list string) : URLSearchParams.t :=
  URLSearchParams.ofRecord [("hash", hash); ("urls", JS.join urls LF)].
Definition removeTrackers (hash : string) (urls : list string) : M unit :=
  _ <- post env APINames.torrents "removeTrackers" (removeTrackers_body hash urls) ;; ret tt.

(** [id.join('|')] for an array of numbers: each element as its string. *)
Definition setFilePriority_body (hash : string) (id : list number) (priority : number)
  : URLSearchParams.t :=
  URLSearchParams.ofRecord
    [("hash", hash); ("id", JS.join (map Number_toString id) "|");
     ("priority", Number_toString priority)].
Definition setFilePriority (hash : string) (id : list number) (priority : number) : M unit :=
  _ <- post env APINames.torrents "filePrio" (setFilePriority_body hash id priority) ;; ret tt.

Definition setTorrentName_body (hash name : string) : URLSearchParams.t :=
  URLSearchParams.ofRecord [("hash", hash); ("name", name)].
Definition setTorrentName (hash name : string) : M unit :=
  _ <- post env APINames.torrents "rename" (setTorrentName_body hash name) ;; ret tt.

Definition getAllCategories : M Body :=
  r <- callMethod env APINames.torrents "categories" None ;; ret (res_body r).

Definition editCategory_body (category savePath : string) : URLSearchParams.t :=
  URLSearchParams.ofRecord [("category", category); ("savePath", savePath)].
Definition editCategory (category savePath : string) : M unit :=
  _ <- post env APINames.torrents "editCategory" (editCategory_body category savePath) ;;
  ret tt.

Definition removeCategory_body (categories : list string) : URLSearchParams.t :=
  URLSearchParams.ofRecord [("categories", JS.join categories "|")].
Definition removeCategory (categories : list string) : M unit :=
  _ <- post env APINames.torrents "removeCategories" (removeCategory_body categories) ;;
  ret tt.

Definition getAllTags : M Body :=
  r <- callMethod env APINames.torrents "tags" None ;; ret (res_body r).

(** *** RSS *)

Definition addFolder_body (path : string) : URLSearchParams.t :=
  URLSearchParams.ofRecord [("path", path)].
Definition addFolder (path : string) : M unit :=
  _ <- post env APINames.rss "addFolder" (addFolder_body path) ;; ret tt.

Definition addFeed_body (url path : string) : URLSearchParams.t :=
  URLSearchParams.ofRecord [("url", url); ("path", path)].
Definition addFeed (url path : string) : M unit :=
  _ <- post env APINames.rss "addFeed" (addFeed_body url path) ;; ret tt.

Definition removeItem_body (path : string) : URLSearchParams.t :=
  URLSearchParams.ofRecord [("path", path)].
Definition removeItem (path : string) : M unit :=
  _ <- post env APINames.rss "removeItem" (removeItem_body path) ;; ret tt.

Definition moveItem_body (itemPath destPath : string) : URLSearchParams.t :=
  URLSearchParams.ofRecord [("itemPath", itemPath); ("destPath", destPath)].
Definition moveItem (itemPath destPath : string) : M unit :=
  _ <- post env APINames.rss "moveItem" (moveItem_body itemPath destPath) ;; ret tt.

(** [withData ?? false] *)
Definition getAllItems_query (withData : option bool) : Query :=
  Query_object [("withData", FieldBoolean (match withData with Some b => b | None => false end))].
Definition getAllItems (withData : option bool) : M Body :=
  r <- callMethod env APINames.rss "items" (Some (queryOptions (getAllItems_query withData))) ;;
  ret (res_body r).

Definition markAsRead_body (itemPath : string) (articleId : option string) : URLSearchParams.t :=
  let body := URLSearchParams.ofRecord [("itemPath", itemPath)] in
  match articleId with
  | Some a => URLSearchParams.set body "articleId" a
  | None => body
  end.
Definition markAsRead (itemPath : string) (articleId : option string) : M unit :=
  _ <- post env APINames.rss "markAsRead" (markAsRead_body itemPath articleId) ;; ret tt.

Definition refreshItem_body (itemPath : string) : URLSearchParams.t :=
  URLSearchParams.ofRecord [("itemPath", itemPath)].
Definition refreshItem (itemPath : string) : M unit :=
  _ <- post env APINames.rss "refreshItem" (refreshItem_body itemPath) ;; ret tt.

Definition setAutoDownloadingRule_body (ruleName : string) (ruleDef : option string)
  : URLSearchParams.t :=
  URLSearchParams.ofRecord [("ruleName", ruleName); ("ruleDef", USVString ruleDef)].
Definition setAutoDownloadingRule (ruleName : string) (ruleDef : JSObject) : M unit :=
  json <- pure (JSON_stringify ruleDef) ;;
  _ <- post env APINames.rss "setRule" (setAutoDownloadingRule_body ruleName json) ;;
  ret tt.

Definition renameAutoDownloadingRule_body (ruleName newRuleName : string) : URLSearchParams.t :=
  URLSearchParams.ofRecord [("ruleName", ruleName); ("newRuleName", newRuleName)].
Definition renameAutoDownloadingRule (ruleName newRuleName : string) : M unit :=
  _ <- post env APINames.rss "renameRule"
         (renameAutoDownloadingRule_body ruleName newRuleName) ;;
  ret tt.

Definition removeAutoDownloadingRule_body (ruleName : string) : URLSearchParams.t :=
  URLSearchParams.ofRecord [("ruleName", ruleName)].
Definition removeAutoDownloadingRule (ruleName : string) : M unit :=
  _ <- post env APINames.rss "removeRule" (removeAutoDownloadingRule_body ruleName) ;; ret tt.

Definition getAllAutoDownloadingRules : M Body :=
  r <- callMethod env APINames.rss "rules" None ;; ret (res_body r).

Definition getAllArticlesMatchingRule_body (ruleName : string) : URLSearchParams.t :=
  URLSearchParams.ofRecord [("ruleName", ruleName)].
Definition getAllArticlesMatchingRule (ruleName : string) : M Body :=
  r <- post env APINames.rss "matchingArticles" (getAllArticlesMatchingRule_body ruleName) ;;
  ret (res_body r).

(** *** Search *)

(** An argument of type [string[] | 'all' | 'enabled'], and a parameter
    with the default ['all']. *)
Definition startSearch_body (pattern : string) (plugins : option HashesArg)
    (category : option string) : URLSearchParams.t :=
  let plugins := match plugins with Some p => p | None => HashString "all" end in
  let category := match category with Some c => c | None => "all" end in
  URLSearchParams.ofRecord
    [("pattern", pattern);
     ("plugins", match plugins with HashArray a => JS.join a "|" | HashString s => s end);
     ("category", category)].
Definition startSearch (pattern : string) (plugins : option HashesArg)
    (category : option string) : M Body :=
  r <- post env APINames.search "start" (startSearch_body pattern plugins category) ;;
  ret (res_body r).

Definition stopSearch_body (id : number) : URLSearchParams.t :=
  URLSearchParams.ofRecord [("id", Number_toString id)].
Definition stopSearch (id : number) : M unit :=
  _ <- post env APINames.search "stop" (stopSearch_body id) ;; ret tt.

Definition getSearchStatus_body (id : option number) : URLSearchParams.t :=
  let body := URLSearchParams.empty in
  match id with
  | Some n => URLSearchParams.set body "id" (Number_toString n)
  | None => body
  end.
Definition getSearchStatus (id : option number) : M Body :=
  r <- post env APINames.search "status" (getSearchStatus_body id) ;; ret (res_body r).

Definition getSearchResults_body (id : number) (limit offset : option number)
  : URLSearchParams.t :=
  let limit := match limit with Some n => n | None => Number_zero end in
  let offset := match offset with Some n => n | None => Number_zero end in
  URLSearchParams.ofRecord
    [("id", Number_toString id); ("limit", Number_toString limit);
     ("offset", Number_toString offset)].
Definition getSearchResults (id : number) (limit offset : option number) : M Body :=
  r <- post env APINames.search "results" (getSearchResults_body id limit offset) ;;
  ret (res_body r).

Definition deleteSearch_body (id : number) : URLSearchParams.t :=
  URLSearchParams.ofRecord [("id", Number_toString id)].
Definition deleteSearch (id : number) : M unit :=
  _ <- post env APINames.search "delete" (deleteSearch_body id) ;; ret tt.

Definition getSearchPlugins : M Body :=
  r <- callMethod env APINames.search "plugins" None ;; ret (res_body r).

Definition installSearchPlugin_body (sources : list string) : URLSearchParams.t :=
  URLSearchParams.ofRecord [("sources", JS.join sources "|")].
Definition installSearchPlugin (sources : list string) : M unit :=
  _ <- post env APINames.search "installPlugin" (installSearchPlugin_body sources) ;; ret tt.

Definition uninstallSearchPlugin_body (names : list string) : URLSearchParams.t :=
  URLSearchParams.ofRecord [("names", JS.join names "|")].
Definition uninstallSearchPlugin (names : list string) : M unit :=
  _ <- post env APINames.search "uninstallPlugin" (uninstallSearchPlugin_body names) ;; ret tt.

Definition enableSearchPlugin_body (names : list string) (enable : option bool)
  : URLSearchParams.t :=
  let enable := orDefault true enable in
  URLSearchParams.ofRecord
    [("names", JS.join names "|"); ("enable", JS.Boolean_toString enable)].
Definition enableSearchPlugin (names : list string) (enable : option bool) : M unit :=
  _ <- post env APINames.search "enablePlugin" (enableSearchPlugin_body names enable) ;; ret tt.

Definition updateSearchPlugins : M unit :=
  _ <- callMethod env APINames.search "updatePlugins" (Some postOnly) ;; ret tt.

(** *** The path [addNewTorrent] fails on

    The first string of the torrents, in order, that is not a link and
    cannot be read. *)
Fixpoint firstUnreadable (torrents : list TorrentInput) : option string :=
  match torrents with
  | [] => None
  | TString s :: rest =>
      if isLink s then firstUnreadable rest
      else match readFileSync env s with
           | Some _ => firstUnreadable rest
           | None => Some s
           end
  | _ :: rest => firstUnreadable rest
  end.

End Surface.

(** The values of the reference platform: the integer 0, and a query object
    as the list of its properties. *)
Module ReferenceValues.

Definition field (f : Field (P := Reference.platform)) : Reference.QueryValue :=
  match f with
  | FieldString s => Reference.QString s
  | FieldNumber n => Reference.QNumber n
  | FieldBoolean b => Reference.QBoolean b
  | FieldArray a => Reference.QArray a
  | FieldUndefined => Reference.QUndefined
  end.

Definition object (properties : list (string * Field (P := Reference.platform)))
  : Reference.query :=
  map (fun e => (fst e, field (snd e))) properties.

#[export] Instance values : Values Reference.platform := {
  Number_zero := Reference.mkSafeInteger 0 eq_refl;
  Query_object := object
}.

(** The search of a URL for a query string: nothing, or [?] and the string. *)
Definition searchOf (query : string) : string :=
  if String.eqb query "" then "" else ("?" ++ query)%string.

(** The characters of the authority of a reference URL. *)
Definition isAuthorityChar (c : ascii) : bool :=
  Reference.isLower c || Reference.isDigit c || Ascii.eqb c "." || Ascii.eqb c ":".

(** The handle the constructor gives for a root that parses to [b], and the
    bodiless GET request to a path under the origin of [b]. *)
Definition handleOf (b : Reference.url) : QBittorrent :=
  mkQBittorrent (Reference.origin b ++ "/api/v2/")%string None.

Definition getRequest (b : Reference.url) (path : string) : Request :=
  mkRequest (Reference.origin b ++ path)%string GET [("Referer", Reference.origin b)] None.

End ReferenceValues.

(** An operation, run on the handle the constructor gives for a root that
    parses to [b], sends one request: to a URL under the base of the
    handle, with the [Referer] as its only header, and as a POST when it has
    a body. *)
Definition sendsOneTo (b : Reference.url) {A} (op : M A) : Prop :=
  forall w, this w = ReferenceValues.handleOf b ->
    exists request,
      sent (snd (op w)) = sent w ++ [request]
      /\ JS.startsWith (req_url request) (Reference.origin b ++ "/api/v2/") = true
      /\ req_headers request = [("Referer", Reference.origin b)]
      /\ (req_body request <> None -> req_method request = POST).

(** ** More sample data *)

Module Samples.

(** What [http://localhost:8080] parses to. *)
Definition localhost : Reference.url := Reference.mkUrl "http" "localhost:8080" "/" "".

(** A network that is down, and an empty disk. *)
Definition down : Env := mkEnv (fun _ _ => Fails "ECONNREFUSED") (fun _ => None).

(** A disk with the torrent file of [Scenario] only, read by a call that
    names a second, missing file after a link and the file. *)
Definition missing : list TorrentInput :=
  [TString "https://example.org/ubuntu.torrent";
   TString "/tmp/debian.torrent";
   TString "/tmp/missing.torrent";
   TString "/tmp/gone.torrent"].

(** A second disk, which agrees with the first on the path read. *)
Definition otherDisk (path : string) : option (list byte) :=
  if String.eqb path "/tmp/debian.torrent" then Some Scenario.torrentFile
  else if String.eqb path "https://example.org/ubuntu.torrent" then Some [x00]
  else None.

Definition otherEnv : Env := mkEnv (fun _ _ => Fails "ECONNREFUSED") otherDisk.

Definition readable : list TorrentInput :=
  [TString "https://example.org/ubuntu.torrent"; TString "/tmp/debian.torrent"].

(** A sample of objects for [JSON.stringify]: those with no property or
    with the one property [dht], a boolean ([{}] and [{ dht: b }]).  Their
    JSON text is [{}], or the name in quotes, a colon and [true] or [false]
    in braces; nothing throws. *)
Definition dhtText (o : option bool) : string :=
  match o with
  | None => "{}"
  | Some b =>
      ("{" ++ String Reference.quote ("dht" ++ String Reference.quote (":" ++
         JS.Boolean_toString b ++ "}")))%string
  end.

#[export] Instance dhtObjects : Serializer := {
  JSObject := option bool;
  JSON_stringify := fun o => Returned (Some (dhtText o))
}.

(** A response id, and the indexes of three files. *)
Definition seven : Reference.safeInteger := Reference.mkSafeInteger 7 eq_refl.

Definition indexes : list Reference.safeInteger :=
  [Reference.mkSafeInteger 0 eq_refl; Reference.mkSafeInteger 2 eq_refl;
   Reference.mkSafeInteger 5 eq_refl].

(** The answer to a version request, as [callMethod] returns it. *)
Definition versionAnswer : CallMethodResponse (P := Reference.platform) :=
  mkCallMethodResponse (Raw "4.6.5") [].

End Samples.

(** * Properties *)

(** ** Strings *)

Lemma of_chars_chars (s : string) : JS.of_chars (JS.chars s) = s.
Proof. apply string_of_list_ascii_of_string. Qed.

Lemma chars_of_chars (l : list ascii) : JS.chars (JS.of_chars l) = l.
Proof. apply list_ascii_of_string_of_list_ascii. Qed.

Lemma chars_append (s t : string) : JS.chars (s ++ t)%string = JS.chars s ++ JS.chars t.
Proof.
  unfold JS.chars. induction s as [|c s IH]; simpl; [reflexivity|].
  now rewrite IH.
Qed.

Lemma of_chars_app (a b : list ascii) :
  JS.of_chars (a ++ b) = (JS.of_chars a ++ JS.of_chars b)%string.
Proof. induction a as [|x a IH]; simpl; [reflexivity|]. now rewrite IH. Qed.

Lemma dropWhile_head {A} (p : A -> bool) (l : list A) x r :
  JS.dropWhile p l = x :: r -> p x = false.
Proof.
  induction l as [|y l IH]; simpl; [discriminate|].
  destruct (p y) eqn:E; [exact IH|].
  intros H. injection H as -> _. exact E.
Qed.

Lemma dropWhile_fixed {A} (p : A -> bool) (x : A) (l : list A) :
  p x = false -> JS.dropWhile p (x :: l) = x :: l.
Proof. intros H. simpl. now rewrite H. Qed.

Lemma dropWhile_idempotent {A} (p : A -> bool) (l : list A) :
  JS.dropWhile p (JS.dropWhile p l) = JS.dropWhile p l.
Proof.
  destruct (JS.dropWhile p l) as [|x r] eqn:E; [reflexivity|].
  apply dropWhile_fixed. exact (dropWhile_head p l x r E).
Qed.

Lemma dropWhile_app {A} (p : A -> bool) (a b : list A) :
  JS.dropWhile p (a ++ b) =
  match JS.dropWhile p a with
  | [] => JS.dropWhile p b
  | x :: r => (x :: r) ++ b
  end.
Proof.
  induction a as [|y a IH]; simpl; [reflexivity|].
  destruct (p y); [exact IH|reflexivity].
Qed.

(** Dropping from the end keeps the first element, unless nothing stays. *)
Lemma dropEnd_cons {A} (p : A -> bool) (x : A) (l : list A) :
  rev (JS.dropWhile p (rev (x :: l))) =
  match rev (JS.dropWhile p (rev l)) with
  | [] => if p x then [] else [x]
  | y :: r => x :: y :: r
  end.
Proof.
  simpl rev at 2. rewrite dropWhile_app.
  destruct (JS.dropWhile p (rev l)) as [|y r] eqn:E.
  - simpl. destruct (p x); reflexivity.
  - rewrite rev_app_distr. change (rev [x]) with [x].
    destruct (rev (y :: r)) as [|z t] eqn:F; [|reflexivity].
    exfalso. apply (f_equal (@List.length A)) in F. rewrite length_rev in F. discriminate.
Qed.

Lemma dropEnd_fixed {A} (p : A -> bool) (x : A) (l : list A) :
  p x = false ->
  JS.dropWhile p (rev (JS.dropWhile p (rev (x :: l)))) = rev (JS.dropWhile p (rev (x :: l))).
Proof.
  intros H. rewrite dropEnd_cons.
  destruct (rev (JS.dropWhile p (rev l))) as [|y r].
  - rewrite H. apply dropWhile_fixed, H.
  - apply dropWhile_fixed, H.
Qed.

Lemma dropEnd_nonempty {A} (p : A -> bool) (x : A) (l : list A) :
  p x = false -> rev (JS.dropWhile p (rev (x :: l))) <> [].
Proof.
  intros H. rewrite dropEnd_cons.
  destruct (rev (JS.dropWhile p (rev l))); [rewrite H|]; discriminate.
Qed.

(** Stripping is idempotent: a stripped string is stripped to itself. *)
Lemma strip_idempotent (p : ascii -> bool) (s : string) :
  JS.strip p (JS.strip p s) = JS.strip p s.
Proof.
  unfold JS.strip. rewrite chars_of_chars. f_equal.
  destruct (JS.dropWhile p (JS.chars s)) as [|x l] eqn:E; [reflexivity|].
  pose proof (dropWhile_head p _ x l E) as Hx.
  rewrite (dropEnd_fixed p x l Hx).
  rewrite rev_involutive, dropWhile_idempotent. reflexivity.
Qed.

(** A string whose first character stays is not stripped to nothing. *)
Lemma strip_nonempty (p : ascii -> bool) (c : ascii) (s : string) :
  p c = false -> JS.strip p (String c s) <> "".
Proof.
  intros H E. unfold JS.strip in E.
  change (JS.chars (String c s)) with (c :: JS.chars s) in E.
  rewrite (dropWhile_fixed p c _ H) in E.
  apply (f_equal JS.chars) in E. rewrite chars_of_chars in E.
  exact (dropEnd_nonempty p c _ H E).
Qed.

(** A string of characters that all go is stripped to nothing. *)
Lemma strip_all (p : ascii -> bool) (s : string) :
  forallb p (JS.chars s) = true -> JS.strip p s = "".
Proof.
  intros H. unfold JS.strip.
  assert (E : JS.dropWhile p (JS.chars s) = []).
  { induction (JS.chars s) as [|x l IH]; simpl in *; [reflexivity|].
    apply andb_prop in H as [Hx Hl]. rewrite Hx. exact (IH Hl). }
  rewrite E. reflexivity.
Qed.

Lemma splitChars_whole (c : ascii) (l : list ascii) :
  ~ In c l -> JS.splitChars c l = [l].
Proof.
  induction l as [|x l IH]; intros H; simpl; [reflexivity|].
  destruct (Ascii.eqb x c) eqn:E.
  - apply Ascii.eqb_eq in E. exfalso. apply H. left. exact E.
  - rewrite IH; [reflexivity|]. intros Hin. apply H. right. exact Hin.
Qed.

Lemma splitChars_app (c : ascii) (l1 l2 : list ascii) :
  ~ In c l1 -> JS.splitChars c (l1 ++ c :: l2) = l1 :: JS.splitChars c l2.
Proof.
  induction l1 as [|x l1 IH]; intros H; simpl.
  - rewrite Ascii.eqb_refl. reflexivity.
  - destruct (Ascii.eqb x c) eqn:E.
    + apply Ascii.eqb_eq in E. exfalso. apply H. left. exact E.
    + rewrite IH; [reflexivity|]. intros Hin. apply H. right. exact Hin.
Qed.

(** Joining keeps the elements and their order: splitting the joined
    string at the separator gives the array back, when no element holds
    the separator. *)
Lemma split_join (c : ascii) (a : list string) :
  a <> [] ->
  (forall h, In h a -> ~ In c (JS.chars h)) ->
  JS.split (JS.join a (String c EmptyString)) c = a.
Proof.
  intros Hne. unfold JS.split, JS.join.
  induction a as [|h a IH]; [contradiction|]. intros H.
  destruct a as [|h' a].
  - simpl. rewrite splitChars_whole; [|apply H; left; reflexivity].
    simpl. rewrite of_chars_chars. reflexivity.
  - change (String.concat (String c EmptyString) (h :: h' :: a))
      with (h ++ String c EmptyString ++ String.concat (String c EmptyString) (h' :: a))%string.
    rewrite chars_append. change (JS.chars (String c EmptyString ++ ?t)%string)
      with (c :: JS.chars t).
    simpl String.append. change (JS.chars (String c ?t)) with (c :: JS.chars t).
    rewrite splitChars_app; [|apply H; left; reflexivity].
    simpl map. rewrite of_chars_chars. f_equal.
    apply IH; [discriminate|]. intros x Hx. apply H. right. exact Hx.
Qed.

Lemma startsWith_cons (s p : string) (c : ascii) :
  JS.startsWith s (String c p) = true -> exists s', s = String c s'.
Proof.
  unfold JS.startsWith. destruct s as [|d s]; simpl; [discriminate|].
  destruct (Ascii.ascii_dec c d) as [->|]; [eauto|discriminate].
Qed.

(** ** Header lists *)

#[local] Arguments Headers.append : simpl never.
#[local] Arguments Headers.normalize : simpl never.
#[local] Arguments JS.trim : simpl never.

Lemma append_inv (h h' : Headers.t) (n v : string) :
  Headers.append h n v = Some h' ->
  h' = h ++ [(n, Headers.normalize v)] /\ Headers.validValue (Headers.normalize v) = true.
Proof.
  unfold Headers.append.
  destruct (Headers.validName n); simpl; [|discriminate].
  destruct (Headers.validValue (Headers.normalize v)); [|discriminate].
  intros H. injection H as <-. split; reflexivity.
Qed.

(** A value that is already normalized and valid is stored as it is. *)
Lemma append_stored (h : Headers.t) (n v : string) :
  Headers.validName n = true -> Headers.normalize v = v -> Headers.validValue v = true ->
  Headers.append h n v = Some (h ++ [(n, v)]).
Proof.
  intros Hn Hv Hw. unfold Headers.append. rewrite Hv, Hn, Hw. reflexivity.
Qed.

Lemma values_In (h : Headers.t) (name v : string) :
  In v (Headers.values h name) -> exists n, In (n, v) h.
Proof.
  unfold Headers.values. intros H. apply in_map_iff in H as [[n v'] [E H]].
  simpl in E. subst v'. apply filter_In in H as [H _]. eauto.
Qed.

(** Every value of the header list of a response is a valid header value. *)
Lemma ofFields_valid (fields : list (string * string)) :
  Forall (fun e => Headers.validValue (snd e) = true) (Headers.ofFields fields).
Proof.
  unfold Headers.ofFields. apply Forall_forall. intros e H.
  apply filter_In in H as [_ H]. apply andb_prop in H as [_ H]. exact H.
Qed.

Lemma getSetCookie_valid (r : Response) (c : string) :
  In c (Headers.getSetCookie (Response_headers r)) -> Headers.validValue c = true.
Proof.
  intros H. apply values_In in H as [n H].
  pose proof (ofFields_valid (fields r)) as F.
  rewrite Forall_forall in F. exact (F (n, c) H).
Qed.

(** What is left of a list after dropping from its front satisfies what
    the list satisfies. *)
Lemma dropWhile_forallb {A} (p q : A -> bool) (l : list A) :
  forallb q l = true -> forallb q (JS.dropWhile p l) = true.
Proof.
  induction l as [|x l IH]; simpl; [reflexivity|].
  intros H. destruct (p x); [|exact H].
  apply andb_prop in H as [_ H]. exact (IH H).
Qed.

Lemma forallb_rev {A} (q : A -> bool) (l : list A) :
  forallb q (rev l) = forallb q l.
Proof.
  induction l as [|x l IH]; simpl; [reflexivity|].
  rewrite forallb_app, IH. simpl. rewrite andb_true_r. apply andb_comm.
Qed.

(** Normalizing a valid value gives a valid value. *)
Lemma normalize_valid (v : string) :
  Headers.validValue v = true -> Headers.validValue (Headers.normalize v) = true.
Proof.
  unfold Headers.validValue, Headers.normalize, JS.strip. intros H.
  rewrite chars_of_chars, forallb_rev. apply dropWhile_forallb.
  rewrite forallb_rev. apply dropWhile_forallb. exact H.
Qed.

(** A valid value is accepted by [append], and stored normalized. *)
Lemma append_valid (h : Headers.t) (n v : string) :
  Headers.validName n = true -> Headers.validValue v = true ->
  Headers.append h n v = Some (h ++ [(n, Headers.normalize v)]).
Proof.
  intros Hn Hv. unfold Headers.append. rewrite Hn, (normalize_valid v Hv). reflexivity.
Qed.

(** What [dropWhile] drops satisfies the predicate. *)
Lemma dropWhile_dropped {A} (p : A -> bool) (l : list A) :
  exists dropped, l = dropped ++ JS.dropWhile p l /\ forallb p dropped = true.
Proof.
  induction l as [|x l (d & E & F)]; [exists []; split; reflexivity|].
  simpl. destruct (p x) eqn:Hx.
  - exists (x :: d). simpl. rewrite Hx, F. split; [f_equal; exact E|reflexivity].
  - exists []. split; reflexivity.
Qed.

(** A value whose first character is no whitespace is its normal form
    followed by whitespace only. *)
Lemma normalize_padding (x : ascii) (s : string) :
  Headers.isHttpWhitespace x = false ->
  exists pad,
    String x s = (Headers.normalize (String x s) ++ pad)%string
    /\ forallb Headers.isHttpWhitespace (JS.chars pad) = true.
Proof.
  intros Hx. unfold Headers.normalize, JS.strip.
  change (JS.chars (String x s)) with (x :: JS.chars s).
  rewrite (dropWhile_fixed _ x _ Hx).
  destruct (dropWhile_dropped Headers.isHttpWhitespace (rev (x :: JS.chars s)))
    as (d & E & F).
  exists (JS.of_chars (rev d)). split.
  - apply (f_equal (@rev ascii)) in E. rewrite rev_involutive, rev_app_distr in E.
    rewrite <- of_chars_app, <- E. symmetry. apply (of_chars_chars (String x s)).
  - rewrite chars_of_chars, forallb_rev. exact F.
Qed.

(** A value that neither starts nor ends with whitespace is normalized. *)
Lemma normalize_unpadded (x last : ascii) (s body : string) :
  String x s = (body ++ String last "")%string ->
  Headers.isHttpWhitespace x = false -> Headers.isHttpWhitespace last = false ->
  Headers.normalize (String x s) = String x s.
Proof.
  intros E Hx Hl. unfold Headers.normalize, JS.strip.
  change (JS.chars (String x s)) with (x :: JS.chars s).
  rewrite (dropWhile_fixed _ x _ Hx).
  change (x :: JS.chars s) with (JS.chars (String x s)).
  rewrite E, chars_append. change (JS.chars (String last "")) with [last].
  rewrite rev_app_distr. change (rev [last]) with [last]. simpl app.
  rewrite (dropWhile_fixed _ last _ Hl). simpl rev. rewrite rev_involutive.
  rewrite of_chars_app, of_chars_chars. reflexivity.
Qed.

Lemma find_In {A} (p : A -> bool) (l : list A) (x : A) :
  JS.find p l = Some x -> In x l /\ p x = true.
Proof. apply find_some. Qed.

Lemma Response_ok_iff (r : Response) : Response_ok r = true <-> 200 <= status r <= 299.
Proof. unfold Response_ok. rewrite andb_true_iff, !Z.leb_le. tauto. Qed.

Lemma Response_not_ok_iff (r : Response) :
  Response_ok r = false <-> ~ (200 <= status r <= 299).
Proof.
  rewrite <- Response_ok_iff. destruct (Response_ok r); split; congruence.
Qed.

(** ** The dispatcher *)

Section Dispatcher.

Context {P : Platform} (env : Env).

Lemma callMethod_unfold (w : World) apiName methodName options :
  callMethod env apiName methodName options w =
  match prepare (this w) apiName methodName options with
  | Returned request =>
      match fetch env request w with
      | (Returned response, w') => (settle response, w')
      | (Threw e, w') => (Threw e, w')
      end
  | Threw e => (Threw e, w)
  end.
Proof.
  unfold callMethod, get_this, pure. simpl.
  destruct (prepare (this w) apiName methodName options); [|reflexivity].
  destruct (fetch env a w) as [[response|e] w']; reflexivity.
Qed.

(** [fetch] only extends the log. *)
Lemma fetch_this (request : Request) (w : World) : this (snd (fetch env request w)) = this w.
Proof.
  unfold fetch.
  destruct (req_method request), (req_body request); try reflexivity;
    destruct (remote env (sent w) request); reflexivity.
Qed.

Lemma fetch_sent (request : Request) (w : World) :
  (req_method request = GET -> req_body request = None) ->
  sent (snd (fetch env request w)) = sent w ++ [request].
Proof.
  unfold fetch. intros H.
  destruct (req_method request), (req_body request);
    try (specialize (H eq_refl); discriminate);
    destruct (remote env (sent w) request); reflexivity.
Qed.

Lemma callMethod_this (w : World) apiName methodName options :
  this (snd (callMethod env apiName methodName options w)) = this w.
Proof.
  rewrite callMethod_unfold.
  destruct (prepare (this w) apiName methodName options) as [request|e]; [|reflexivity].
  pose proof (fetch_this request w) as H.
  destruct (fetch env request w) as [[response|e] w']; exact H.
Qed.

Lemma callMethod_sent (w : World) apiName methodName options request :
  prepare (this w) apiName methodName options = Returned request ->
  (req_method request = GET -> req_body request = None) ->
  sent (snd (callMethod env apiName methodName options w)) = sent w ++ [request].
Proof.
  intros Hp Hb. rewrite callMethod_unfold, Hp.
  pose proof (fetch_sent request w Hb) as H.
  destruct (fetch env request w) as [[response|e] w']; exact H.
Qed.

(** What [prepare] puts into the request it returns. *)
Lemma prepare_inv (self : QBittorrent) apiName methodName options request :
  prepare self apiName methodName options = Returned request ->
  exists target base,
    new_URL (APINames.value apiName ++ "/" ++ methodName)%string (Some (url self)) = Some target
    /\ new_URL (url self) None = Some base
    /\ req_url request =
       (let query := qs_stringify (match options with Some o => opt_query o | None => None end) in
        URL_href (if String.eqb query "" then target else URL_set_search target query))
    /\ req_method request =
       match options with
       | Some o => match opt_method o with Some m => m | None => GET end
       | None => GET
       end
    /\ req_body request = match options with Some o => opt_body o | None => None end
    /\ req_headers request =
       ("Referer", Headers.normalize (URL_origin base))
       :: match authCookie self with
          | Some c => if negb (String.eqb (JS.trim c) "")
                      then [("Cookie", Headers.normalize c)] else []
          | None => []
          end.
Proof.
  unfold prepare. simpl.
  destruct (new_URL _ (Some (url self))) as [target|]; simpl; [|discriminate].
  destruct (new_URL (url self) None) as [base|]; simpl; [|discriminate].
  destruct (Headers.append Headers.empty "Referer" (URL_origin base)) as [h|] eqn:Eh;
    simpl; [|discriminate].
  apply append_inv in Eh as [-> _].
  intros H. exists target, base. split; [reflexivity|]. split; [reflexivity|].
  destruct (authCookie self) as [c|]; simpl in H.
  - destruct (negb (String.eqb (JS.trim c) "")); simpl in H.
    + destruct (Headers.append _ "Cookie" c) as [h|] eqn:Ec; simpl in H; [|discriminate].
      apply append_inv in Ec as [-> _].
      injection H as <-. simpl. repeat split; reflexivity.
    + injection H as <-. simpl. repeat split; reflexivity.
  - injection H as <-. simpl. repeat split; reflexivity.
Qed.

(** The settling of a response, by its status. *)
Lemma settle_failure (response : Response) :
  ~ (200 <= status response <= 299) ->
  settle response =
  Threw (Thrown_RequestError (new_RequestError (status response) (text response))).
Proof.
  intros H. apply Response_not_ok_iff in H. unfold settle. rewrite H. reflexivity.
Qed.

Lemma settle_success (response : Response) :
  200 <= status response <= 299 ->
  settle response =
  Returned (mkCallMethodResponse
              match JSON_parse (text response) with
              | Some v => Parsed v
              | None => Raw (text response)
              end
              (Response_headers response)).
Proof.
  intros H. apply Response_ok_iff in H. unfold settle. rewrite H. simpl.
  destruct (JSON_parse (text response)); reflexivity.
Qed.

(** C1.  Whenever [callMethod] has built its request and [fetch] resolves
    to a response whose status is outside 200..299, the call throws a
    [RequestError]: its [code] is the status of the response and its
    [message] is the text of the response, whatever the status and the text
    are (the empty text included); the call does not return a value. *)
Theorem callMethod_throws_RequestError
    (w w' : World) apiName methodName options (request : Request) (response : Response) :
  prepare (this w) apiName methodName options = Returned request ->
  fetch env request w = (Returned response, w') ->
  ~ (200 <= status response <= 299) ->
  (exists e : RequestError,
      callMethod env apiName methodName options w = (Threw (Thrown_RequestError e), w')
      /\ code e = status response
      /\ message e = text response
      /\ name e = "RequestError")
  /\ (forall r, fst (callMethod env apiName methodName options w) <> Returned r).
Proof.
  intros Hp Hf Hs.
  assert (E : callMethod env apiName methodName options w =
              (Threw (Thrown_RequestError
                        (new_RequestError (status response) (text response))), w')).
  { rewrite callMethod_unfold, Hp, Hf, (settle_failure response Hs). reflexivity. }
  split.
  - exists (new_RequestError (status response) (text response)).
    repeat split; [exact E].
  - intros r. rewrite E. simpl. discriminate.
Qed.

(** C4.  Whenever [fetch] resolves to a response whose status is in
    200..299, [callMethod] returns: the body is the parsed value when the
    text is JSON, and when the text is not JSON the body is the text itself,
    unchanged; nothing is thrown. *)
Theorem callMethod_returns_json_or_text
    (w w' : World) apiName methodName options (request : Request) (response : Response) :
  prepare (this w) apiName methodName options = Returned request ->
  fetch env request w = (Returned response, w') ->
  200 <= status response <= 299 ->
  (forall v, JSON_parse (text response) = Some v ->
             callMethod env apiName methodName options w =
             (Returned (mkCallMethodResponse (Parsed v) (Response_headers response)), w'))
  /\ (JSON_parse (text response) = None ->
      callMethod env apiName methodName options w =
      (Returned (mkCallMethodResponse (Raw (text response)) (Response_headers response)), w')).
Proof.
  intros Hp Hf Hs.
  assert (E : callMethod env apiName methodName options w = (settle response, w')).
  { rewrite callMethod_unfold, Hp, Hf. reflexivity. }
  rewrite E, (settle_success response Hs).
  split; [intros v Hv|intros Hv]; rewrite Hv; reflexivity.
Qed.

End Dispatcher.

(** ** The session *)

Section Session.

Context {P : Platform} (env : Env).

Lemma login_unfold (w : World) (username password : string) :
  login env username password w =
  match callMethod env APINames.auth "login"
          (Some (postOptions [("username", username); ("password", password)])) w with
  | (Returned r, w') =>
      set_authCookie
        (JS.find (fun cookie => JS.startsWith cookie "SID=")
                 (Headers.getSetCookie (res_headers r))) w'
  | (Threw e, w') => (Threw e, w')
  end.
Proof. reflexivity. Qed.

(** A login the server answers in the success range: the handle afterwards. *)
Lemma login_accepted (w w' : World) (username password : string)
    (request : Request) (response : Response) :
  prepare (this w) APINames.auth "login"
    (Some (postOptions [("username", username); ("password", password)])) = Returned request ->
  fetch env request w = (Returned response, w') ->
  200 <= status response <= 299 ->
  login env username password w =
  (Returned tt,
   mkWorld (mkQBittorrent (url (this w'))
              (JS.find (fun cookie => JS.startsWith cookie "SID=")
                       (Headers.getSetCookie (Response_headers response))))
           (sent w')).
Proof.
  intros Hp Hf Hs.
  rewrite login_unfold, callMethod_unfold, Hp, Hf, (settle_success response Hs).
  reflexivity.
Qed.

(** A login the server answers outside the success range throws and leaves
    the handle as it was. *)
Lemma login_rejected (w w' : World) (username password : string)
    (request : Request) (response : Response) :
  prepare (this w) APINames.auth "login"
    (Some (postOptions [("username", username); ("password", password)])) = Returned request ->
  fetch env request w = (Returned response, w') ->
  ~ (200 <= status response <= 299) ->
  login env username password w =
  (Threw (Thrown_RequestError (new_RequestError (status response) (text response))), w')
  /\ this w' = this w.
Proof.
  intros Hp Hf Hs. split.
  - rewrite login_unfold, callMethod_unfold, Hp, Hf, (settle_failure response Hs).
    reflexivity.
  - pose proof (fetch_this env request w) as H. rewrite Hf in H. exact H.
Qed.

(** A cookie that starts with [SID=] is not blank. *)
Lemma session_cookie_not_blank (c : string) :
  JS.startsWith c "SID=" = true -> String.eqb (JS.trim c) "" = false.
Proof.
  intros H. apply startsWith_cons in H as [s ->].
  apply String.eqb_neq. apply strip_nonempty. reflexivity.
Qed.

(** The [Cookie] header of a prepared request, by the credential held. *)
Lemma prepare_cookie (self : QBittorrent) apiName methodName options request :
  prepare self apiName methodName options = Returned request ->
  Headers.values (req_headers request) "Cookie" =
  match authCookie self with
  | Some c => if negb (String.eqb (JS.trim c) "") then [Headers.normalize c] else []
  | None => []
  end.
Proof.
  intros H. apply prepare_inv in H as (target & base & _ & _ & _ & _ & _ & ->).
  destruct (authCookie self) as [c|]; [|reflexivity].
  destruct (negb (String.eqb (JS.trim c) "")); reflexivity.
Qed.

(** C8, as amended.  When the server answers the login request with a
    status in 200..299 and none of the [set-cookie] values of the response
    starts with [SID=], [login] returns without throwing and the credential
    is unset afterwards. *)
Theorem login_without_session_cookie (w w' : World) (username password : string)
    (request : Request) (response : Response) :
  prepare (this w) APINames.auth "login"
    (Some (postOptions [("username", username); ("password", password)])) = Returned request ->
  fetch env request w = (Returned response, w') ->
  200 <= status response <= 299 ->
  (forall c, In c (Headers.getSetCookie (Response_headers response)) ->
             JS.startsWith c "SID=" = false) ->
  fst (login env username password w) = Returned tt
  /\ authCookie (this (snd (login env username password w))) = None.
Proof.
  intros Hp Hf Hs Hc. rewrite (login_accepted w w' _ _ request response Hp Hf Hs).
  split; [reflexivity|]. simpl.
  destruct (JS.find _ _) as [c|] eqn:E; [|reflexivity].
  apply find_In in E as [Hin Hsid]. rewrite (Hc c Hin) in Hsid. discriminate.
Qed.

(** C2, as amended.  After a successful login, that is when the server
    answers the login request with a status in 200..299, and with [c] the
    first [set-cookie] value of the response that starts with [SID=]: the
    credential held after [login] is [c], the whole string as the platform
    delivers it; as long as the handle holds [c], every request
    [callMethod] prepares has exactly one [Cookie] header, and its value is
    [c] without the whitespace at its end: [c] is that value followed by
    HTTP whitespace only, and is that value when it does not end with
    whitespace; no call of [callMethod] changes the handle; with no
    credential or a blank one (empty or whitespace only), a prepared
    request has no [Cookie] header. *)
Theorem login_holds_session_cookie (w w' : World) (username password : string)
    (request : Request) (response : Response) (c : string) :
  prepare (this w) APINames.auth "login"
    (Some (postOptions [("username", username); ("password", password)])) = Returned request ->
  fetch env request w = (Returned response, w') ->
  200 <= status response <= 299 ->
  JS.find (fun cookie => JS.startsWith cookie "SID=")
          (Headers.getSetCookie (Response_headers response)) = Some c ->
  authCookie (this (snd (login env username password w))) = Some c
  /\ (forall self apiName methodName options request',
        authCookie self = Some c ->
        prepare self apiName methodName options = Returned request' ->
        Headers.values (req_headers request') "Cookie" = [Headers.normalize c])
  /\ (exists pad,
        c = (Headers.normalize c ++ pad)%string
        /\ forallb Headers.isHttpWhitespace (JS.chars pad) = true)
  /\ (forall body last,
        c = (body ++ String last "")%string -> Headers.isHttpWhitespace last = false ->
        Headers.normalize c = c)
  /\ (forall w2 apiName methodName options,
        this (snd (callMethod env apiName methodName options w2)) = this w2)
  /\ (forall self apiName methodName options request',
        authCookie self = None
        \/ (exists s, authCookie self = Some s /\ forallb JS.isWhiteSpace (JS.chars s) = true) ->
        prepare self apiName methodName options = Returned request' ->
        Headers.values (req_headers request') "Cookie" = []).
Proof.
  intros Hp Hf Hs Hc.
  pose proof (find_In _ _ _ Hc) as [_ Hsid].
  split; [|split; [|split; [|split; [|split]]]].
  - rewrite (login_accepted w w' _ _ request response Hp Hf Hs). simpl. exact Hc.
  - intros self apiName methodName options request' Ha Hq.
    rewrite (prepare_cookie self _ _ _ _ Hq), Ha, (session_cookie_not_blank c Hsid).
    reflexivity.
  - apply startsWith_cons in Hsid as [s ->]. apply normalize_padding. reflexivity.
  - intros body last E Hl. apply startsWith_cons in Hsid as [s ->].
    exact (normalize_unpadded _ last s body E eq_refl Hl).
  - intros w2 apiName methodName options. apply callMethod_this.
  - intros self apiName methodName options request' Ha Hq.
    rewrite (prepare_cookie self _ _ _ _ Hq).
    destruct Ha as [->|(s & -> & Hb)]; [reflexivity|].
    unfold JS.trim. rewrite (strip_all _ s Hb). reflexivity.
Qed.

Lemma logout_unfold (w : World) :
  logout env w =
  match callMethod env APINames.auth "logout" None w with
  | (Returned _, w') => (Returned tt, w')
  | (Threw e, w') => (Threw e, w')
  end.
Proof. reflexivity. Qed.

(** C9.  In every state, [logout] leaves the handle as it was, so the
    credential after it is the credential before it, whether the server
    accepts the call or not; and the request [callMethod] prepares for the
    action [auth/logout] is sent, once. *)
Theorem logout_keeps_credential (w : World) :
  authCookie (this (snd (logout env w))) = authCookie (this w)
  /\ this (snd (logout env w)) = this w
  /\ (forall request,
        prepare (this w) APINames.auth "logout" None = Returned request ->
        sent (snd (logout env w)) = sent w ++ [request]
        /\ req_method request = GET
        /\ req_body request = None).
Proof.
  assert (E : snd (logout env w) = snd (callMethod env APINames.auth "logout" None w)).
  { rewrite logout_unfold.
    destruct (callMethod env APINames.auth "logout" None w) as [[r|e] w']; reflexivity. }
  rewrite E. split; [|split].
  - rewrite callMethod_this. reflexivity.
  - apply callMethod_this.
  - intros request Hp.
    pose proof (prepare_inv _ _ _ _ _ Hp) as (target & base & _ & _ & _ & Hm & Hb & _).
    split; [|split; assumption].
    apply callMethod_sent; [exact Hp|]. intros _. exact Hb.
Qed.

End Session.

(** C8, as stated, fails: the answer 403 carries no cookie, and [login]
    throws the [RequestError] of the dispatcher instead of returning; a
    credential held before stays. *)
Lemma login_forbidden_throws :
  Headers.getSetCookie (Response_headers Scenario.forbidden) = []
  /\ login (P := Reference.platform) (Reference.constantEnv Scenario.forbidden)
       "admin" "adminadmin" (Reference.initialWorld Scenario.handle)
     = (Threw (Thrown_RequestError (mkRequestError "RequestError" "Forbidden" 403)),
        mkWorld Scenario.handle [Scenario.loginRequest])
  /\ authCookie
       (this (snd (login (P := Reference.platform) (Reference.constantEnv Scenario.forbidden)
                     "admin" "adminadmin" (Reference.initialWorld Scenario.loggedIn))))
     = Some Scenario.sessionCookie.
Proof. split; [reflexivity|split; reflexivity]. Qed.

(** C2, as stated, fails: when the [set-cookie] value ends with a space,
    the credential held after the login has the space, and the [Cookie]
    header of the request sent next has not: its value is not the
    credential. *)
Lemma login_padded_cookie_not_exact :
  authCookie
    (this (snd (login (P := Reference.platform) (Reference.constantEnv Scenario.padded)
                  "admin" "adminadmin" (Reference.initialWorld Scenario.handle))))
  = Some "SID=abc123; Path=/ "
  /\ exists request,
       sent (snd (getApplicationVersion (P := Reference.platform)
                    (Reference.constantEnv Scenario.padded)
                    (snd (login (P := Reference.platform)
                            (Reference.constantEnv Scenario.padded)
                            "admin" "adminadmin" (Reference.initialWorld Scenario.handle)))))
       = [Scenario.loginRequest; request]
       /\ Headers.values (req_headers request) "Cookie" = ["SID=abc123; Path=/"]
       /\ Headers.values (req_headers request) "Cookie" <> ["SID=abc123; Path=/ "].
Proof.
  split; [reflexivity|]. eexists. split; [reflexivity|].
  split; [reflexivity|discriminate].
Qed.

(** ** Form bodies *)

Section Endpoints.

Context {P : Platform} (env : Env).

(** A [post] sends the request prepared for it, with the form as its body. *)
Lemma post_sent (w : World) apiName methodName (body : URLSearchParams.t) (request : Request) :
  prepare (this w) apiName methodName (Some (postOptions body)) = Returned request ->
  sent (snd (post env apiName methodName body w)) = sent w ++ [request]
  /\ req_method request = POST
  /\ req_body request = Some (BodyURLSearchParams body).
Proof.
  intros Hp. pose proof (prepare_inv _ _ _ _ _ Hp) as (t & b & _ & _ & _ & Hm & Hb & _).
  simpl in Hm, Hb. split; [|split; assumption].
  apply callMethod_sent; [exact Hp|]. rewrite Hm. discriminate.
Qed.

Lemma pure_bind {A B} (a : A) (k : A -> M B) (w : World) :
  (x <- pure (Returned a) ;; k x) w = k a w.
Proof. reflexivity. Qed.

(** A method that discards the answer of its call sends what the call sends. *)
Lemma discard_snd {A} (c : M A) (w : World) :
  snd ((_ <- c ;; ret tt) w) = snd (c w).
Proof. simpl. destruct (c w) as [[a|e] w']; reflexivity. Qed.

(** C3, as amended.  For every list of tags given to [removeTorrentTags],
    the form field [tags] is the elements joined with a comma; the request
    the method sends carries that form. *)
Theorem removeTorrentTags_comma_joined (hashes : HashesArg) (tags : list string) :
  URLSearchParams.get (removeTorrentTags_body hashes (Some tags)) "tags"
  = Some (JS.join tags ",")
  /\ removeTorrentTags_body hashes (Some tags)
     = [("hashes", hashesField hashes); ("tags", JS.join tags ",")]
  /\ (forall w request,
        prepare (this w) APINames.torrents "removeTags"
          (Some (postOptions (removeTorrentTags_body hashes (Some tags)))) = Returned request ->
        sent (snd (removeTorrentTags env hashes (Some tags) w)) = sent w ++ [request]
        /\ req_body request
           = Some (BodyURLSearchParams
                     [("hashes", hashesField hashes); ("tags", JS.join tags ",")])).
Proof.
  split; [reflexivity|]. split; [reflexivity|].
  intros w request Hp. unfold removeTorrentTags. rewrite discard_snd.
  destruct (post_sent w _ _ _ request Hp) as (Hs & _ & Hb). split; assumption.
Qed.

(** C10.  When [options.seedingTimeLimit] is defined, the form
    [setTorrentShareLimit] builds holds its string under the name
    [ratioLimit], whatever [options.ratioLimit] is, and nothing under the
    name [seedingTimeLimit]: the form is the field [hashes] followed by
    that one field [ratioLimit], and it is the body of the request sent. *)
Theorem setTorrentShareLimit_seedingTimeLimit_as_ratioLimit
    (hashes : HashesArg) (options : SetTorrentShareLimitOptions) (t : number) :
  seedingTimeLimit options = Some t ->
  URLSearchParams.get (setTorrentShareLimit_body hashes options) "ratioLimit"
  = Some (Number_toString t)
  /\ URLSearchParams.has (setTorrentShareLimit_body hashes options) "seedingTimeLimit" = false
  /\ setTorrentShareLimit_body hashes options
     = [("hashes", hashesField hashes); ("ratioLimit", Number_toString t)]
  /\ (forall w request,
        prepare (this w) APINames.torrents "setShareLimits"
          (Some (postOptions (setTorrentShareLimit_body hashes options))) = Returned request ->
        sent (snd (setTorrentShareLimit env hashes options w)) = sent w ++ [request]
        /\ req_body request
           = Some (BodyURLSearchParams
                     [("hashes", hashesField hashes); ("ratioLimit", Number_toString t)])).
Proof.
  intros Ht.
  assert (E : setTorrentShareLimit_body hashes options
              = [("hashes", hashesField hashes); ("ratioLimit", Number_toString t)]).
  { unfold setTorrentShareLimit_body. rewrite Ht.
    destruct (ratioLimit options); reflexivity. }
  split; [rewrite E; reflexivity|]. split; [rewrite E; reflexivity|].
  split; [exact E|].
  intros w request Hp. unfold setTorrentShareLimit. rewrite discard_snd.
  destruct (post_sent w _ _ _ request Hp) as (Hs & _ & Hb). rewrite <- E.
  split; assumption.
Qed.

(** Without [seedingTimeLimit] the field [ratioLimit] holds the ratio, and
    no call writes a field [seedingTimeLimit]. *)
Lemma setTorrentShareLimit_never_seedingTimeLimit
    (hashes : HashesArg) (options : SetTorrentShareLimitOptions) :
  URLSearchParams.has (setTorrentShareLimit_body hashes options) "seedingTimeLimit" = false.
Proof.
  unfold setTorrentShareLimit_body.
  destruct (ratioLimit options), (seedingTimeLimit options); reflexivity.
Qed.

(** A method that posts a form and makes its result of the answer. *)
Lemma postsForm_post {A} apiName methodName (form : URLSearchParams.t)
    (f : CallMethodResponse -> A) :
  postsForm (r <- post env apiName methodName form ;; ret (f r)) apiName methodName form.
Proof.
  intros w endpoint He.
  assert (Hp : prepare (this w) apiName methodName (Some (postOptions form))
               = Returned (mkRequest (req_url endpoint) POST (req_headers endpoint)
                             (Some (BodyURLSearchParams form)))).
  { unfold prepare in *. simpl in *.
    destruct (new_URL _ (Some (url (this w)))) as [target|]; simpl in *; [|discriminate].
    destruct (new_URL (url (this w)) None) as [base|]; simpl in *; [|discriminate].
    destruct (Headers.append Headers.empty "Referer" (URL_origin base)) as [h|];
      simpl in *; [|discriminate].
    destruct (authCookie (this w)) as [c|]; simpl in *.
    - destruct (negb (String.eqb (JS.trim c) "")); simpl in *.
      + destruct (Headers.append h "Cookie" c); simpl in *; [|discriminate].
        injection He as <-. reflexivity.
      + injection He as <-. reflexivity.
    - injection He as <-. reflexivity. }
  destruct (post_sent w _ _ _ _ Hp) as (Hs & _ & _).
  simpl. simpl in Hs.
  destruct (post env apiName methodName form w) as [[r|e] w']; exact Hs.
Qed.

(** Such a method posts every field of the form. *)
Lemma postsField_post {A} apiName methodName (form : URLSearchParams.t)
    (f : CallMethodResponse -> A) (name value : string) :
  URLSearchParams.get form name = Some value ->
  postsField (r <- post env apiName methodName form ;; ret (f r)) apiName methodName name value.
Proof.
  intros Hg w endpoint He. eexists. exists form.
  split; [exact (postsForm_post apiName methodName form f w endpoint He)|].
  repeat split. exact Hg.
Qed.

(** C6.  The rule [Array.isArray(hashes) ? hashes.join('|') : hashes]: an
    array gives its elements in order with a pipe between neighbours
    (splitting at the pipes gives the array back; ['h1','h2'] gives
    [h1|h2]), a string is passed as it is (['all'] gives [all]).  Every
    operation with a [hashes] parameter sends, as one POST to its endpoint,
    a form whose field [hashes] holds the result of the rule (the
    pipe-joined array for the five operations that take an array only);
    [renameFile] and [renameFolder], whose parameter and form field are
    named [hash], do the same with the field [hash]. *)
Theorem hashes_pipe_joined_or_verbatim :
  (forall a, hashesField (HashArray a) = JS.join a "|")
  /\ JS.join [] "|" = ""
  /\ (forall h, JS.join [h] "|" = h)
  /\ (forall h h' a, JS.join (h :: h' :: a) "|" = (h ++ "|" ++ JS.join (h' :: a) "|")%string)
  /\ (forall a, a <> [] -> (forall h, In h a -> ~ In "|"%char (JS.chars h)) ->
                 JS.split (hashesField (HashArray a)) "|" = a)
  /\ hashesField (HashArray ["h1"; "h2"]) = "h1|h2"
  /\ (forall s, hashesField (HashString s) = s)
  /\ hashesField (HashString "all") = "all"
  /\ (forall a : list string,
        postsField (pauseTorrents env a) APINames.torrents "pause"
             "hashes" (JS.join a "|")
        /\ postsField (resumeTorrents env a) APINames.torrents "resume"
             "hashes" (JS.join a "|")
        /\ postsField (recheckTorrents env a) APINames.torrents "recheck"
             "hashes" (JS.join a "|")
        /\ postsField (reannounceTorrents env a) APINames.torrents "reannounce"
             "hashes" (JS.join a "|")
        /\ (forall peers,
              postsField (addPeers env a peers) APINames.torrents "addPeers"
                "hashes" (JS.join a "|")))
  /\ (forall hashes : HashesArg,
        (forall deleteFiles,
              postsField (deleteTorrents env hashes deleteFiles) APINames.torrents "delete"
                "hashes" (hashesField hashes))
        /\ postsField (increaseTorrentPriority env hashes) APINames.torrents "increasePrio"
             "hashes" (hashesField hashes)
        /\ postsField (decreaseTorrentPriority env hashes) APINames.torrents "decreasePrio"
             "hashes" (hashesField hashes)
        /\ postsField (maximalTorrentPriority env hashes) APINames.torrents "topPrio"
             "hashes" (hashesField hashes)
        /\ postsField (minimalTorrentPriority env hashes) APINames.torrents "bottomPrio"
             "hashes" (hashesField hashes)
        /\ postsField (getTorrentDownloadLimit env hashes) APINames.torrents "downloadLimit"
             "hashes" (hashesField hashes)
        /\ (forall limit,
              postsField (setTorrentDownloadLimit env hashes limit) APINames.torrents "setDownloadLimit"
                "hashes" (hashesField hashes))
        /\ (forall options,
              postsField (setTorrentShareLimit env hashes options) APINames.torrents "setShareLimits"
                "hashes" (hashesField hashes))
        /\ postsField (getTorrentUploadLimit env hashes) APINames.torrents "uploadLimit"
             "hashes" (hashesField hashes)
        /\ (forall limit,
              postsField (setTorrentUploadLimit env hashes limit) APINames.torrents "setUploadLimit"
                "hashes" (hashesField hashes))
        /\ (forall location,
              postsField (setTorrentLocation env hashes location) APINames.torrents "setLocation"
                "hashes" (hashesField hashes))
        /\ (forall category,
              postsField (setTorrentCategory env hashes category) APINames.torrents "setCategory"
                "hashes" (hashesField hashes))
        /\ (forall tags,
              postsField (addTorrentTags env hashes tags) APINames.torrents "addTags"
                "hashes" (hashesField hashes))
        /\ (forall tags,
              postsField (removeTorrentTags env hashes tags) APINames.torrents "removeTags"
                "hashes" (hashesField hashes))
        /\ (forall enable,
              postsField (setAutomaticTorrentManagement env hashes enable) APINames.torrents "setAutoManagement"
                "hashes" (hashesField hashes))
        /\ postsField (toggleSequentialDownload env hashes) APINames.torrents "toggleSequentialDownload"
             "hashes" (hashesField hashes)
        /\ postsField (setFirstLastPiecePriority env hashes) APINames.torrents "toggleFirstLastPiecePrio"
             "hashes" (hashesField hashes)
        /\ (forall value,
              postsField (setForceStart env hashes value) APINames.torrents "setForceStart"
                "hashes" (hashesField hashes))
        /\ (forall value,
              postsField (setSuperSeeding env hashes value) APINames.torrents "setSuperSeeding"
                "hashes" (hashesField hashes)))
  /\ (forall (hash : HashesArg) (oldPath newPath : string),
        postsField (renameFile env hash oldPath newPath) APINames.torrents "renameFile"
          "hash" (hashesField hash)
        /\ postsField (renameFolder env hash oldPath newPath) APINames.torrents "renameFolder"
             "hash" (hashesField hash)).
Proof.
  repeat match goal with
         | |- _ /\ _ => split
         | |- forall _, _ => intro
         end;
    try reflexivity;
    try (apply postsField_post; reflexivity).
  - apply (split_join "|" a); assumption.
  - apply postsField_post. unfold setTorrentShareLimit_body.
    destruct (ratioLimit options), (seedingTimeLimit options); reflexivity.
  - apply postsField_post. destruct tags; reflexivity.
Qed.

(** [renameFile] and [renameFolder] apply the same rule to their parameter
    [hash] and write it to the form field [hash]; they write no field
    [hashes]. *)
Lemma rename_hash_field (hash : HashesArg) (oldPath newPath : string) :
  URLSearchParams.get (renameFile_body hash oldPath newPath) "hash" = Some (hashesField hash)
  /\ URLSearchParams.get (renameFolder_body hash oldPath newPath) "hash"
     = Some (hashesField hash)
  /\ URLSearchParams.has (renameFile_body hash oldPath newPath) "hashes" = false
  /\ URLSearchParams.has (renameFolder_body hash oldPath newPath) "hashes" = false.
Proof. repeat split; reflexivity. Qed.

(** The tag lists of the other operations are comma-joined as well. *)
Lemma tags_comma_joined (hashes : HashesArg) (tags : list string) :
  URLSearchParams.get (addTorrentTags_body hashes tags) "tags" = Some (JS.join tags ",")
  /\ URLSearchParams.get (createTags_body tags) "tags" = Some (JS.join tags ",")
  /\ URLSearchParams.get (deleteTags_body tags) "tags" = Some (JS.join tags ",").
Proof. repeat split; reflexivity. Qed.

End Endpoints.

(** C3, as stated, fails: for the tags [movies] and [2024] the field is
    [movies,2024], not the pipe-joined [movies|2024]. *)
Lemma removeTorrentTags_not_pipe_joined :
  URLSearchParams.get
    (removeTorrentTags_body (HashArray ["h1"]) (Some ["movies"; "2024"])) "tags"
  = Some "movies,2024"
  /\ URLSearchParams.get
       (removeTorrentTags_body (HashArray ["h1"]) (Some ["movies"; "2024"])) "tags"
     <> Some (JS.join ["movies"; "2024"] "|").
Proof. split; [reflexivity|discriminate]. Qed.

(** ** Adding torrents *)

Lemma getAll_app (f g : FormData.t) (k : string) :
  FormData.getAll (f ++ g) k = FormData.getAll f k ++ FormData.getAll g k.
Proof. unfold FormData.getAll. rewrite filter_app, map_app. reflexivity. Qed.

Lemma getAll_remove (f : FormData.t) (k : string) :
  FormData.getAll (FormData.remove f k) k = [].
Proof.
  induction f as [|[n v] f IH]; simpl; [reflexivity|].
  destruct (String.eqb n k) eqn:E; [exact IH|].
  unfold FormData.getAll in *. simpl. rewrite E. exact IH.
Qed.

(** After [set] there is exactly one entry of that name. *)
Lemma getAll_set (f : FormData.t) (k : string) (v : FormData.value) :
  FormData.getAll (FormData.set f k v) k = [v].
Proof.
  induction f as [|[n w] f IH]; simpl.
  - unfold FormData.getAll. simpl. rewrite String.eqb_refl. reflexivity.
  - destruct (String.eqb n k) eqn:E.
    + unfold FormData.getAll. simpl. rewrite E. simpl. f_equal. apply getAll_remove.
    + unfold FormData.getAll in *. simpl. rewrite E. exact IH.
Qed.

(** Without an entry of that name, [set] appends. *)
Lemma set_absent (f : FormData.t) (k : string) (v : FormData.value) :
  (forall e, In e f -> fst e <> k) -> FormData.set f k v = f ++ [(k, v)].
Proof.
  induction f as [|[n w] f IH]; intros H; simpl; [reflexivity|].
  destruct (String.eqb n k) eqn:E.
  - apply String.eqb_eq in E. exfalso. exact (H (n, w) (or_introl eq_refl) E).
  - f_equal. apply IH. intros e He. apply H. right. exact He.
Qed.

Lemma getAll_uploads (uploads : list Blob) :
  FormData.getAll (map (fun b => ("torrents", FormData.File b)) uploads) "torrents"
  = map FormData.File uploads
  /\ FormData.getAll (map (fun b => ("torrents", FormData.File b)) uploads) "urls" = [].
Proof.
  unfold FormData.getAll.
  induction uploads as [|b l [IH1 IH2]]; simpl; [split; reflexivity|].
  split; [f_equal; exact IH1|exact IH2].
Qed.

Lemma includes_filter (p : string -> bool) (l : list string) (s : string) :
  In s l -> JS.includes (filter p l) s = p s.
Proof.
  intros H. unfold JS.includes. destruct (p s) eqn:E.
  - apply existsb_exists. exists s. split; [|apply String.eqb_refl].
    apply filter_In. split; assumption.
  - destruct (existsb (String.eqb s) (filter p l)) eqn:F; [|reflexivity].
    apply existsb_exists in F as [y [Hy Hs]]. apply String.eqb_eq in Hs. subst y.
    apply filter_In in Hy as [_ Hy]. congruence.
Qed.

Lemma stringsOf_In (torrents : list TorrentInput) (s : string) :
  In (TString s) torrents -> In s (stringsOf torrents).
Proof.
  intros H. unfold stringsOf. apply in_flat_map. exists (TString s). split; [exact H|].
  left. reflexivity.
Qed.

Section AddNewTorrent.

Context {P : Platform} (env : Env).

(** The links of the partition are the strings the code filters. *)
Lemma linksOf_filter (torrents : list TorrentInput) :
  linksOf torrents = filter isLink (stringsOf torrents).
Proof.
  induction torrents as [|[s|b|c|b] l IH]; simpl; try exact IH; [reflexivity|].
  destruct (isLink s); [f_equal|]; exact IH.
Qed.

(** Every element is a link or gives an upload part. *)
Lemma uploadsOf_length (torrents : list TorrentInput) (uploads : list Blob) :
  uploadsOf env torrents = Some uploads ->
  (List.length (linksOf torrents) + List.length uploads = List.length torrents)%nat.
Proof.
  revert uploads. induction torrents as [|t l IH]; intros uploads H; simpl in *.
  - injection H as <-. reflexivity.
  - destruct t as [s|b|c|b]; simpl in H.
    + destruct (isLink s); simpl.
      * f_equal. apply IH. exact H.
      * destruct (readFileSync env s); [|discriminate].
        destruct (uploadsOf env l) as [bs|]; [|discriminate].
        injection H as <-. simpl. rewrite Nat.add_succ_r. f_equal. apply IH. reflexivity.
    + destruct (uploadsOf env l) as [bs|]; [|discriminate].
      injection H as <-. simpl. rewrite Nat.add_succ_r. f_equal. apply IH. reflexivity.
    + destruct (uploadsOf env l) as [bs|]; [|discriminate].
      injection H as <-. simpl. rewrite Nat.add_succ_r. f_equal. apply IH. reflexivity.
    + destruct (uploadsOf env l) as [bs|]; [|discriminate].
      injection H as <-. simpl. rewrite Nat.add_succ_r. f_equal. apply IH. reflexivity.
Qed.

Lemma options_loop (entries : list (string * OptionValue)) (body : FormData.t) :
  fold_left (fun body e => FormData.append body (fst e) (FormData.Text (String_of (snd e))))
            entries body
  = body ++ map (fun e => (fst e, FormData.Text (String_of (snd e)))) entries.
Proof.
  revert body. induction entries as [|e l IH]; intros body; simpl.
  - rewrite app_nil_r. reflexivity.
  - rewrite IH. unfold FormData.append. rewrite <- app_assoc. reflexivity.
Qed.

(** The loop over the torrents appends the upload parts in order, as long
    as the array [urls] tells the links among the strings met. *)
Lemma torrents_loop (urls : list string) (torrents : list TorrentInput) :
  forall (body : FormData.t) (uploads : list Blob),
    (forall s, In (TString s) torrents -> JS.includes urls s = isLink s) ->
    uploadsOf env torrents = Some uploads ->
    forOf torrents body (attach env urls)
    = Returned (body ++ map (fun b => ("torrents", FormData.File b)) uploads).
Proof.
  induction torrents as [|t l IH]; intros body uploads Hu H; simpl in H.
  - injection H as <-. simpl. rewrite app_nil_r. reflexivity.
  - assert (Hl : forall s, In (TString s) l -> JS.includes urls s = isLink s).
    { intros s Hs. apply Hu. right. exact Hs. }
    destruct t as [s|b|c|b]; simpl in H.
    + pose proof (Hu s (or_introl eq_refl)) as Hs.
      simpl. unfold attach at 1. rewrite Hs.
      destruct (isLink s); simpl.
      * apply IH; assumption.
      * destruct (readFileSync env s) as [file|]; [|discriminate].
        destruct (uploadsOf env l) as [bs|] eqn:E; [|discriminate].
        injection H as <-. simpl.
        rewrite (IH _ bs Hl eq_refl). unfold FormData.append, new_Blob. simpl.
        rewrite app_nil_r, <- app_assoc. reflexivity.
    + destruct (uploadsOf env l) as [bs|] eqn:E; [|discriminate].
      injection H as <-. simpl.
      rewrite (IH _ bs Hl eq_refl). unfold FormData.append. rewrite <- app_assoc. reflexivity.
    + destruct (uploadsOf env l) as [bs|] eqn:E; [|discriminate].
      injection H as <-. simpl.
      rewrite (IH _ bs Hl eq_refl). unfold FormData.append, new_Blob.
      rewrite <- app_assoc. reflexivity.
    + destruct (uploadsOf env l) as [bs|] eqn:E; [|discriminate].
      injection H as <-. simpl.
      rewrite (IH _ bs Hl eq_refl). unfold FormData.append, new_Blob. simpl.
      rewrite app_nil_r, <- app_assoc. reflexivity.
Qed.

Lemma addNewTorrent_body_partitioned (torrents : list TorrentInput)
    (options : option AddNewTorrentOptions) (uploads : list Blob) :
  uploadsOf env torrents = Some uploads ->
  addNewTorrent_body env torrents options = Returned (partitionedBody options torrents uploads).
Proof.
  intros H. unfold addNewTorrent_body, partitionedBody, optionFields.
  rewrite options_loop. unfold FormData.empty. rewrite app_nil_l.
  rewrite (torrents_loop _ torrents _ uploads); [| |exact H].
  - rewrite linksOf_filter. reflexivity.
  - intros s Hs. apply includes_filter. apply stringsOf_In. exact Hs.
Qed.

(** C7.  For every sequence of torrents whose path strings can be read:
    the body [addNewTorrent] builds is the option fields, the one field
    [urls] holding the link strings in order, joined with line feeds, and
    then one part named [torrents] per other element, in order: the file
    read from the path, the blob itself, the bytes of the buffer, the
    chunks of the stream; each element is a link or gives one part; and
    that body is the body of the request sent. *)
Theorem addNewTorrent_partitions (torrents : list TorrentInput)
    (options : option AddNewTorrentOptions) (uploads : list Blob) :
  uploadsOf env torrents = Some uploads ->
  addNewTorrent_body env torrents options = Returned (partitionedBody options torrents uploads)
  /\ (List.length (linksOf torrents) + List.length uploads = List.length torrents)%nat
  /\ FormData.getAll (partitionedBody options torrents uploads) "urls"
     = [FormData.Text (JS.join (linksOf torrents) LF)]
  /\ ((forall e, In e (Object_entries options) -> fst e <> "urls" /\ fst e <> "torrents") ->
      partitionedBody options torrents uploads
      = optionFields options
        ++ [("urls", FormData.Text (JS.join (linksOf torrents) LF))]
        ++ map (fun b => ("torrents", FormData.File b)) uploads
      /\ FormData.getAll (partitionedBody options torrents uploads) "torrents"
         = map FormData.File uploads)
  /\ (forall w request,
        prepare (this w) APINames.torrents "add"
          (Some (mkOptions (Some POST) None
                   (Some (BodyFormData (partitionedBody options torrents uploads))) None))
        = Returned request ->
        sent (snd (addNewTorrent env torrents options w)) = sent w ++ [request]
        /\ req_method request = POST
        /\ req_body request
           = Some (BodyFormData (partitionedBody options torrents uploads))).
Proof.
  intros H. pose proof (addNewTorrent_body_partitioned torrents options uploads H) as E.
  split; [exact E|]. split; [exact (uploadsOf_length torrents uploads H)|].
  split; [|split].
  - unfold partitionedBody. rewrite getAll_app, getAll_set.
    rewrite (proj2 (getAll_uploads uploads)). reflexivity.
  - intros Hk.
    assert (Hu : forall e, In e (optionFields options) -> fst e <> "urls").
    { intros e He. unfold optionFields in He. apply in_map_iff in He as [x [<- Hx]].
      simpl. exact (proj1 (Hk x Hx)). }
    assert (Ht : FormData.getAll (optionFields options) "torrents" = []).
    { unfold FormData.getAll, optionFields.
      induction (Object_entries options) as [|x l IH]; simpl; [reflexivity|].
      destruct (String.eqb (fst x) "torrents") eqn:F.
      - apply String.eqb_eq in F. exfalso. exact (proj2 (Hk x (or_introl eq_refl)) F).
      - apply IH. intros e He. apply Hk. right. exact He. }
    unfold partitionedBody. rewrite (set_absent _ _ _ Hu), <- app_assoc. split; [reflexivity|].
    rewrite !getAll_app, Ht, (proj1 (getAll_uploads uploads)). reflexivity.
  - intros w request Hp.
    pose proof (prepare_inv _ _ _ _ _ Hp) as (t & b & _ & _ & _ & Hm & Hb & _).
    simpl in Hm, Hb. split; [|split; assumption].
    unfold addNewTorrent. rewrite E, pure_bind.
    rewrite discard_snd. apply callMethod_sent; [exact Hp|]. rewrite Hm. discriminate.
Qed.

(** When a path cannot be read, [addNewTorrent] throws and sends nothing. *)
Lemma addNewTorrent_unreadable (torrents : list TorrentInput)
    (options : option AddNewTorrentOptions) (w : World) :
  uploadsOf env torrents = None ->
  exists path, addNewTorrent env torrents options w = (Threw (Thrown_fs path), w).
Proof.
  intros H.
  assert (G : forall urls l body,
             (forall s, In (TString s) l -> JS.includes urls s = isLink s) ->
             uploadsOf env l = None ->
             exists path, forOf l body (attach env urls) = Threw (Thrown_fs path)).
  { intros urls l. induction l as [|t l IH]; intros body Hu Hn; simpl in Hn; [discriminate|].
    assert (Hl : forall s, In (TString s) l -> JS.includes urls s = isLink s).
    { intros s Hs. apply Hu. right. exact Hs. }
    destruct t as [s|b|c|b]; simpl in Hn; simpl.
    - unfold attach at 1. rewrite (Hu s (or_introl eq_refl)).
      destruct (isLink s); simpl; [apply IH; assumption|].
      destruct (readFileSync env s) as [file|]; simpl; [|eauto].
      destruct (uploadsOf env l); [discriminate|]. apply IH; [assumption|reflexivity].
    - destruct (uploadsOf env l); [discriminate|]. apply IH; [assumption|reflexivity].
    - destruct (uploadsOf env l); [discriminate|]. apply IH; [assumption|reflexivity].
    - destruct (uploadsOf env l); [discriminate|]. apply IH; [assumption|reflexivity]. }
  unfold addNewTorrent, addNewTorrent_body.
  destruct (G (filter isLink (stringsOf torrents)) torrents
              (FormData.set
                 (fold_left
                    (fun body e =>
                       FormData.append body (fst e) (FormData.Text (String_of (snd e))))
                    (Object_entries options) FormData.empty)
                 "urls" (FormData.Text (JS.join (filter isLink (stringsOf torrents)) LF))))
    as [path Hpath].
  - intros s Hs. apply includes_filter, stringsOf_In, Hs.
  - exact H.
  - exists path. simpl. unfold pure. rewrite Hpath. reflexivity.
Qed.

End AddNewTorrent.

(** ** The reference parser is total *)

Lemma dropWhile_length {A} (p : A -> bool) (l : list A) :
  (List.length (JS.dropWhile p l) <= List.length l)%nat.
Proof. induction l as [|x l IH]; simpl; [lia|]. destruct (p x); simpl; lia. Qed.

Lemma skipWhitespace_length (l : list ascii) :
  (List.length (Reference.skipWhitespace l) <= List.length l)%nat.
Proof. apply dropWhile_length. Qed.

Lemma scanString_shrinks (n : nat) :
  forall l acc, (List.length l <= n)%nat ->
    match Reference.scanString l acc with
    | Reference.Value _ r => (List.length r < List.length l)%nat
    | Reference.SyntaxError => True
    | Reference.OutOfFuel => False
    end.
Proof.
  induction n as [|n IH]; intros l acc Hn.
  - destruct l; [exact I|simpl in Hn; lia].
  - destruct l as [|c r]; [exact I|]. simpl in Hn. simpl.
    destruct (Ascii.eqb c Reference.quote); [simpl; lia|].
    destruct (Ascii.eqb c "\").
    + destruct r as [|e r']; [exact I|].
      destruct (Reference.isSimpleEscape e).
      * specialize (IH r' (e :: c :: acc)). simpl in Hn.
        destruct (Reference.scanString r' (e :: c :: acc)); simpl in *; try exact I; lia.
      * destruct (Ascii.eqb e "u"); [|exact I].
        destruct r' as [|h1 [|h2 [|h3 [|h4 r'']]]]; try exact I.
        destruct (Reference.isHex h1 && Reference.isHex h2 && Reference.isHex h3
                  && Reference.isHex h4); [|exact I].
        specialize (IH r'' (h4 :: h3 :: h2 :: h1 :: e :: c :: acc)). simpl in Hn.
        destruct (Reference.scanString r'' _); simpl in *; try exact I; lia.
    + destruct (JS.code c <? 32)%N; [exact I|].
      specialize (IH r (c :: acc)).
      destruct (Reference.scanString r (c :: acc)); simpl in *; try exact I; lia.
Qed.

Lemma spanDigits_app (l : list ascii) :
  l = fst (Reference.spanDigits l) ++ snd (Reference.spanDigits l).
Proof.
  induction l as [|c l IH]; [reflexivity|]. simpl.
  destruct (Reference.isDigit c); [|reflexivity].
  destruct (Reference.spanDigits l) as [d r]. simpl in *. f_equal. exact IH.
Qed.

Lemma spanDigits_length (l d r : list ascii) :
  Reference.spanDigits l = (d, r) -> List.length l = (List.length d + List.length r)%nat.
Proof.
  intros H. rewrite (spanDigits_app l) at 1. rewrite H. simpl. apply length_app.
Qed.

Lemma scanNumber_shrinks (l : list ascii) :
  match Reference.scanNumber l with
  | Reference.Value _ r => (List.length r < List.length l)%nat
  | Reference.SyntaxError => True
  | Reference.OutOfFuel => False
  end.
Proof.
  unfold Reference.scanNumber.
  set (m := match l with
            | c :: r => if Ascii.eqb c "-" then ([c], r) else ([], l)
            | [] => ([], l)
            end).
  assert (Hm : (List.length (snd m) <= List.length l)%nat).
  { subst m. destruct l as [|c r]; simpl; [lia|]. destruct (Ascii.eqb c "-"); simpl; lia. }
  destruct m as [minus l1]. simpl in Hm.
  unfold Reference.scanInteger.
  destruct (Reference.spanDigits l1) as [[|c d] r] eqn:E1; [exact I|].
  apply spanDigits_length in E1. simpl in E1.
  assert (G : forall i l2, (List.length l2 < List.length l1)%nat ->
            match
              match Reference.scanFraction l2 with
              | Reference.Value f l3 =>
                  match Reference.scanExponent l3 with
                  | Reference.Value e l4 =>
                      Reference.Value (JS.of_chars (minus ++ i ++ f ++ e)) l4
                  | Reference.SyntaxError => Reference.SyntaxError
                  | Reference.OutOfFuel => Reference.OutOfFuel
                  end
              | Reference.SyntaxError => Reference.SyntaxError
              | Reference.OutOfFuel => Reference.OutOfFuel
              end
            with
            | Reference.Value _ r0 => (List.length r0 < List.length l)%nat
            | Reference.SyntaxError => True
            | Reference.OutOfFuel => False
            end).
  { intros i l2 H2.
    assert (F : match Reference.scanFraction l2 with
                | Reference.Value _ l3 => (List.length l3 <= List.length l2)%nat
                | Reference.SyntaxError => True
                | Reference.OutOfFuel => False
                end).
    { unfold Reference.scanFraction. destruct l2 as [|x r2]; [simpl; lia|].
      destruct (Ascii.eqb x "."); [|simpl; lia].
      destruct (Reference.spanDigits r2) as [[|y dd] rr] eqn:E2; [exact I|].
      apply spanDigits_length in E2. simpl in *. lia. }
    destruct (Reference.scanFraction l2) as [f l3| |]; [|exact I|exact F].
    assert (X : match Reference.scanExponent l3 with
                | Reference.Value _ l4 => (List.length l4 <= List.length l3)%nat
                | Reference.SyntaxError => True
                | Reference.OutOfFuel => False
                end).
    { unfold Reference.scanExponent. destruct l3 as [|x r3]; [simpl; lia|].
      destruct (Ascii.eqb x "e" || Ascii.eqb x "E"); [|simpl; lia].
      set (sg := match r3 with
                 | s :: r' => if Ascii.eqb s "+" || Ascii.eqb s "-" then ([s], r') else ([], r3)
                 | [] => ([], r3)
                 end).
      assert (Hs : (List.length (snd sg) <= List.length r3)%nat).
      { subst sg. destruct r3 as [|s r']; simpl; [lia|].
        destruct (Ascii.eqb s "+" || Ascii.eqb s "-"); simpl; lia. }
      destruct sg as [sign r1]. simpl in Hs.
      destruct (Reference.spanDigits r1) as [[|y dd] rr] eqn:E3; [exact I|].
      apply spanDigits_length in E3. simpl in *. lia. }
    destruct (Reference.scanExponent l3) as [e l4| |]; [|exact I|exact X].
    lia. }
  destruct (Ascii.eqb c "0"); apply G; rewrite ?length_app; lia.
Qed.

Lemma literal_shrinks (word : string) (v : Reference.json) (c : ascii) (r : list ascii) :
  (0 < String.length word)%nat ->
  match Reference.literal word v (c :: r) with
  | Reference.Value _ r' => (List.length r' < List.length (c :: r))%nat
  | Reference.SyntaxError => True
  | Reference.OutOfFuel => False
  end.
Proof.
  intros H. unfold Reference.literal.
  destruct (String.prefix word (JS.of_chars (c :: r))); [|exact I].
  destruct (String.length word) as [|n]; [lia|]. simpl.
  pose proof (length_skipn n r). lia.
Qed.

Section ReferenceParser.

Import Reference.

Ltac shrink_ws :=
  repeat match goal with
         | H : skipWhitespace ?l = _ |- _ =>
             let L := fresh "L" in
             pose proof (skipWhitespace_length l) as L; rewrite H in L; simpl in L; clear H
         end.

(** Enough fuel: a value leaves a shorter rest, and the parser runs out of
    fuel only when given less than twice the length of its input. *)
Lemma parse_fuel (f : nat) :
  (forall l, match parseValue f l with
             | Value _ r => (List.length r < List.length l)%nat
             | SyntaxError => True
             | OutOfFuel => (f < 2 * List.length l + 2)%nat
             end)
  /\ (forall l acc, match parseElements f l acc with
                    | Value _ r => (List.length r < List.length l)%nat
                    | SyntaxError => True
                    | OutOfFuel => (f < 2 * List.length l + 3)%nat
                    end)
  /\ (forall l acc, match parseMembers f l acc with
                    | Value _ r => (List.length r < List.length l)%nat
                    | SyntaxError => True
                    | OutOfFuel => (f < 2 * List.length l + 3)%nat
                    end).
Proof.
  induction f as [|f (IHv & IHe & IHm)].
  - repeat split; intros; simpl; lia.
  - split; [|split].
    + intros l. simpl.
      destruct (skipWhitespace l) as [|c r] eqn:W; [exact I|].
      destruct (Ascii.eqb c "{").
      { destruct (skipWhitespace r) as [|d r'] eqn:W'; [exact I|]. shrink_ws.
        destruct (Ascii.eqb d "}"); [simpl in *; lia|].
        specialize (IHm (d :: r') []).
        destruct (parseMembers f (d :: r') []); simpl in *; try exact I; lia. }
      destruct (Ascii.eqb c "[").
      { destruct (skipWhitespace r) as [|d r'] eqn:W'; [exact I|]. shrink_ws.
        destruct (Ascii.eqb d "]"); [simpl in *; lia|].
        specialize (IHe (d :: r') []).
        destruct (parseElements f (d :: r') []); simpl in *; try exact I; lia. }
      destruct (Ascii.eqb c quote).
      { shrink_ws. pose proof (scanString_shrinks (List.length r) r [] (le_n _)) as S.
        destruct (scanString r []); simpl in *; try exact I; try lia. }
      destruct (Ascii.eqb c "t").
      { shrink_ws. pose proof (literal_shrinks "true" (JBoolean true) c r) as S.
        destruct (literal "true" (JBoolean true) (c :: r)); simpl in *;
          try exact I; try (specialize (S ltac:(lia)); lia). }
      destruct (Ascii.eqb c "f").
      { shrink_ws. pose proof (literal_shrinks "false" (JBoolean false) c r) as S.
        destruct (literal "false" (JBoolean false) (c :: r)); simpl in *;
          try exact I; try (specialize (S ltac:(lia)); lia). }
      destruct (Ascii.eqb c "n").
      { shrink_ws. pose proof (literal_shrinks "null" JNull c r) as S.
        destruct (literal "null" JNull (c :: r)); simpl in *;
          try exact I; try (specialize (S ltac:(lia)); lia). }
      shrink_ws. pose proof (scanNumber_shrinks (c :: r)) as S.
      destruct (scanNumber (c :: r)); simpl in *; try exact I; try lia.
    + intros l acc. simpl. specialize (IHv l).
      destruct (parseValue f l) as [v r| |]; [|exact I|lia].
      destruct (skipWhitespace r) as [|c r'] eqn:W; [exact I|]. shrink_ws.
      destruct (Ascii.eqb c ",").
      { specialize (IHe r' (v :: acc)).
        destruct (parseElements f r' (v :: acc)); simpl in *; try exact I; lia. }
      destruct (Ascii.eqb c "]"); [simpl in *; lia|exact I].
    + intros l acc. simpl.
      destruct (skipWhitespace l) as [|q r0] eqn:W; [exact I|]. shrink_ws.
      destruct (Ascii.eqb q quote); [|exact I].
      pose proof (scanString_shrinks (List.length r0) r0 [] (le_n _)) as S.
      destruct (scanString r0 []) as [k r1| |]; [|exact I|contradiction].
      destruct (skipWhitespace r1) as [|c r2] eqn:W1; [exact I|]. shrink_ws.
      destruct (Ascii.eqb c ":"); [|exact I].
      specialize (IHv r2).
      destruct (parseValue f r2) as [v r3| |]; [|exact I|simpl in *; lia].
      destruct (skipWhitespace r3) as [|d r4] eqn:W3; [exact I|]. shrink_ws.
      destruct (Ascii.eqb d ",").
      { specialize (IHm r4 ((k, v) :: acc)).
        destruct (parseMembers f r4 ((k, v) :: acc)); simpl in *; try exact I; lia. }
      destruct (Ascii.eqb d "}"); [simpl in *; lia|exact I].
Qed.

(** So [None] from [Reference.parse] is always a syntax error. *)
Lemma parseText_total (text : string) : parseText text <> OutOfFuel.
Proof.
  unfold parseText.
  pose proof (proj1 (parse_fuel (2 * List.length (JS.chars text) + 2)) (JS.chars text)) as H.
  destruct (parseValue _ (JS.chars text)) as [v r| |]; [|discriminate|lia].
  destruct (skipWhitespace r); discriminate.
Qed.

End ReferenceParser.

(** ** The constructor and the version request *)

(** The reference parser refuses the version string for its syntax and
    accepts an array of numbers. *)
Lemma parse_version_string :
  Reference.parseText "4.6.5" = Reference.SyntaxError
  /\ Reference.parse "4.6.5" = None
  /\ Reference.parse "[0, 1, 2, 2]"
     = Some (Reference.JArray [Reference.JNumber "0"; Reference.JNumber "1";
                               Reference.JNumber "2"; Reference.JNumber "2"]).
Proof. split; [reflexivity|split; reflexivity]. Qed.

Lemma dropLastSlash_added (l : list ascii) : JS.dropLastSlash (l ++ ["/"%char]) = l.
Proof.
  induction l as [|c l IH]; [reflexivity|].
  change ((c :: l) ++ ["/"%char]) with (c :: (l ++ ["/"%char])).
  destruct (l ++ ["/"%char]) as [|d r] eqn:E.
  - destruct l; discriminate.
  - simpl. simpl in IH. rewrite IH. reflexivity.
Qed.

(** One trailing slash of the configured URL is dropped. *)
Lemma replaceTrailingSlash_added (root : string) :
  JS.replaceTrailingSlash (root ++ "/")%string = root.
Proof.
  unfold JS.replaceTrailingSlash. rewrite chars_append.
  change (JS.chars "/") with ["/"%char]. rewrite dropLastSlash_added.
  apply of_chars_chars.
Qed.

(** On every platform, a root without a trailing slash and the same root
    with one give the same handle. *)
Lemma new_QBittorrent_trailing_slash {P : Platform} (root : string) :
  JS.replaceTrailingSlash root = root ->
  new_QBittorrent (Some (root ++ "/")%string) = new_QBittorrent (Some root).
Proof.
  intros H. unfold new_QBittorrent. rewrite replaceTrailingSlash_added, H. reflexivity.
Qed.

#[local] Existing Instance Reference.platform.

(** C5.  On the reference platform, the client constructed with
    [http://localhost:8080/], and as well with [http://localhost:8080],
    holds the base [http://localhost:8080/api/v2/]; [getApplicationVersion]
    on it sends, whatever the server answers, exactly one request: a GET to
    [http://localhost:8080/api/v2/app/version], a URL with no query string
    and no doubled slash after the scheme, with no body. *)
Theorem getApplicationVersion_request (env : Env) (log : list Request) :
  new_QBittorrent (P := Reference.platform) (Some "http://localhost:8080/")
  = Returned (mkQBittorrent "http://localhost:8080/api/v2/" None)
  /\ new_QBittorrent (P := Reference.platform) (Some "http://localhost:8080")
     = Returned (mkQBittorrent "http://localhost:8080/api/v2/" None)
  /\ sent (snd (getApplicationVersion (P := Reference.platform) env
                  (mkWorld (mkQBittorrent "http://localhost:8080/api/v2/" None) log)))
     = log ++ [mkRequest "http://localhost:8080/api/v2/app/version" GET
                 [("Referer", "http://localhost:8080")] None].
Proof.
  split; [reflexivity|]. split; [reflexivity|].
  unfold getApplicationVersion.
  assert (E : forall (c : M CallMethodResponse) w,
             snd ((r <- c ;; ret (res_body r)) w) = snd (c w)).
  { intros c w. simpl. destruct (c w) as [[r|e] w']; reflexivity. }
  rewrite E. apply callMethod_sent; [reflexivity|]. reflexivity.
Qed.

(** ** The theorems at the sample data *)

(** A failure with an empty text: the error carries 503 and the empty
    message. *)
Lemma callMethod_throws_RequestError_witness :
  (exists e : RequestError,
      callMethod (Reference.constantEnv Scenario.unavailable) APINames.app "version" None
        (Reference.initialWorld Scenario.handle)
      = (Threw (Thrown_RequestError e), mkWorld Scenario.handle [Scenario.versionRequest])
      /\ code e = 503 /\ message e = "" /\ name e = "RequestError")
  /\ (forall r,
        fst (callMethod (Reference.constantEnv Scenario.unavailable) APINames.app "version"
               None (Reference.initialWorld Scenario.handle)) <> Returned r).
Proof.
  apply (callMethod_throws_RequestError (Reference.constantEnv Scenario.unavailable)
           (Reference.initialWorld Scenario.handle)
           (mkWorld Scenario.handle [Scenario.versionRequest])
           APINames.app "version" None Scenario.versionRequest Scenario.unavailable).
  - reflexivity.
  - reflexivity.
  - simpl. lia.
Defined.

(** The version string is not JSON and comes back as it is. *)
Lemma callMethod_returns_json_or_text_witness :
  callMethod (Reference.constantEnv Scenario.version) APINames.app "version" None
    (Reference.initialWorld Scenario.handle)
  = (Returned (mkCallMethodResponse (Raw "4.6.5") []),
     mkWorld Scenario.handle [Scenario.versionRequest]).
Proof.
  apply (callMethod_returns_json_or_text (Reference.constantEnv Scenario.version)
           (Reference.initialWorld Scenario.handle)
           (mkWorld Scenario.handle [Scenario.versionRequest])
           APINames.app "version" None Scenario.versionRequest Scenario.version).
  - reflexivity.
  - reflexivity.
  - simpl. lia.
  - reflexivity.
Defined.

(** An accepted login stores the cookie with its attributes; it has no
    whitespace at its end and goes out as it is. *)
Lemma login_holds_session_cookie_witness :
  authCookie (this (snd (login Scenario.env "admin" "adminadmin"
                           (Reference.initialWorld Scenario.handle))))
  = Some "SID=abc123; Path=/"
  /\ (forall self apiName methodName options request',
        authCookie self = Some "SID=abc123; Path=/" ->
        prepare self apiName methodName options = Returned request' ->
        Headers.values (req_headers request') "Cookie" = ["SID=abc123; Path=/"])
  /\ Headers.normalize "SID=abc123; Path=/" = "SID=abc123; Path=/"
  /\ (forall w2 apiName methodName options,
        this (snd (callMethod Scenario.env apiName methodName options w2)) = this w2)
  /\ (forall self apiName methodName options request',
        authCookie self = None
        \/ (exists s, authCookie self = Some s /\ forallb JS.isWhiteSpace (JS.chars s) = true) ->
        prepare self apiName methodName options = Returned request' ->
        Headers.values (req_headers request') "Cookie" = []).
Proof.
  pose proof (login_holds_session_cookie Scenario.env
                (Reference.initialWorld Scenario.handle)
                (mkWorld Scenario.handle [Scenario.loginRequest])
                "admin" "adminadmin" Scenario.loginRequest Scenario.accepted
                Scenario.sessionCookie) as H.
  repeat match type of H with
         | ?A -> _ =>
             let a := fresh in
             assert (a : A); [first [reflexivity|simpl; lia]|specialize (H a); clear a]
         end.
  destruct H as (H1 & H2 & _ & H4 & H5 & H6).
  split; [exact H1|]. split; [exact H2|].
  split; [exact (H4 "SID=abc123; Path=" "/"%char eq_refl eq_refl)|].
  split; [exact H5|exact H6].
Defined.

(** A refused login, answered with 200 and no cookie, returns and leaves
    the credential unset. *)
Lemma login_without_session_cookie_witness :
  fst (login (Reference.constantEnv Scenario.refused) "admin" "wrong"
         (Reference.initialWorld Scenario.handle)) = Returned tt
  /\ authCookie (this (snd (login (Reference.constantEnv Scenario.refused) "admin" "wrong"
                              (Reference.initialWorld Scenario.handle)))) = None.
Proof.
  apply (login_without_session_cookie (Reference.constantEnv Scenario.refused)
           (Reference.initialWorld Scenario.handle)
           (mkWorld Scenario.handle
              [mkRequest "http://localhost:8080/api/v2/auth/login" POST
                 [("Referer", "http://localhost:8080")]
                 (Some (BodyURLSearchParams [("username", "admin"); ("password", "wrong")]))])
           "admin" "wrong"
           (mkRequest "http://localhost:8080/api/v2/auth/login" POST
              [("Referer", "http://localhost:8080")]
              (Some (BodyURLSearchParams [("username", "admin"); ("password", "wrong")])))
           Scenario.refused).
  - reflexivity.
  - reflexivity.
  - simpl. lia.
  - intros c H. vm_compute in H. destruct H.
Defined.

(** A logout with a credential: the cookie stays and the request goes out
    with it. *)
Lemma logout_keeps_credential_witness :
  authCookie (this (snd (logout Scenario.env (Reference.initialWorld Scenario.loggedIn))))
  = Some "SID=abc123; Path=/"
  /\ sent (snd (logout Scenario.env (Reference.initialWorld Scenario.loggedIn)))
     = [Scenario.logoutRequest].
Proof.
  destruct (logout_keeps_credential Scenario.env (Reference.initialWorld Scenario.loggedIn))
    as (Hc & _ & Hs).
  split.
  - exact Hc.
  - exact (proj1 (Hs Scenario.logoutRequest eq_refl)).
Defined.

(** Two hashes: joined with a pipe, split back into the two, and posted by
    [deleteTorrents] as [h1|h2]. *)
Lemma hashes_pipe_joined_or_verbatim_witness :
  JS.split (hashesField (HashArray ["h1"; "h2"])) "|" = ["h1"; "h2"]
  /\ exists request form,
       sent (snd (deleteTorrents Scenario.env (HashArray ["h1"; "h2"]) None
                    (Reference.initialWorld Scenario.handle)))
       = [] ++ [request]
       /\ req_url request = "http://localhost:8080/api/v2/torrents/delete"
       /\ req_method request = POST
       /\ req_headers request = [("Referer", "http://localhost:8080")]
       /\ req_body request = Some (BodyURLSearchParams form)
       /\ URLSearchParams.get form "hashes" = Some "h1|h2".
Proof.
  destruct (hashes_pipe_joined_or_verbatim (P := Reference.platform) Scenario.env)
    as (_ & _ & _ & _ & H & _ & _ & _ & _ & D & _).
  split.
  - apply (H ["h1"; "h2"]).
    + discriminate.
    + intros h [<-|[<-|[]]] [E|[E|[]]]; discriminate E.
  - apply (proj1 (D (HashArray ["h1"; "h2"])) None (Reference.initialWorld Scenario.handle)
             (mkRequest "http://localhost:8080/api/v2/torrents/delete" GET
                [("Referer", "http://localhost:8080")] None)).
    reflexivity.
Defined.

(** The tags of a removal, comma-joined, in the request sent. *)
Lemma removeTorrentTags_comma_joined_witness :
  sent (snd (removeTorrentTags Scenario.env (HashString "all") (Some ["movies"; "2024"])
               (Reference.initialWorld Scenario.handle)))
  = [mkRequest "http://localhost:8080/api/v2/torrents/removeTags" POST
       [("Referer", "http://localhost:8080")]
       (Some (BodyURLSearchParams [("hashes", "all"); ("tags", "movies,2024")]))].
Proof.
  destruct (removeTorrentTags_comma_joined Scenario.env (HashString "all") ["movies"; "2024"])
    as (_ & _ & H).
  exact (proj1 (H (Reference.initialWorld Scenario.handle)
                  (mkRequest "http://localhost:8080/api/v2/torrents/removeTags" POST
                     [("Referer", "http://localhost:8080")]
                     (Some (BodyURLSearchParams [("hashes", "all"); ("tags", "movies,2024")])))
                  eq_refl)).
Defined.

(** Both limits given: the seeding time, 1440, is what [ratioLimit] holds. *)
Lemma setTorrentShareLimit_seedingTimeLimit_as_ratioLimit_witness :
  setTorrentShareLimit_body (HashArray ["h1"; "h2"]) Scenario.shareLimits
  = [("hashes", "h1|h2"); ("ratioLimit", "1440")].
Proof.
  exact (proj1 (proj2 (proj2
    (setTorrentShareLimit_seedingTimeLimit_as_ratioLimit Scenario.env
       (HashArray ["h1"; "h2"]) Scenario.shareLimits Scenario.minutes eq_refl)))).
Defined.

(** The sample torrents: two links in [urls], four parts. *)
Lemma addNewTorrent_partitions_witness :
  addNewTorrent_body Scenario.env Scenario.torrents Scenario.options
  = Returned
      [("category", FormData.Text "linux");
       ("upLimit", FormData.Text "1024");
       ("autoTMM", FormData.Text "false");
       ("urls", FormData.Text
                  ("magnet:?xt=urn:btih:c12fe1c06bba254a9dc9f519b335aa7c1367a88a"
                   ++ LF ++ "https://example.org/ubuntu.torrent")%string);
       ("torrents", FormData.File (mkBlob Scenario.torrentFile bittorrent));
       ("torrents", FormData.File (mkBlob [x64; x65] bittorrent));
       ("torrents", FormData.File (mkBlob [x64; x34; x3a] bittorrent));
       ("torrents", FormData.File (mkBlob [x64; x65] "application/octet-stream"))].
Proof.
  exact (proj1 (addNewTorrent_partitions Scenario.env Scenario.torrents Scenario.options
                  Scenario.uploads eq_refl)).
Defined.

(** * Further properties *)

(** ** Outcomes of the dispatcher *)

Section DispatcherOutcomes.

Context {P : Platform} (env : Env).

(** Preparing a request throws nothing but a TypeError. *)
Lemma prepare_threw (self : QBittorrent) apiName methodName options (e : Thrown) :
  prepare self apiName methodName options = Threw e -> e = Thrown_TypeError.
Proof.
  unfold prepare. simpl.
  destruct (new_URL _ (Some (url self))) as [target|]; simpl; [|congruence].
  destruct (new_URL (url self) None) as [base|]; simpl; [|congruence].
  destruct (Headers.append Headers.empty "Referer" (URL_origin base)) as [h|];
    simpl; [|congruence].
  destruct (authCookie self) as [c|]; simpl; [|discriminate].
  destruct (negb (String.eqb (JS.trim c) "")); simpl; [|discriminate].
  destruct (Headers.append h "Cookie" c); simpl; [discriminate|congruence].
Qed.

Lemma fetch_inv (request : Request) (w : World) :
  (req_method request = GET /\ req_body request <> None
   /\ fetch env request w = (Threw Thrown_TypeError, w))
  \/ ((req_method request = GET -> req_body request = None)
      /\ fetch env request w =
         (match remote env (sent w) request with
          | Responds r => Returned r
          | Fails reason => Threw (Thrown_network reason)
          end, mkWorld (this w) (sent w ++ [request]))).
Proof.
  unfold fetch. destruct (req_method request), (req_body request) as [b|].
  - left. repeat split. discriminate.
  - right. split; [reflexivity|]. destruct (remote env (sent w) request); reflexivity.
  - right. split; [discriminate|]. destruct (remote env (sent w) request); reflexivity.
  - right. split; [discriminate|]. destruct (remote env (sent w) request); reflexivity.
Qed.

(** X1.  When [callMethod] returns a value, it has sent exactly one request,
    the one it prepared; the server has answered it with a status in
    200..299; the handle is as before; the headers returned are those of
    the response and the body is its text, parsed when it is JSON. *)
Theorem callMethod_returned_inv (w w' : World) apiName methodName options
    (r : CallMethodResponse) :
  callMethod env apiName methodName options w = (Returned r, w') ->
  exists request response,
    prepare (this w) apiName methodName options = Returned request
    /\ remote env (sent w) request = Responds response
    /\ 200 <= status response <= 299
    /\ w' = mkWorld (this w) (sent w ++ [request])
    /\ res_headers r = Response_headers response
    /\ res_body r = match JSON_parse (text response) with
                    | Some v => Parsed v
                    | None => Raw (text response)
                    end.
Proof.
  rewrite callMethod_unfold.
  destruct (prepare (this w) apiName methodName options) as [request|e] eqn:Hp;
    [|discriminate].
  destruct (fetch_inv request w) as [(_ & _ & E)|(_ & E)]; rewrite E; [discriminate|].
  destruct (remote env (sent w) request) as [response|reason] eqn:Hr; [|discriminate].
  intros H. exists request, response. split; [reflexivity|]. split; [exact Hr|].
  destruct (Z_le_dec 200 (status response)) as [H1|H1];
    [destruct (Z_le_dec (status response) 299) as [H2|H2]|].
  - rewrite (settle_success response (conj H1 H2)) in H.
    injection H as <- <-. repeat split; assumption.
  - rewrite settle_failure in H; [discriminate|lia].
  - rewrite settle_failure in H; [discriminate|lia].
Qed.

(** X2.  When [callMethod] throws, the handle is as before and one of three
    things happened: a TypeError before anything was sent; a failure of the
    transfer after the request was sent, thrown as it is; or an answer with
    a status outside 200..299, thrown as the [RequestError] of that status
    and text.  A [RequestError] is thrown in no other case. *)
Theorem callMethod_threw_inv (w w' : World) apiName methodName options (e : Thrown) :
  callMethod env apiName methodName options w = (Threw e, w') ->
  this w' = this w
  /\ ((e = Thrown_TypeError /\ sent w' = sent w)
      \/ (exists request reason,
             prepare (this w) apiName methodName options = Returned request
             /\ remote env (sent w) request = Fails reason
             /\ e = Thrown_network reason
             /\ sent w' = sent w ++ [request])
      \/ (exists request response,
             prepare (this w) apiName methodName options = Returned request
             /\ remote env (sent w) request = Responds response
             /\ ~ (200 <= status response <= 299)
             /\ e = Thrown_RequestError (new_RequestError (status response) (text response))
             /\ sent w' = sent w ++ [request])).
Proof.
  rewrite callMethod_unfold.
  destruct (prepare (this w) apiName methodName options) as [request|e0] eqn:Hp.
  - destruct (fetch_inv request w) as [(_ & _ & E)|(_ & E)]; rewrite E.
    + intros H. injection H as <- <-. split; [reflexivity|]. left. split; reflexivity.
    + destruct (remote env (sent w) request) as [response|reason] eqn:Hr.
      * intros H.
        destruct (Z_le_dec 200 (status response)) as [H1|H1];
          [destruct (Z_le_dec (status response) 299) as [H2|H2]|].
        -- rewrite (settle_success response (conj H1 H2)) in H. discriminate.
        -- rewrite settle_failure in H by lia. injection H as <- <-.
           split; [reflexivity|]. right. right. exists request, response.
           split; [reflexivity|]. split; [exact Hr|]. split; [lia|].
           split; reflexivity.
        -- rewrite settle_failure in H by lia. injection H as <- <-.
           split; [reflexivity|]. right. right. exists request, response.
           split; [reflexivity|]. split; [exact Hr|]. split; [lia|].
           split; reflexivity.
      * intros H. injection H as <- <-. split; [reflexivity|]. right. left.
        exists request, reason. split; [reflexivity|]. split; [exact Hr|].
        split; reflexivity.
  - intros H. injection H as <- <-. split; [reflexivity|]. left.
    split; [exact (prepare_threw _ _ _ _ _ Hp)|reflexivity].
Qed.

(** X3.  A failure of the transfer is thrown as it is, after the request
    went out: it is not turned into a [RequestError], and the handle stays. *)
Theorem callMethod_network_failure (w : World) apiName methodName options
    (request : Request) (reason : string) :
  prepare (this w) apiName methodName options = Returned request ->
  (req_method request = GET -> req_body request = None) ->
  remote env (sent w) request = Fails reason ->
  callMethod env apiName methodName options w
  = (Threw (Thrown_network reason), mkWorld (this w) (sent w ++ [request])).
Proof.
  intros Hp Hb Hr. rewrite callMethod_unfold, Hp.
  destruct (fetch_inv request w) as [(Hm & Hn & _)|(_ & E)].
  - exfalso. exact (Hn (Hb Hm)).
  - rewrite E, Hr. reflexivity.
Qed.

(** X4.  The [headers] of the options are never read: two calls that differ
    in them only behave the same. *)
Theorem callMethod_ignores_headers (w : World) apiName methodName
    (method : option Method) (query : option Query) (body : option BodyInit)
    (h h' : option Headers.t) :
  callMethod env apiName methodName (Some (mkOptions method query body h)) w
  = callMethod env apiName methodName (Some (mkOptions method query body h')) w.
Proof. rewrite !callMethod_unfold. reflexivity. Qed.

(** X5.  A prepared request has one [Referer] header, the first of its
    headers, holding the origin of the URL of the handle; besides it there
    is at most a [Cookie] header, and the body and the verb are those of the
    options, GET when none is given. *)
Theorem prepare_shape (self : QBittorrent) apiName methodName options (request : Request) :
  prepare self apiName methodName options = Returned request ->
  exists base,
    new_URL (url self) None = Some base
    /\ hd_error (req_headers request) = Some ("Referer", Headers.normalize (URL_origin base))
    /\ Headers.values (req_headers request) "Referer" = [Headers.normalize (URL_origin base)]
    /\ (forall n v, In (n, v) (req_headers request) -> n = "Referer" \/ n = "Cookie")
    /\ (List.length (req_headers request) <= 2)%nat
    /\ req_body request = match options with Some o => opt_body o | None => None end
    /\ req_method request = match options with
                            | Some {| opt_method := Some m |} => m
                            | _ => GET
                            end.
Proof.
  intros H. apply prepare_inv in H as (target & base & _ & Hb & _ & Hm & Hbody & Hh).
  exists base. split; [exact Hb|]. rewrite Hh, Hbody, Hm.
  assert (C : forall l : list (string * string),
             (l = [] \/ exists v, l = [("Cookie", v)]) ->
             Headers.values (("Referer", Headers.normalize (URL_origin base)) :: l) "Referer"
             = [Headers.normalize (URL_origin base)]
             /\ (forall n v, In (n, v) (("Referer", Headers.normalize (URL_origin base)) :: l) ->
                             n = "Referer" \/ n = "Cookie")
             /\ (List.length (("Referer", Headers.normalize (URL_origin base)) :: l) <= 2)%nat).
  { intros l [->|[v ->]].
    - split; [reflexivity|]. split; [|simpl; lia].
      intros n v [E|[]]. injection E as <- _. left. reflexivity.
    - split; [reflexivity|]. split; [|simpl; lia].
      intros n v' [E|[E|[]]]; injection E as <- _; [left|right]; reflexivity. }
  split; [reflexivity|].
  assert (L : match authCookie self with
              | Some c => if negb (String.eqb (JS.trim c) "")
                          then [("Cookie", Headers.normalize c)] else []
              | None => []
              end = []
              \/ exists v, match authCookie self with
                           | Some c => if negb (String.eqb (JS.trim c) "")
                                       then [("Cookie", Headers.normalize c)] else []
                           | None => []
                           end = [("Cookie", v)]).
  { destruct (authCookie self) as [c|]; [|left; reflexivity].
    destruct (negb (String.eqb (JS.trim c) "")); [right; eauto|left; reflexivity]. }
  destruct (C _ L) as (C1 & C2 & C3).
  split; [exact C1|]. split; [exact C2|]. split; [exact C3|]. split; [reflexivity|].
  destruct options as [[[m|] q b hh]|]; reflexivity.
Qed.

End DispatcherOutcomes.


(** ** Sessions *)

Section SessionSequences.

Context {P : Platform} (env : Env).

Lemma logout_snd (w : World) :
  snd (logout env w) = snd (callMethod env APINames.auth "logout" None w).
Proof.
  rewrite logout_unfold.
  destruct (callMethod env APINames.auth "logout" None w) as [[r|e] w']; reflexivity.
Qed.

Lemma callMethod_at_most_one (w : World) apiName methodName options :
  sent (snd (callMethod env apiName methodName options w)) = sent w
  \/ exists request,
       sent (snd (callMethod env apiName methodName options w)) = sent w ++ [request].
Proof.
  rewrite callMethod_unfold.
  destruct (prepare (this w) apiName methodName options) as [request|e]; [|left; reflexivity].
  destruct (fetch_inv env request w) as [(_ & _ & E)|(_ & E)]; rewrite E.
  - left. reflexivity.
  - right. exists request. destruct (remote env (sent w) request); reflexivity.
Qed.

(** X6.  [login] never changes the URL of the handle and sends at most one
    request; a [login] that throws, for whatever reason, leaves the whole
    handle, and so the credential held before, as it was. *)
Theorem login_touches_only_credential (w : World) (username password : string) :
  url (this (snd (login env username password w))) = url (this w)
  /\ (sent (snd (login env username password w)) = sent w
      \/ exists request, sent (snd (login env username password w)) = sent w ++ [request])
  /\ (forall e, fst (login env username password w) = Threw e ->
                this (snd (login env username password w)) = this w).
Proof.
  rewrite login_unfold.
  pose proof (callMethod_this env w APINames.auth "login"
                (Some (postOptions [("username", username); ("password", password)]))) as Ht.
  pose proof (callMethod_at_most_one w APINames.auth "login"
                (Some (postOptions [("username", username); ("password", password)]))) as Hs.
  destruct (callMethod env APINames.auth "login" _ w) as [[r|e] w']; simpl in *.
  - rewrite Ht. split; [reflexivity|]. split; [exact Hs|]. discriminate.
  - rewrite Ht. split; [reflexivity|]. split; [exact Hs|]. reflexivity.
Qed.

(** X7.  After an accepted login that stored the cookie [c], a [logout]
    changes nothing of it: whatever the server answers to the logout, the
    handle still holds [c], and every request prepared afterwards still
    carries one [Cookie] header, whose value is [c] as [Headers.append]
    normalizes it (without whitespace at its ends). *)
Theorem stale_cookie_after_logout (w w' : World) (username password : string)
    (request : Request) (response : Response) (c : string) :
  prepare (this w) APINames.auth "login"
    (Some (postOptions [("username", username); ("password", password)])) = Returned request ->
  fetch env request w = (Returned response, w') ->
  200 <= status response <= 299 ->
  JS.find (fun cookie => JS.startsWith cookie "SID=")
          (Headers.getSetCookie (Response_headers response)) = Some c ->
  authCookie (this (snd (logout env (snd (login env username password w))))) = Some c
  /\ (forall apiName methodName options request',
        prepare (this (snd (logout env (snd (login env username password w)))))
          apiName methodName options = Returned request' ->
        Headers.values (req_headers request') "Cookie" = [Headers.normalize c]).
Proof.
  intros Hp Hf Hs Hc.
  assert (E : this (snd (logout env (snd (login env username password w))))
              = mkQBittorrent (url (this w')) (Some c)).
  { rewrite logout_snd, callMethod_this.
    rewrite (login_accepted env w w' _ _ request response Hp Hf Hs). simpl.
    rewrite Hc. reflexivity. }
  rewrite E. split; [reflexivity|].
  intros apiName methodName options request' Hq.
  apply find_In in Hc as [_ Hsid].
  rewrite (prepare_cookie _ _ _ _ _ Hq). simpl.
  rewrite (session_cookie_not_blank c Hsid). reflexivity.
Qed.

End SessionSequences.

(** ** The constructor *)

(** X8.  On every platform: the constructor drops exactly one trailing
    slash of the configured URL before resolving [/api/v2/] against it, so a
    root with and without the slash give the same handle; the default root
    is [http://localhost:8080]; and a new handle holds no credential. *)
Theorem new_QBittorrent_root {P : Platform} (root : string) :
  new_QBittorrent (Some (root ++ "/")%string)
  = (u <- orTypeError (new_URL "/api/v2/" (Some root)) ;; ret (mkQBittorrent (URL_href u) None))
  /\ (JS.replaceTrailingSlash root = root ->
      new_QBittorrent (Some (root ++ "/")%string) = new_QBittorrent (Some root))
  /\ new_QBittorrent None = new_QBittorrent (Some "http://localhost:8080/")
  /\ (forall configured handle,
        new_QBittorrent configured = Returned handle -> authCookie handle = None).
Proof.
  split; [|split; [|split]].
  - unfold new_QBittorrent. rewrite replaceTrailingSlash_added. reflexivity.
  - apply new_QBittorrent_trailing_slash.
  - reflexivity.
  - intros configured handle. unfold new_QBittorrent.
    destruct (new_URL "/api/v2/" _) as [u|]; simpl; [|discriminate].
    intros H. injection H as <-. reflexivity.
Qed.

(** ** Endpoints *)

Section EndpointFrames.

Context {P : Platform} {V : Values P} {S : Serializer} (env : Env).

Lemma keepsHandle_callMethod apiName methodName options :
  keepsHandle (callMethod env apiName methodName options).
Proof.
  intros w. split; [apply callMethod_this|apply callMethod_at_most_one].
Qed.

(** What follows a call and touches neither the handle nor the network
    keeps what the call keeps. *)
Lemma keepsHandle_bind {A B} (c : M A) (k : A -> M B) :
  (forall a w, snd (k a w) = w) -> keepsHandle c -> keepsHandle (x <- c ;; k x).
Proof.
  intros Hk Hc w. specialize (Hc w). simpl.
  destruct (c w) as [[a|e] w'] eqn:E; simpl in *; [|exact Hc].
  rewrite Hk. exact Hc.
Qed.

Lemma keepsHandle_addNewTorrent torrents options :
  keepsHandle (addNewTorrent env torrents options).
Proof.
  intros w. unfold addNewTorrent.
  destruct (addNewTorrent_body env torrents options) as [body|e].
  - rewrite pure_bind.
    apply (keepsHandle_bind (callMethod env APINames.torrents "add" _) (fun _ => ret tt)).
    + reflexivity.
    + apply keepsHandle_callMethod.
  - split; [reflexivity|left; reflexivity].
Qed.

(** A step of the platform that may throw, before the rest. *)
Lemma keepsHandle_pure {A B} (r : Result A) (k : A -> M B) :
  (forall a, keepsHandle (k a)) -> keepsHandle (x <- pure r ;; k x).
Proof.
  intros Hk w. destruct r as [a|e].
  - exact (Hk a w).
  - split; [reflexivity|left; reflexivity].
Qed.

(** X9.  No operation other than [login] writes the handle, and every one
    of them sends at most one request, in every state, whatever the server
    answers and whatever [JSON.stringify] does: the credential changes in
    [login] only.  These are all the other methods of the class. *)
Theorem operations_keep_handle
    (hashes : HashesArg) (l1 l2 : list string) (ol : option (list string))
    (s1 s2 s3 : string) (os : option string) (flag : option bool)
    (n : number) (on om : option number) (ids : list number) (oids : option (list number))
    (limits : SetTorrentShareLimitOptions) (fields : option (list (string * Field)))
    (plugins : option HashesArg) (object : JSObject)
    (torrents : list TorrentInput) (options : option AddNewTorrentOptions) :
  keepsHandle (logout env)
  /\ keepsHandle (getApplicationVersion env)
  /\ keepsHandle (pauseTorrents env l1)
  /\ keepsHandle (resumeTorrents env l1)
  /\ keepsHandle (deleteTorrents env hashes flag)
  /\ keepsHandle (recheckTorrents env l1)
  /\ keepsHandle (reannounceTorrents env l1)
  /\ keepsHandle (addPeers env l1 l2)
  /\ keepsHandle (increaseTorrentPriority env hashes)
  /\ keepsHandle (decreaseTorrentPriority env hashes)
  /\ keepsHandle (maximalTorrentPriority env hashes)
  /\ keepsHandle (minimalTorrentPriority env hashes)
  /\ keepsHandle (getTorrentDownloadLimit env hashes)
  /\ keepsHandle (setTorrentDownloadLimit env hashes n)
  /\ keepsHandle (setTorrentShareLimit env hashes limits)
  /\ keepsHandle (getTorrentUploadLimit env hashes)
  /\ keepsHandle (setTorrentUploadLimit env hashes n)
  /\ keepsHandle (setTorrentLocation env hashes s1)
  /\ keepsHandle (setTorrentCategory env hashes s1)
  /\ keepsHandle (addTorrentTags env hashes l1)
  /\ keepsHandle (removeTorrentTags env hashes ol)
  /\ keepsHandle (createTags env l1)
  /\ keepsHandle (deleteTags env l1)
  /\ keepsHandle (setAutomaticTorrentManagement env hashes flag)
  /\ keepsHandle (toggleSequentialDownload env hashes)
  /\ keepsHandle (setFirstLastPiecePriority env hashes)
  /\ keepsHandle (setForceStart env hashes flag)
  /\ keepsHandle (setSuperSeeding env hashes flag)
  /\ keepsHandle (renameFile env hashes s1 s2)
  /\ keepsHandle (renameFolder env hashes s1 s2)
  /\ keepsHandle (addNewTorrent env torrents options)
  /\ keepsHandle (getAPIVersion env)
  /\ keepsHandle (getBuildInfo env)
  /\ keepsHandle (shutdownApplication env)
  /\ keepsHandle (getApplicationPreferences env)
  /\ keepsHandle (getDefaultSavePath env)
  /\ keepsHandle (getLog env fields)
  /\ keepsHandle (getPeerLog env on)
  /\ keepsHandle (getMainData env on)
  /\ keepsHandle (getTorrentPeersData env s1 on)
  /\ keepsHandle (getGlobalTransferInfo env)
  /\ keepsHandle (getAlternativeSpeedLimitsState env)
  /\ keepsHandle (toggleAlternativeSpeedLimits env)
  /\ keepsHandle (getGlobalDownloadLimit env)
  /\ keepsHandle (setGlobalDownloadLimit env on)
  /\ keepsHandle (getGlobalUploadLimit env)
  /\ keepsHandle (setGlobalUploadLimit env on)
  /\ keepsHandle (banPeers env l1)
  /\ keepsHandle (getTorrentList env fields)
  /\ keepsHandle (getTorrentGenericProperties env s1)
  /\ keepsHandle (getTorrentTrackers env s1)
  /\ keepsHandle (getTorrentWebSeeds env s1)
  /\ keepsHandle (getTorrentContents env s1 oids)
  /\ keepsHandle (getTorrentPiecesStates env s1)
  /\ keepsHandle (getTorrentPiecesHashes env s1)
  /\ keepsHandle (addTrackersToTorrent env s1 l1)
  /\ keepsHandle (editTrackers env s1 s2 s3)
  /\ keepsHandle (removeTrackers env s1 l1)
  /\ keepsHandle (setFilePriority env s1 ids n)
  /\ keepsHandle (setTorrentName env s1 s2)
  /\ keepsHandle (getAllCategories env)
  /\ keepsHandle (editCategory env s1 s2)
  /\ keepsHandle (removeCategory env l1)
  /\ keepsHandle (getAllTags env)
  /\ keepsHandle (addFolder env s1)
  /\ keepsHandle (addFeed env s1 s2)
  /\ keepsHandle (removeItem env s1)
  /\ keepsHandle (moveItem env s1 s2)
  /\ keepsHandle (getAllItems env flag)
  /\ keepsHandle (markAsRead env s1 os)
  /\ keepsHandle (refreshItem env s1)
  /\ keepsHandle (renameAutoDownloadingRule env s1 s2)
  /\ keepsHandle (removeAutoDownloadingRule env s1)
  /\ keepsHandle (getAllAutoDownloadingRules env)
  /\ keepsHandle (getAllArticlesMatchingRule env s1)
  /\ keepsHandle (startSearch env s1 plugins os)
  /\ keepsHandle (stopSearch env n)
  /\ keepsHandle (getSearchStatus env on)
  /\ keepsHandle (getSearchResults env n on om)
  /\ keepsHandle (deleteSearch env n)
  /\ keepsHandle (getSearchPlugins env)
  /\ keepsHandle (installSearchPlugin env l1)
  /\ keepsHandle (uninstallSearchPlugin env l1)
  /\ keepsHandle (enableSearchPlugin env l1 flag)
  /\ keepsHandle (updateSearchPlugins env)
  /\ keepsHandle (setApplicationPreferences env object)
  /\ keepsHandle (setAutoDownloadingRule env s1 object).
Proof.
  repeat match goal with |- _ /\ _ => split end;
    try apply keepsHandle_addNewTorrent;
    try (unfold setApplicationPreferences, setAutoDownloadingRule;
         apply keepsHandle_pure; intros json);
    unfold logout, getApplicationVersion, pauseTorrents, resumeTorrents, deleteTorrents,
    recheckTorrents, reannounceTorrents, addPeers, increaseTorrentPriority,
    decreaseTorrentPriority, maximalTorrentPriority, minimalTorrentPriority,
    getTorrentDownloadLimit, setTorrentDownloadLimit, setTorrentShareLimit,
    getTorrentUploadLimit, setTorrentUploadLimit, setTorrentLocation, setTorrentCategory,
    addTorrentTags, removeTorrentTags, createTags, deleteTags, setAutomaticTorrentManagement,
    toggleSequentialDownload, setFirstLastPiecePriority, setForceStart, setSuperSeeding,
    renameFile, renameFolder, getAPIVersion, getBuildInfo, shutdownApplication,
    getApplicationPreferences, getDefaultSavePath, getLog, getPeerLog, getMainData,
    getTorrentPeersData, getGlobalTransferInfo, getAlternativeSpeedLimitsState,
    toggleAlternativeSpeedLimits, getGlobalDownloadLimit, setGlobalDownloadLimit,
    getGlobalUploadLimit, setGlobalUploadLimit, banPeers, getTorrentList,
    getTorrentGenericProperties, getTorrentTrackers, getTorrentWebSeeds, getTorrentContents,
    getTorrentPiecesStates, getTorrentPiecesHashes, addTrackersToTorrent, editTrackers,
    removeTrackers, setFilePriority, setTorrentName, getAllCategories, editCategory,
    removeCategory, getAllTags, addFolder, addFeed, removeItem, moveItem, getAllItems,
    markAsRead, refreshItem, renameAutoDownloadingRule, removeAutoDownloadingRule,
    getAllAutoDownloadingRules, getAllArticlesMatchingRule, startSearch, stopSearch,
    getSearchStatus, getSearchResults, deleteSearch, getSearchPlugins, installSearchPlugin,
    uninstallSearchPlugin, enableSearchPlugin, updateSearchPlugins, post;
    (apply keepsHandle_bind; [reflexivity|apply keepsHandle_callMethod]).
Qed.

End EndpointFrames.

Lemma append_assoc (a b c : string) : ((a ++ b) ++ c)%string = (a ++ b ++ c)%string.
Proof. induction a as [|x a IH]; simpl; [reflexivity|]. now rewrite IH. Qed.

Section EndpointForms.

Context {P : Platform} {V : Values P} (env : Env).

(** X10.  An optional argument that is omitted leaves no field in the form:
    [tags] of [removeTorrentTags], [articleId] of [markAsRead] and [id] of
    [getSearchStatus] are present exactly when the argument is given.  An
    empty array of tags is given: its field is there and empty.  The form of
    [getSearchStatus] without an id has no field at all.  These forms are
    what the three methods post. *)
Theorem optional_form_fields (hashes : HashesArg) (itemPath : string) :
  (forall tags, URLSearchParams.has (removeTorrentTags_body hashes tags) "tags"
                = match tags with Some _ => true | None => false end)
  /\ removeTorrentTags_body hashes None = [("hashes", hashesField hashes)]
  /\ URLSearchParams.get (removeTorrentTags_body hashes (Some [])) "tags" = Some ""
  /\ (forall articleId,
        URLSearchParams.get (markAsRead_body itemPath articleId) "articleId" = articleId
        /\ URLSearchParams.get (markAsRead_body itemPath articleId) "itemPath" = Some itemPath)
  /\ (forall id, URLSearchParams.get (getSearchStatus_body id) "id"
                 = option_map Number_toString id)
  /\ getSearchStatus_body None = []
  /\ (forall tags,
        postsForm (removeTorrentTags env hashes tags) APINames.torrents "removeTags"
          (removeTorrentTags_body hashes tags))
  /\ (forall articleId,
        postsForm (markAsRead env itemPath articleId) APINames.rss "markAsRead"
          (markAsRead_body itemPath articleId))
  /\ (forall id,
        postsForm (getSearchStatus env id) APINames.search "status"
          (getSearchStatus_body id)).
Proof.
  repeat match goal with
         | |- _ /\ _ => split
         | |- forall _, _ => intro
         end;
    try reflexivity;
    try apply postsForm_post.
  - destruct tags; reflexivity.
  - destruct articleId; reflexivity.
  - destruct articleId; reflexivity.
  - destruct id; reflexivity.
Qed.

(** X11.  Without [seedingTimeLimit], [setTorrentShareLimit] sends the
    ratio under [ratioLimit] when it is given and the hashes alone when it
    is not; so the ratio reaches the server only when no seeding time is
    given. *)
Theorem setTorrentShareLimit_without_seedingTimeLimit
    (hashes : HashesArg) (options : SetTorrentShareLimitOptions) :
  seedingTimeLimit options = None ->
  setTorrentShareLimit_body hashes options
  = match ratioLimit options with
    | Some r => [("hashes", hashesField hashes); ("ratioLimit", Number_toString r)]
    | None => [("hashes", hashesField hashes)]
    end
  /\ postsForm (setTorrentShareLimit env hashes options) APINames.torrents "setShareLimits"
       match ratioLimit options with
       | Some r => [("hashes", hashesField hashes); ("ratioLimit", Number_toString r)]
       | None => [("hashes", hashesField hashes)]
       end.
Proof.
  intros H.
  assert (E : setTorrentShareLimit_body hashes options
              = match ratioLimit options with
                | Some r => [("hashes", hashesField hashes); ("ratioLimit", Number_toString r)]
                | None => [("hashes", hashesField hashes)]
                end).
  { unfold setTorrentShareLimit_body. rewrite H.
    destruct (ratioLimit options); reflexivity. }
  split; [exact E|]. rewrite <- E. apply postsForm_post.
Qed.

(** The field of a form split at a separator. *)
Lemma joined_field_split (c : ascii) (a : list string) :
  a <> [] -> (forall x, In x a -> ~ In c (JS.chars x)) ->
  option_map (fun f => JS.split f c) (Some (JS.join a (String c EmptyString))) = Some a.
Proof. intros Hn Hc. simpl. f_equal. apply split_join; assumption. Qed.

(** X12.  The list-valued form fields keep their elements and the order:
    for a non-empty list whose elements do not hold the separator,
    splitting the field at the separator gives the list back.  The
    separator is the pipe for peers, categories, plugin sources and names,
    the comma for tags and the line feed for tracker URLs.  These forms are
    what the methods post. *)
Theorem list_fields_round_trip (a : list string) (hashes : HashesArg) (hash : string)
    (enable : option bool) :
  a <> [] ->
  ((forall x, In x a -> ~ In "|"%char (JS.chars x)) ->
   option_map (fun f => JS.split f "|") (URLSearchParams.get (banPeers_body a) "peers")
   = Some a
   /\ option_map (fun f => JS.split f "|")
        (URLSearchParams.get (addPeers_body [hash] a) "peers") = Some a
   /\ option_map (fun f => JS.split f "|")
        (URLSearchParams.get (removeCategory_body a) "categories") = Some a
   /\ option_map (fun f => JS.split f "|")
        (URLSearchParams.get (installSearchPlugin_body a) "sources") = Some a
   /\ option_map (fun f => JS.split f "|")
        (URLSearchParams.get (uninstallSearchPlugin_body a) "names") = Some a
   /\ option_map (fun f => JS.split f "|")
        (URLSearchParams.get (enableSearchPlugin_body a enable) "names") = Some a)
  /\ ((forall x, In x a -> ~ In ","%char (JS.chars x)) ->
      option_map (fun f => JS.split f ",")
        (URLSearchParams.get (addTorrentTags_body hashes a) "tags") = Some a
      /\ option_map (fun f => JS.split f ",")
           (URLSearchParams.get (removeTorrentTags_body hashes (Some a)) "tags") = Some a
      /\ option_map (fun f => JS.split f ",")
           (URLSearchParams.get (createTags_body a) "tags") = Some a
      /\ option_map (fun f => JS.split f ",")
           (URLSearchParams.get (deleteTags_body a) "tags") = Some a)
  /\ ((forall x, In x a -> ~ In (ascii_of_N 10) (JS.chars x)) ->
      option_map (fun f => JS.split f (ascii_of_N 10))
        (URLSearchParams.get (addTrackersToTorrent_body hash a) "urls") = Some a
      /\ option_map (fun f => JS.split f (ascii_of_N 10))
           (URLSearchParams.get (removeTrackers_body hash a) "urls") = Some a)
  /\ (postsForm (banPeers env a) APINames.transfer "banPeers" (banPeers_body a)
      /\ postsForm (addPeers env [hash] a) APINames.torrents "addPeers"
           (addPeers_body [hash] a)
      /\ postsForm (removeCategory env a) APINames.torrents "removeCategories"
           (removeCategory_body a)
      /\ postsForm (installSearchPlugin env a) APINames.search "installPlugin"
           (installSearchPlugin_body a)
      /\ postsForm (uninstallSearchPlugin env a) APINames.search "uninstallPlugin"
           (uninstallSearchPlugin_body a)
      /\ postsForm (enableSearchPlugin env a enable) APINames.search "enablePlugin"
           (enableSearchPlugin_body a enable)
      /\ postsForm (addTorrentTags env hashes a) APINames.torrents "addTags"
           (addTorrentTags_body hashes a)
      /\ postsForm (removeTorrentTags env hashes (Some a)) APINames.torrents "removeTags"
           (removeTorrentTags_body hashes (Some a))
      /\ postsForm (createTags env a) APINames.torrents "createTags" (createTags_body a)
      /\ postsForm (deleteTags env a) APINames.torrents "deleteTags" (deleteTags_body a)
      /\ postsForm (addTrackersToTorrent env hash a) APINames.torrents "addTrackers"
           (addTrackersToTorrent_body hash a)
      /\ postsForm (removeTrackers env hash a) APINames.torrents "removeTrackers"
           (removeTrackers_body hash a)).
Proof.
  intros Hn.
  split; [|split; [|split]];
    [intros Hc|intros Hc|intros Hc|];
    repeat match goal with |- _ /\ _ => split end;
    try exact (joined_field_split _ a Hn Hc);
    apply postsForm_post.
Qed.

Lemma join_collision (sep x y : string) (rest : list string) :
  JS.join ((x ++ sep ++ y)%string :: rest) sep = JS.join (x :: y :: rest) sep.
Proof.
  unfold JS.join. destruct rest as [|z rest]; [reflexivity|].
  change (String.concat sep ((x ++ sep ++ y)%string :: z :: rest))
    with ((x ++ sep ++ y) ++ sep ++ String.concat sep (z :: rest))%string.
  change (String.concat sep (x :: y :: z :: rest))
    with (x ++ sep ++ y ++ sep ++ String.concat sep (z :: rest))%string.
  rewrite !append_assoc. reflexivity.
Qed.

(** X13.  Joining is blind to separators inside an element: one element
    holding the separator gives the same field as the two elements around
    it, and the empty list gives the same field as the list of one empty
    string.  So a tag with a comma, or a tracker URL with a line feed, goes
    out as two: these forms are what the methods post. *)
Theorem separator_inside_element (x y : string) (rest : list string) (hashes : HashesArg)
    (hash : string) :
  addTorrentTags_body hashes ((x ++ "," ++ y)%string :: rest)
  = addTorrentTags_body hashes (x :: y :: rest)
  /\ createTags_body ((x ++ "," ++ y)%string :: rest) = createTags_body (x :: y :: rest)
  /\ deleteTags_body ((x ++ "," ++ y)%string :: rest) = deleteTags_body (x :: y :: rest)
  /\ removeTorrentTags_body hashes (Some ((x ++ "," ++ y)%string :: rest))
     = removeTorrentTags_body hashes (Some (x :: y :: rest))
  /\ pauseTorrents_body ((x ++ "|" ++ y)%string :: rest) = pauseTorrents_body (x :: y :: rest)
  /\ banPeers_body ((x ++ "|" ++ y)%string :: rest) = banPeers_body (x :: y :: rest)
  /\ removeCategory_body ((x ++ "|" ++ y)%string :: rest)
     = removeCategory_body (x :: y :: rest)
  /\ addTrackersToTorrent_body hash ((x ++ LF ++ y)%string :: rest)
     = addTrackersToTorrent_body hash (x :: y :: rest)
  /\ createTags_body [] = createTags_body [""]
  /\ pauseTorrents_body [] = pauseTorrents_body [""]
  /\ (forall l : list string,
        postsForm (addTorrentTags env hashes l) APINames.torrents "addTags"
          (addTorrentTags_body hashes l)
        /\ postsForm (createTags env l) APINames.torrents "createTags" (createTags_body l)
        /\ postsForm (deleteTags env l) APINames.torrents "deleteTags" (deleteTags_body l)
        /\ postsForm (removeTorrentTags env hashes (Some l)) APINames.torrents "removeTags"
             (removeTorrentTags_body hashes (Some l))
        /\ postsForm (pauseTorrents env l) APINames.torrents "pause" (pauseTorrents_body l)
        /\ postsForm (banPeers env l) APINames.transfer "banPeers" (banPeers_body l)
        /\ postsForm (removeCategory env l) APINames.torrents "removeCategories"
             (removeCategory_body l)
        /\ postsForm (addTrackersToTorrent env hash l) APINames.torrents "addTrackers"
             (addTrackersToTorrent_body hash l)).
Proof.
  repeat match goal with
         | |- _ /\ _ => split
         | |- forall _, _ => intro
         end;
    try apply postsForm_post;
    unfold addTorrentTags_body, createTags_body, deleteTags_body, removeTorrentTags_body,
      pauseTorrents_body, banPeers_body, removeCategory_body, addTrackersToTorrent_body;
    rewrite ?join_collision; reflexivity.
Qed.

End EndpointForms.


(** ** Adding torrents: the file system *)

Section AddNewTorrentFiles.

Context {P : Platform}.

Lemma attach_agree (env1 env2 : Env) (urls : list string) (body : FormData.t)
    (torrent : TorrentInput) :
  (forall s, torrent = TString s -> JS.includes urls s = false ->
             readFileSync env1 s = readFileSync env2 s) ->
  attach env1 urls body torrent = attach env2 urls body torrent.
Proof.
  intros H. destruct torrent as [s|b|c|b]; try reflexivity.
  unfold attach. destruct (JS.includes urls s) eqn:E; [reflexivity|].
  simpl negb. cbv iota. rewrite (H s eq_refl E). reflexivity.
Qed.

Lemma forOf_agree {A S} (f g : S -> A -> Result S) (l : list A) :
  (forall s x, In x l -> f s x = g s x) -> forall s, forOf l s f = forOf l s g.
Proof.
  induction l as [|x l IH]; intros H s; simpl; [reflexivity|].
  rewrite (H s x (or_introl eq_refl)). destruct (g s x) as [s'|e]; [|reflexivity].
  apply IH. intros s0 y Hy. apply H. right. exact Hy.
Qed.

(** X14.  [addNewTorrent] reads the file system at the strings that are not
    links, and nowhere else: two file systems that agree on these paths
    give the same body, or the same error.  A link is never read as a
    path. *)
Theorem addNewTorrent_reads_only_paths (env1 env2 : Env) (torrents : list TorrentInput)
    (options : option AddNewTorrentOptions) :
  (forall s, In (TString s) torrents -> isLink s = false ->
             readFileSync env1 s = readFileSync env2 s) ->
  addNewTorrent_body env1 torrents options = addNewTorrent_body env2 torrents options.
Proof.
  intros H. unfold addNewTorrent_body. apply forOf_agree.
  intros body torrent Hin. apply attach_agree.
  intros s -> Hs. apply H; [exact Hin|].
  rewrite <- Hs. symmetry. apply includes_filter, stringsOf_In, Hin.
Qed.

Lemma torrents_loop_unreadable (env : Env) (urls : list string) (path : string)
    (torrents : list TorrentInput) :
  forall body : FormData.t,
    (forall s, In (TString s) torrents -> JS.includes urls s = isLink s) ->
    firstUnreadable env torrents = Some path ->
    forOf torrents body (attach env urls) = Threw (Thrown_fs path).
Proof.
  induction torrents as [|t l IH]; intros body Hu H; simpl in H; [discriminate|].
  assert (Hl : forall s, In (TString s) l -> JS.includes urls s = isLink s).
  { intros s Hs. apply Hu. right. exact Hs. }
  destruct t as [s|b|c|b]; simpl.
  - unfold attach at 1. rewrite (Hu s (or_introl eq_refl)).
    destruct (isLink s); simpl; [apply IH; assumption|].
    destruct (readFileSync env s) as [file|]; simpl.
    + apply IH; assumption.
    + injection H as <-. reflexivity.
  - apply IH; assumption.
  - apply IH; assumption.
  - apply IH; assumption.
Qed.

Lemma firstUnreadable_inv (env : Env) (torrents : list TorrentInput) (path : string) :
  firstUnreadable env torrents = Some path ->
  In (TString path) torrents /\ isLink path = false /\ readFileSync env path = None.
Proof.
  induction torrents as [|t l IH]; simpl; [discriminate|].
  destruct t as [s|b|c|b]; try (intros H; destruct (IH H) as (H1 & H2); split; [right|]; assumption).
  destruct (isLink s) eqn:E.
  - intros H. destruct (IH H) as (H1 & H2). split; [right|]; assumption.
  - destruct (readFileSync env s) eqn:F.
    + intros H. destruct (IH H) as (H1 & H2). split; [right|]; assumption.
    + intros H. injection H as <-. repeat split; [left; reflexivity|assumption|assumption].
Qed.

Lemma firstUnreadable_uploads (env : Env) (torrents : list TorrentInput) :
  firstUnreadable env torrents = None <-> exists uploads, uploadsOf env torrents = Some uploads.
Proof.
  induction torrents as [|t l IH]; simpl.
  - split; [eauto|reflexivity].
  - destruct t as [s|b|c|b]; simpl.
    + destruct (isLink s); [exact IH|].
      destruct (readFileSync env s) as [file|].
      * rewrite IH. split; intros [u Hu].
        -- rewrite Hu. eauto.
        -- destruct (uploadsOf env l); [eauto|discriminate].
      * split; [discriminate|intros [u Hu]; discriminate].
    + rewrite IH. split; intros [u Hu].
      * rewrite Hu. eauto.
      * destruct (uploadsOf env l); [eauto|discriminate].
    + rewrite IH. split; intros [u Hu].
      * rewrite Hu. eauto.
      * destruct (uploadsOf env l); [eauto|discriminate].
    + rewrite IH. split; intros [u Hu].
      * rewrite Hu. eauto.
      * destruct (uploadsOf env l); [eauto|discriminate].
Qed.

(** X15.  When a path of the torrents cannot be read, [addNewTorrent]
    throws the error of the first such path, in the order of the array;
    nothing is sent and the handle stays; and this is the only way the body
    fails to be built. *)
Theorem addNewTorrent_first_unreadable (env : Env) (torrents : list TorrentInput)
    (options : option AddNewTorrentOptions) (w : World) :
  (forall path,
      firstUnreadable env torrents = Some path ->
      addNewTorrent env torrents options w = (Threw (Thrown_fs path), w)
      /\ In (TString path) torrents /\ isLink path = false /\ readFileSync env path = None)
  /\ (firstUnreadable env torrents = None ->
      exists body, addNewTorrent_body env torrents options = Returned body).
Proof.
  split.
  - intros path H. split; [|exact (firstUnreadable_inv env torrents path H)].
    unfold addNewTorrent, addNewTorrent_body.
    rewrite (torrents_loop_unreadable env _ path torrents); [reflexivity| |exact H].
    intros s Hs. apply includes_filter, stringsOf_In, Hs.
  - intros H. apply firstUnreadable_uploads in H as [uploads Hu].
    exists (partitionedBody options torrents uploads).
    apply addNewTorrent_body_partitioned. exact Hu.
Qed.

End AddNewTorrentFiles.

(** ** The reference platform: URLs *)

Lemma append_empty (a : string) : (a ++ "")%string = a.
Proof. induction a as [|x a IH]; simpl; [reflexivity|]. now rewrite IH. Qed.

Lemma prefix_empty (s : string) : String.prefix "" s = true.
Proof. destruct s; reflexivity. Qed.

Lemma splitFirst_found (c : ascii) (a r : list ascii) :
  ~ In c a -> Reference.splitFirst c (a ++ c :: r) = (a, Some r).
Proof.
  induction a as [|x a IH]; intros H; simpl.
  - rewrite Ascii.eqb_refl. reflexivity.
  - destruct (Ascii.eqb x c) eqn:E.
    + apply Ascii.eqb_eq in E. exfalso. apply H. left. exact E.
    + rewrite IH; [reflexivity|]. intros Hin. apply H. right. exact Hin.
Qed.

Lemma splitFirst_inv (c : ascii) (l a : list ascii) (o : option (list ascii)) :
  Reference.splitFirst c l = (a, o) ->
  l = a ++ match o with Some r => c :: r | None => [] end.
Proof.
  revert a o. induction l as [|x l IH]; intros a o H; simpl in H.
  - injection H as <- <-. reflexivity.
  - destruct (Ascii.eqb x c) eqn:E.
    + apply Ascii.eqb_eq in E. subst x. injection H as <- <-. reflexivity.
    + destruct (Reference.splitFirst c l) as [a' o'] eqn:F.
      injection H as <- <-. simpl. f_equal. apply IH. reflexivity.
Qed.

(** When every piece between the separators satisfies [q], every character
    is the separator or satisfies [q]. *)
Lemma splitChars_forall (c : ascii) (q : ascii -> bool) (l : list ascii) :
  forallb (forallb q) (JS.splitChars c l) = true ->
  forallb (fun x => Ascii.eqb x c || q x) l = true.
Proof.
  induction l as [|x l IH]; simpl; [reflexivity|].
  destruct (Ascii.eqb x c) eqn:E; simpl.
  - exact IH.
  - destruct (JS.splitChars c l) as [|a r] eqn:F; simpl.
    + intros H. rewrite andb_true_r in H. rewrite andb_true_r in H. rewrite H. simpl.
      apply IH. reflexivity.
    + intros H. apply andb_prop in H as [H1 H2]. apply andb_prop in H1 as [Hx Ha].
      rewrite Hx. simpl. apply IH. simpl. rewrite Ha, H2. reflexivity.
Qed.

Lemma validLabel_chars (l : list ascii) :
  Reference.validLabel l = true ->
  forallb (fun x => Reference.isLower x || Reference.isDigit x) l = true.
Proof.
  destruct l as [|c r]; simpl; [discriminate|].
  intros H. apply andb_prop in H as [Hc Hr]. rewrite Hc, Hr. reflexivity.
Qed.

Lemma forallb_weaken {A} (p q : A -> bool) (l : list A) :
  (forall x, p x = true -> q x = true) -> forallb p l = true -> forallb q l = true.
Proof.
  intros H. induction l as [|x l IH]; simpl; [reflexivity|].
  intros G. apply andb_prop in G as [Gx Gl]. rewrite (H x Gx), (IH Gl). reflexivity.
Qed.

Lemma validAuthority_chars (scheme : string) (a : list ascii) :
  Reference.validAuthority scheme a = true ->
  forallb ReferenceValues.isAuthorityChar a = true.
Proof.
  unfold Reference.validAuthority.
  destruct (Reference.splitFirst ":" a) as [h o] eqn:E.
  apply splitFirst_inv in E. subst a.
  assert (Hh : Reference.validHostname h = true ->
               forallb ReferenceValues.isAuthorityChar h = true).
  { unfold Reference.validHostname. intros H.
    apply (forallb_weaken (fun x => Ascii.eqb x "." || (Reference.isLower x || Reference.isDigit x))).
    - intros x Hx. unfold ReferenceValues.isAuthorityChar.
      destruct (Ascii.eqb x "."), (Reference.isLower x), (Reference.isDigit x);
        simpl in *; congruence.
    - apply splitChars_forall.
      apply (forallb_weaken Reference.validLabel); [apply validLabel_chars|exact H]. }
  destruct o as [p|].
  - intros H. apply andb_prop in H as [H1 H2]. rewrite forallb_app, (Hh H1). simpl.
    unfold Reference.validPort in H2. destruct p as [|c p]; [discriminate|].
    do 4 (apply andb_prop in H2 as [H2 _]).
    apply (forallb_weaken Reference.isDigit); [|exact H2].
    intros x Hx. unfold ReferenceValues.isAuthorityChar. rewrite Hx.
    destruct (Reference.isLower x); reflexivity.
  - intros H. rewrite app_nil_r. exact (Hh H).
Qed.

Lemma forallb_not_In {A} (p : A -> bool) (l : list A) (x : A) :
  forallb p l = true -> p x = false -> ~ In x l.
Proof.
  intros H Hx Hin. rewrite forallb_forall in H. rewrite (H x Hin) in Hx. discriminate.
Qed.

(** Parsing succeeds on a scheme, a valid authority and a path. *)
Lemma parseAbsolute_built (scheme : string) (authority path : list ascii) :
  scheme = "http" \/ scheme = "https" ->
  Reference.validAuthority scheme authority = true ->
  forallb Reference.isPathChar ("/"%char :: path) = true ->
  Reference.parseAbsolute
    (scheme ++ "://" ++ JS.of_chars authority ++ JS.of_chars ("/"%char :: path))%string
  = Some (Reference.mkUrl scheme (JS.of_chars authority) (JS.of_chars ("/"%char :: path)) "").
Proof.
  intros Hs Ha Hp.
  assert (S : Reference.parseAfterScheme scheme
                (JS.chars (JS.of_chars authority ++ JS.of_chars ("/"%char :: path))%string)
              = Some (Reference.mkUrl scheme (JS.of_chars authority)
                        (JS.of_chars ("/"%char :: path)) "")).
  { unfold Reference.parseAfterScheme. rewrite chars_append, !chars_of_chars.
    rewrite splitFirst_found.
    - rewrite Ha, Hp. reflexivity.
    - apply (forallb_not_In _ _ _ (validAuthority_chars scheme authority Ha)). reflexivity. }
  destruct Hs as [->| ->]; unfold Reference.parseAbsolute; simpl;
    unfold JS.startsWith; rewrite prefix_empty; exact S.
Qed.

Lemma parseAbsolute_inv (input : string) (b : Reference.url) :
  Reference.parseAbsolute input = Some b ->
  (Reference.url_scheme b = "http" \/ Reference.url_scheme b = "https")
  /\ Reference.url_search b = ""
  /\ exists authority path,
       Reference.url_host b = JS.of_chars authority
       /\ Reference.validAuthority (Reference.url_scheme b) authority = true
       /\ Reference.url_pathname b = JS.of_chars ("/"%char :: path)
       /\ forallb Reference.isPathChar ("/"%char :: path) = true.
Proof.
  assert (S : forall scheme rest,
             Reference.parseAfterScheme scheme rest = Some b ->
             Reference.url_scheme b = scheme
             /\ Reference.url_search b = ""
             /\ exists authority path,
                  Reference.url_host b = JS.of_chars authority
                  /\ Reference.validAuthority scheme authority = true
                  /\ Reference.url_pathname b = JS.of_chars ("/"%char :: path)
                  /\ forallb Reference.isPathChar ("/"%char :: path) = true).
  { intros scheme rest. unfold Reference.parseAfterScheme.
    destruct (Reference.splitFirst "/" rest) as [authority o].
    destruct (Reference.validAuthority scheme authority) eqn:Ha; [|discriminate].
    destruct o as [p|]; simpl.
    - destruct (forallb Reference.isPathChar p) eqn:Hp; [|discriminate].
      intros H. injection H as <-. simpl. repeat split.
      exists authority, p. repeat split; [exact Ha|simpl; exact Hp].
    - intros H. injection H as <-. simpl. repeat split.
      exists authority, []. repeat split. exact Ha. }
  unfold Reference.parseAbsolute.
  destruct (JS.startsWith input "http://").
  - intros H. destruct (S _ _ H) as (E & F & a & p & G). rewrite E in *.
    split; [left; reflexivity|]. split; [exact F|]. exists a, p. exact G.
  - destruct (JS.startsWith input "https://"); [|discriminate].
    intros H. destruct (S _ _ H) as (E & F & a & p & G). rewrite E in *.
    split; [right; reflexivity|]. split; [exact F|]. exists a, p. exact G.
Qed.

Lemma dropWhile_clean {A} (p : A -> bool) (l : list A) :
  forallb (fun c => negb (p c)) l = true -> JS.dropWhile p l = l.
Proof.
  destruct l as [|x l]; simpl; [reflexivity|].
  intros H. apply andb_prop in H as [H _]. destruct (p x); [discriminate|reflexivity].
Qed.

(** A string without any character that goes is stripped to itself. *)
Lemma strip_clean (p : ascii -> bool) (s : string) :
  forallb (fun c => negb (p c)) (JS.chars s) = true -> JS.strip p s = s.
Proof.
  intros H. unfold JS.strip. rewrite (dropWhile_clean p _ H).
  rewrite dropWhile_clean.
  - rewrite rev_involutive. apply of_chars_chars.
  - rewrite forallb_forall in *. intros x Hx. apply H. apply in_rev. exact Hx.
Qed.

Lemma authorityChar_plain (c : ascii) :
  ReferenceValues.isAuthorityChar c = true ->
  negb (Headers.isHttpWhitespace c) = true
  /\ negb ((JS.code c =? 0) || (JS.code c =? 10) || (JS.code c =? 13))%N = true
  /\ Ascii.eqb c "/" = false.
Proof.
  destruct c as [[] [] [] [] [] [] [] []]; vm_compute; intros H;
    try discriminate H; repeat split.
Qed.

(** The origin of a parsed URL is a header value as it is. *)
Lemma origin_header (b : Reference.url) (input : string) :
  Reference.parseAbsolute input = Some b ->
  Headers.append Headers.empty "Referer" (Reference.origin b)
  = Some [("Referer", Reference.origin b)].
Proof.
  intros H. apply parseAbsolute_inv in H as (Hs & _ & a & p & Hh & Ha & _).
  pose proof (validAuthority_chars _ _ Ha) as Hc.
  assert (Q : forall q : ascii -> bool,
             (forall c, ReferenceValues.isAuthorityChar c = true -> q c = true) ->
             forallb q (JS.chars "http://") = true ->
             forallb q (JS.chars "https://") = true ->
             forallb q (JS.chars (Reference.origin b)) = true).
  { intros q Hq H1 H2. unfold Reference.origin. rewrite Hh.
    assert (G : forallb q a = true) by (apply (forallb_weaken _ _ _ Hq Hc)).
    destruct Hs as [->| ->].
    - change ("http" ++ "://" ++ JS.of_chars a)%string with ("http://" ++ JS.of_chars a)%string.
      rewrite chars_append, chars_of_chars, forallb_app, H1, G. reflexivity.
    - change ("https" ++ "://" ++ JS.of_chars a)%string
        with ("https://" ++ JS.of_chars a)%string.
      rewrite chars_append, chars_of_chars, forallb_app, H2, G. reflexivity. }
  apply (append_stored Headers.empty "Referer" (Reference.origin b)).
  - reflexivity.
  - apply strip_clean. apply Q; [|reflexivity|reflexivity].
    intros c Hx. exact (proj1 (authorityChar_plain c Hx)).
  - unfold Headers.validValue. apply Q; [|reflexivity|reflexivity].
    intros c Hx. exact (proj1 (proj2 (authorityChar_plain c Hx))).
Qed.

(** The base the constructor stores parses to itself. *)
Lemma base_parses (b : Reference.url) (input : string) :
  Reference.parseAbsolute input = Some b ->
  Reference.parseAbsolute (Reference.origin b ++ "/api/v2/")%string
  = Some (Reference.mkUrl (Reference.url_scheme b) (Reference.url_host b) "/api/v2/" "").
Proof.
  intros H. apply parseAbsolute_inv in H as (Hs & _ & a & p & Hh & Ha & _).
  unfold Reference.origin. rewrite Hh, !append_assoc.
  exact (parseAbsolute_built (Reference.url_scheme b) a (JS.chars "api/v2/") Hs Ha eq_refl).
Qed.

Lemma endpoint_not_absolute apiName methodName :
  Reference.parseAbsolute (APINames.value apiName ++ "/" ++ methodName)%string = None.
Proof. destruct apiName; reflexivity. Qed.

(** The endpoint resolved against the base: the two, one after the other. *)
Lemma endpoint_resolved (b : Reference.url) (input : string) apiName methodName :
  Reference.parseAbsolute input = Some b ->
  forallb Reference.isPathChar (JS.chars methodName) = true ->
  Reference.new_URL (APINames.value apiName ++ "/" ++ methodName)%string
    (Some (Reference.origin b ++ "/api/v2/")%string)
  = Some (Reference.mkUrl (Reference.url_scheme b) (Reference.url_host b)
            ("/api/v2/" ++ APINames.value apiName ++ "/" ++ methodName)%string "").
Proof.
  intros H Hm. unfold Reference.new_URL, Reference.parseRelative.
  rewrite endpoint_not_absolute, (base_parses b input H).
  assert (Hc : forallb Reference.isPathChar
                 (JS.chars (APINames.value apiName ++ "/" ++ methodName)%string) = true).
  { rewrite chars_append, forallb_app.
    change (JS.chars ("/" ++ methodName)%string) with ("/"%char :: JS.chars methodName).
    simpl forallb at 2. rewrite Hm. destruct apiName; reflexivity. }
  assert (Hs : JS.startsWith (APINames.value apiName ++ "/" ++ methodName)%string "//" = false)
    by (destruct apiName; reflexivity).
  assert (F : exists c r, JS.chars (APINames.value apiName ++ "/" ++ methodName)%string = c :: r
                          /\ Ascii.eqb c "/" = false)
    by (destruct apiName; eexists; eexists; split; reflexivity).
  destruct F as (c & r & Hr & Hn). rewrite Hc, Hs, Hr, Hn, <- Hr.
  cbn [negb orb Reference.url_scheme Reference.url_host Reference.url_pathname].
  change (Reference.directory "/api/v2/") with (JS.chars "/api/v2/").
  rewrite <- chars_append, of_chars_chars. reflexivity.
Qed.


(** X16.  On the reference platform, for a configured URL inside the
    fragment of the URL model: the constructor keeps the origin of the URL
    and nothing else; whatever path the root has, the base is the origin
    followed by [/api/v2/]. *)
Theorem constructor_drops_path (root : string) (b : Reference.url) :
  Reference.parseAbsolute (JS.replaceTrailingSlash root) = Some b ->
  new_QBittorrent (Some root)
  = Returned (mkQBittorrent (Reference.origin b ++ "/api/v2/") None).
Proof.
  unfold new_QBittorrent.
  change (@new_URL Reference.platform) with Reference.new_URL.
  unfold Reference.new_URL, Reference.parseRelative.
  change (Reference.parseAbsolute "/api/v2/") with (@None Reference.url).
  intros H. rewrite H. simpl. unfold Reference.href, Reference.origin. simpl.
  rewrite !append_assoc. reflexivity.
Qed.

Lemma prepare_on_base (input : string) (b : Reference.url) apiName (methodName : string)
    (options : option CallMethodOptions) :
  Reference.parseAbsolute input = Some b ->
  forallb Reference.isPathChar (JS.chars methodName) = true ->
  prepare (mkQBittorrent (Reference.origin b ++ "/api/v2/") None) apiName methodName options
  = Returned
      (mkRequest
         (Reference.origin b ++ "/api/v2/" ++ APINames.value apiName ++ "/" ++ methodName
          ++ ReferenceValues.searchOf
               (Reference.stringify (match options with Some o => opt_query o | None => None end)))
         (match options with
          | Some {| opt_method := Some m |} => m
          | _ => GET
          end)
         [("Referer", Reference.origin b)]
         (match options with Some o => opt_body o | None => None end))
  /\ (forall credential request,
        prepare (mkQBittorrent (Reference.origin b ++ "/api/v2/") credential)
          apiName methodName options = Returned request ->
        req_url request
        = (Reference.origin b ++ "/api/v2/" ++ APINames.value apiName ++ "/" ++ methodName
           ++ ReferenceValues.searchOf
                (Reference.stringify
                   (match options with Some o => opt_query o | None => None end)))%string).
Proof.
  intros H Hm.
  pose proof (endpoint_resolved b input apiName methodName H Hm) as Ht.
  pose proof (base_parses b input H) as Hb.
  pose proof (origin_header b input H) as Hh.
  assert (U : forall q : string,
             Reference.href
               (if String.eqb q ""
                then Reference.mkUrl (Reference.url_scheme b) (Reference.url_host b)
                       ("/api/v2/" ++ APINames.value apiName ++ "/" ++ methodName) ""
                else Reference.set_search
                       (Reference.mkUrl (Reference.url_scheme b) (Reference.url_host b)
                          ("/api/v2/" ++ APINames.value apiName ++ "/" ++ methodName) "") q)
             = (Reference.origin b ++ "/api/v2/" ++ APINames.value apiName ++ "/" ++ methodName
                ++ ReferenceValues.searchOf q)%string).
  { intros q. unfold ReferenceValues.searchOf, Reference.set_search, Reference.href,
      Reference.origin.
    destruct (String.eqb q ""); cbn [Reference.url_scheme Reference.url_host
                                       Reference.url_pathname Reference.url_search];
      rewrite !append_assoc; reflexivity. }
  split.
  - unfold prepare.
    change (@new_URL Reference.platform) with Reference.new_URL.
    change (@URL_href Reference.platform) with Reference.href.
    change (@URL_origin Reference.platform) with Reference.origin.
    change (@URL_set_search Reference.platform) with Reference.set_search.
    change (@qs_stringify Reference.platform) with Reference.stringify.
    cbn [url authCookie]. rewrite Ht. unfold Reference.new_URL at 1. rewrite Hb.
    cbn [orTypeError bind Monad_Result ret]. unfold Reference.origin at 1.
    cbn [Reference.url_scheme Reference.url_host]. fold (Reference.origin b).
    rewrite Hh. cbn [orTypeError bind Monad_Result ret]. rewrite U.
    destruct options as [[[m|] q bd hh]|]; reflexivity.
  - intros credential request Hp.
    apply prepare_inv in Hp as (target & base & Et & _ & Eu & _).
    cbn [url] in Et. change (@new_URL Reference.platform) with Reference.new_URL in Et.
    rewrite Ht in Et. injection Et as <-. rewrite Eu.
    change (@URL_href Reference.platform) with Reference.href.
    change (@URL_set_search Reference.platform) with Reference.set_search.
    change (@qs_stringify Reference.platform) with Reference.stringify.
    cbv zeta. apply U.
Qed.

#[local] Existing Instance ReferenceValues.values.

(** X17.  On the reference platform, for every namespace and every action
    name of path characters: a handle whose base is the origin of a parsed
    URL followed by [/api/v2/] sends its request to the base, the
    namespace, a slash and the action, one after the other, followed by [?]
    and the query string when there is one; no slash is doubled or lost, and
    with no credential the only header is the [Referer]. *)
Theorem dispatch_path (env : Env) (w : World) (input : string) (b : Reference.url)
    apiName (methodName : string) (options : option CallMethodOptions) :
  Reference.parseAbsolute input = Some b ->
  forallb Reference.isPathChar (JS.chars methodName) = true ->
  url (this w) = (Reference.origin b ++ "/api/v2/")%string ->
  (forall request,
      prepare (this w) apiName methodName options = Returned request ->
      req_url request
      = (Reference.origin b ++ "/api/v2/" ++ APINames.value apiName ++ "/" ++ methodName
         ++ ReferenceValues.searchOf
              (Reference.stringify
                 (match options with Some o => opt_query o | None => None end)))%string)
  /\ (authCookie (this w) = None ->
      (match options with Some {| opt_method := Some POST |} => True | _ =>
         match options with Some {| opt_body := Some _ |} => False | _ => True end end) ->
      sent (snd (callMethod env apiName methodName options w))
      = sent w
        ++ [mkRequest
              (Reference.origin b ++ "/api/v2/" ++ APINames.value apiName ++ "/" ++ methodName
               ++ ReferenceValues.searchOf
                    (Reference.stringify
                       (match options with Some o => opt_query o | None => None end)))
              (match options with
               | Some {| opt_method := Some m |} => m
               | _ => GET
               end)
              [("Referer", Reference.origin b)]
              (match options with Some o => opt_body o | None => None end)]).
Proof.
  intros H Hm Hu.
  destruct (prepare_on_base input b apiName methodName options H Hm) as [H1 H2].
  destruct (this w) as [u credential] eqn:E. simpl in Hu. subst u. split.
  - intros request Hp. exact (H2 credential request Hp).
  - simpl. intros -> Hb. apply callMethod_sent; [rewrite E; exact H1|].
    simpl. destruct options as [[[[|]|] q [bd|] hh]|]; simpl in *;
      try contradiction; try discriminate; reflexivity.
Qed.

(** *** Query strings of the reference platform *)

Lemma encode_app (a b : string) :
  Reference.encode (a ++ b)%string = (Reference.encode a ++ Reference.encode b)%string.
Proof.
  unfold Reference.encode. rewrite chars_append, flat_map_app. apply of_chars_app.
Qed.

Lemma encode_unreserved (s : string) :
  forallb Reference.isUnreserved (JS.chars s) = true -> Reference.encode s = s.
Proof.
  intros H. unfold Reference.encode. rewrite <- (of_chars_chars s) at 2. f_equal.
  induction (JS.chars s) as [|c l IH]; [reflexivity|]. simpl in *.
  apply andb_prop in H as [Hc Hl]. unfold Reference.encodeChar at 1. rewrite Hc.
  simpl. f_equal. exact (IH Hl).
Qed.

Lemma encode_join (l : list string) (sep : string) :
  Reference.encode (JS.join l sep) = JS.join (map Reference.encode l) (Reference.encode sep).
Proof.
  unfold JS.join. induction l as [|x l IH]; [reflexivity|].
  destruct l as [|y l]; [reflexivity|].
  change (String.concat sep (x :: y :: l)) with (x ++ sep ++ String.concat sep (y :: l))%string.
  rewrite !encode_app, IH. reflexivity.
Qed.

Lemma digitChar_unreserved (k : N) :
  (k < 10)%N -> Reference.isUnreserved (Reference.digitChar k) = true.
Proof.
  intros H.
  assert (E : k = 0%N \/ k = 1%N \/ k = 2%N \/ k = 3%N \/ k = 4%N \/ k = 5%N \/ k = 6%N
              \/ k = 7%N \/ k = 8%N \/ k = 9%N) by lia.
  repeat (destruct E as [->|E]; [reflexivity|]). subst k. reflexivity.
Qed.

Lemma decimalDigits_unreserved (fuel : nat) :
  forall n acc,
    forallb Reference.isUnreserved acc = true ->
    forallb Reference.isUnreserved (Reference.decimalDigits fuel n acc) = true.
Proof.
  induction fuel as [|fuel IH]; intros n acc H; simpl; [exact H|].
  assert (G : forallb Reference.isUnreserved (Reference.digitChar (n mod 10) :: acc) = true).
  { simpl. rewrite H, digitChar_unreserved; [reflexivity|]. apply N.mod_lt. discriminate. }
  destruct (n <? 10)%N; [exact G|]. apply IH. exact G.
Qed.

(** A number in decimal needs no escape. *)
Lemma encode_Z_toString (z : Z) : Reference.encode (Reference.Z_toString z) = Reference.Z_toString z.
Proof.
  apply encode_unreserved.
  assert (G : forall n, forallb Reference.isUnreserved (JS.chars (Reference.N_toString n)) = true).
  { intros n. unfold Reference.N_toString. rewrite chars_of_chars.
    apply decimalDigits_unreserved. reflexivity. }
  destruct z as [|p|p]; simpl.
  - reflexivity.
  - apply G.
  - change (JS.chars ("-" ++ Reference.N_toString (N.pos p))%string)
      with ("-"%char :: JS.chars (Reference.N_toString (N.pos p))).
    simpl. apply G.
Qed.

Lemma encode_Number_toString (n : Reference.safeInteger) :
  Reference.encode (Reference.Number_toString n) = Reference.Number_toString n.
Proof. apply encode_Z_toString. Qed.

Lemma query_sent (env : Env) (w : World) (input : string) (b : Reference.url)
    apiName (methodName : string) (q : @Query Reference.platform)
    (f : CallMethodResponse -> Body) :
  Reference.parseAbsolute input = Some b ->
  forallb Reference.isPathChar (JS.chars methodName) = true ->
  this w = ReferenceValues.handleOf b ->
  sent (snd ((r <- callMethod env apiName methodName
                     (Some (mkOptions None (Some q) None None)) ;; ret (f r)) w))
  = sent w
    ++ [ReferenceValues.getRequest b
          ("/api/v2/" ++ APINames.value apiName ++ "/" ++ methodName
           ++ ReferenceValues.searchOf (Reference.stringify (Some q)))].
Proof.
  intros H Hm Hw.
  destruct (prepare_on_base input b apiName methodName
              (Some (mkOptions None (Some q) None None)) H Hm) as [H1 _].
  assert (E : forall (c : M CallMethodResponse) w0,
             snd ((r <- c ;; ret (f r)) w0) = snd (c w0)).
  { intros c w0. simpl. destruct (c w0) as [[r|e] w']; reflexivity. }
  rewrite E. apply callMethod_sent.
  - rewrite Hw. exact H1.
  - reflexivity.
Qed.

(** X18.  On the reference platform, an optional query parameter that is
    omitted leaves no trace in the URL: [getMainData], [getPeerLog],
    [getLog] and [getTorrentList] without argument send no query string at
    all, and [getTorrentPeersData] and [getTorrentContents] send the hash
    only.  A parameter that is given follows [?] or [&] as [key=value],
    percent-encoded; the indexes of [getTorrentContents] are joined with a
    pipe, which goes out as [%7C]; and [getAllItems] without argument asks
    for [withData=false]. *)
Theorem query_urls (env : Env) (w : World) (input : string) (b : Reference.url)
    (hash : string) (n : Reference.safeInteger) (indexes : list Reference.safeInteger) :
  Reference.parseAbsolute input = Some b ->
  this w = ReferenceValues.handleOf b ->
  sent (snd (getMainData env None w))
  = sent w ++ [ReferenceValues.getRequest b "/api/v2/sync/maindata"]
  /\ sent (snd (getMainData env (Some n) w))
     = sent w ++ [ReferenceValues.getRequest b
                    ("/api/v2/sync/maindata?rid=" ++ Reference.Number_toString n)]
  /\ sent (snd (getPeerLog env None w))
     = sent w ++ [ReferenceValues.getRequest b "/api/v2/log/peers"]
  /\ sent (snd (getLog env None w))
     = sent w ++ [ReferenceValues.getRequest b "/api/v2/log/main"]
  /\ sent (snd (getTorrentList env None w))
     = sent w ++ [ReferenceValues.getRequest b "/api/v2/torrents/info"]
  /\ sent (snd (getTorrentPeersData env hash None w))
     = sent w ++ [ReferenceValues.getRequest b
                    ("/api/v2/sync/torrentPeers?hash=" ++ Reference.encode hash)]
  /\ sent (snd (getTorrentGenericProperties env hash w))
     = sent w ++ [ReferenceValues.getRequest b
                    ("/api/v2/torrents/properties?hash=" ++ Reference.encode hash)]
  /\ sent (snd (getTorrentContents env hash None w))
     = sent w ++ [ReferenceValues.getRequest b
                    ("/api/v2/torrents/files?hash=" ++ Reference.encode hash)]
  /\ sent (snd (getTorrentContents env hash (Some indexes) w))
     = sent w ++ [ReferenceValues.getRequest b
                    ("/api/v2/torrents/files?hash=" ++ Reference.encode hash ++ "&indexes="
                     ++ JS.join (map Reference.Number_toString indexes) "%7C")]
  /\ sent (snd (getAllItems env None w))
     = sent w ++ [ReferenceValues.getRequest b "/api/v2/rss/items?withData=false"]
  /\ (forallb Reference.isUnreserved (JS.chars hash) = true -> Reference.encode hash = hash).
Proof.
  intros H Hw.
  assert (Q : forall apiName methodName q (f : CallMethodResponse -> Body) path,
             forallb Reference.isPathChar (JS.chars methodName) = true ->
             ("/api/v2/" ++ APINames.value apiName ++ "/" ++ methodName
              ++ ReferenceValues.searchOf (Reference.stringify (Some q)))%string = path ->
             sent (snd ((r <- callMethod env apiName methodName
                                (Some (mkOptions None (Some q) None None)) ;; ret (f r)) w))
             = sent w ++ [ReferenceValues.getRequest b path]).
  { intros apiName methodName q f path Hm <-.
    exact (query_sent env w input b apiName methodName q f H Hm Hw). }
  assert (N : forall (q : option (@Query Reference.platform)) apiName methodName
                     (f : CallMethodResponse -> Body) path,
             forallb Reference.isPathChar (JS.chars methodName) = true ->
             q = None ->
             ("/api/v2/" ++ APINames.value apiName ++ "/" ++ methodName)%string = path ->
             sent (snd ((r <- callMethod env apiName methodName
                                (Some (mkOptions None q None None)) ;; ret (f r)) w))
             = sent w ++ [ReferenceValues.getRequest b path]).
  { intros q apiName methodName f path Hm -> <-.
    destruct (prepare_on_base input b apiName methodName
                (Some (mkOptions None None None None)) H Hm) as [H1 _].
    assert (E : forall (c : M CallMethodResponse) w0,
               snd ((r <- c ;; ret (f r)) w0) = snd (c w0)).
    { intros c w0. simpl. destruct (c w0) as [[r|e] w']; reflexivity. }
    rewrite E. apply callMethod_sent; [|reflexivity].
    rewrite Hw. unfold ReferenceValues.handleOf. rewrite H1. unfold ReferenceValues.getRequest. simpl.
    rewrite !append_empty. reflexivity. }
  repeat split.
  - apply Q; reflexivity.
  - apply Q; [reflexivity|].
    change (Reference.stringify _)
      with (Reference.pair "rid" (Reference.Number_toString n)).
    unfold Reference.pair. rewrite encode_Number_toString. reflexivity.
  - apply Q; reflexivity.
  - apply N; reflexivity.
  - apply N; reflexivity.
  - apply Q; reflexivity.
  - apply Q; reflexivity.
  - apply Q; reflexivity.
  - apply Q; [reflexivity|].
    change (Reference.stringify _)
      with (Reference.pair "hash" hash ++ "&"
            ++ Reference.pair "indexes" (JS.join (map Reference.Number_toString indexes) "|"))%string.
    unfold Reference.pair. rewrite encode_join, map_map.
    rewrite (map_ext _ Reference.Number_toString) by (intros; apply encode_Number_toString).
    change (Reference.encode "hash") with "hash".
    change (Reference.encode "indexes") with "indexes".
    change (Reference.encode "|") with "%7C".
    unfold ReferenceValues.searchOf. simpl. reflexivity.
  - apply Q; reflexivity.
  - apply encode_unreserved.
Qed.

(** ** Sessions: the cookie stored *)

Section SessionValidity.

Context {P : Platform} (env : Env).

Lemma callMethod_returned_headers (w w' : World) apiName methodName options
    (r : CallMethodResponse) :
  callMethod env apiName methodName options w = (Returned r, w') ->
  this w' = this w /\ exists response, res_headers r = Response_headers response.
Proof.
  intros H. split.
  - pose proof (callMethod_this env w apiName methodName options) as T.
    rewrite H in T. exact T.
  - rewrite callMethod_unfold in H.
    destruct (prepare (this w) apiName methodName options) as [request|e]; [|discriminate].
    destruct (fetch_inv env request w) as [(_ & _ & E)|(_ & E)]; rewrite E in H;
      [discriminate|].
    destruct (remote env (sent w) request) as [response|reason]; [|discriminate].
    exists response.
    destruct (Z_le_dec 200 (status response)) as [H1|H1];
      [destruct (Z_le_dec (status response) 299) as [H2|H2]|].
    + rewrite (settle_success response (conj H1 H2)) in H. injection H as <- _. reflexivity.
    + rewrite settle_failure in H; [discriminate|lia].
    + rewrite settle_failure in H; [discriminate|lia].
Qed.

(** A request that can be prepared can be prepared with any credential
    that is a valid header value. *)
Lemma prepare_with_cookie (self : QBittorrent) apiName methodName options
    (request : Request) (c : option string) :
  prepare self apiName methodName options = Returned request ->
  (forall v, c = Some v -> Headers.validValue v = true) ->
  prepare (mkQBittorrent (url self) c) apiName methodName options
  = Returned (mkRequest (req_url request) (req_method request)
                (firstn 1 (req_headers request)
                 ++ match c with
                    | Some v => if negb (String.eqb (JS.trim v) "")
                                then [("Cookie", Headers.normalize v)] else []
                    | None => []
                    end)
                (req_body request)).
Proof.
  intros H Hc. unfold prepare in *. simpl in *.
  destruct (new_URL _ (Some (url self))) as [target|]; simpl in *; [|discriminate].
  destruct (new_URL (url self) None) as [base|]; simpl in *; [|discriminate].
  destruct (Headers.append Headers.empty "Referer" (URL_origin base)) as [h|] eqn:Eh;
    simpl in *; [|discriminate].
  apply append_inv in Eh as [-> _].
  assert (R : exists rest,
             request = mkRequest (req_url request) (req_method request)
                         (("Referer", Headers.normalize (URL_origin base)) :: rest)
                         (req_body request)
             /\ req_url request
                = URL_href (if String.eqb (qs_stringify match options with
                                                        | Some o => opt_query o
                                                        | None => None
                                                        end) ""
                            then target
                            else URL_set_search target
                                   (qs_stringify match options with
                                                 | Some o => opt_query o
                                                 | None => None
                                                 end))
             /\ req_method request = match options with
                                     | Some o => match opt_method o with
                                                 | Some m => m
                                                 | None => GET
                                                 end
                                     | None => GET
                                     end
             /\ req_body request = match options with
                                   | Some o => opt_body o
                                   | None => None
                                   end).
  { destruct (authCookie self) as [c0|]; simpl in H.
    - destruct (negb (String.eqb (JS.trim c0) "")); simpl in H.
      + destruct (Headers.append _ "Cookie" c0) as [h|] eqn:Ec; simpl in H; [|discriminate].
        apply append_inv in Ec as [-> _]. injection H as <-. simpl. eauto.
      + injection H as <-. simpl. eauto.
    - injection H as <-. simpl. eauto. }
  destruct R as (rest & -> & Hu & Hm & Hb). simpl in *. rewrite Hu, Hm, Hb.
  destruct c as [v|]; [|reflexivity].
  pose proof (Hc v eq_refl) as Hv.
  destruct (negb (String.eqb (JS.trim v) "")); [|reflexivity].
  rewrite (append_valid _ "Cookie" v eq_refl Hv). reflexivity.
Qed.

(** X19.  A [login] never blocks the handle: whatever the server answers,
    a request that could be prepared before the login can be prepared after
    it, for the same URL, verb and body and with the same [Referer]; the
    cookie a login stores is always a value the [Cookie] header accepts. *)
Theorem login_never_blocks_requests (w : World) (username password : string)
    apiName methodName options (request : Request) :
  prepare (this w) apiName methodName options = Returned request ->
  exists request',
    prepare (this (snd (login env username password w))) apiName methodName options
    = Returned request'
    /\ req_url request' = req_url request
    /\ req_method request' = req_method request
    /\ req_body request' = req_body request
    /\ hd_error (req_headers request') = hd_error (req_headers request).
Proof.
  intros H. rewrite login_unfold.
  destruct (callMethod env APINames.auth "login" _ w) as [[r|e] w'] eqn:E.
  - apply callMethod_returned_headers in E as [T [response Hr]].
    simpl. rewrite T, Hr.
    eexists. split.
    + apply (prepare_with_cookie (this w) _ _ _ request _ H).
      intros v Hv. apply find_In in Hv as [Hin _].
      exact (getSetCookie_valid response v Hin).
    + simpl. repeat split.
      apply prepare_inv in H as (target & base & _ & _ & _ & _ & _ & Hh).
      rewrite Hh. reflexivity.
  - pose proof (callMethod_this env w APINames.auth "login"
                  (Some (postOptions [("username", username); ("password", password)]))) as T.
    rewrite E in T. simpl in *. rewrite T. exists request. repeat split. exact H.
Qed.

End SessionValidity.

(** ** The reference platform: every operation reaches the server *)

Lemma prefix_append (a b : string) : String.prefix a (a ++ b)%string = true.
Proof.
  induction a as [|c a IH]; simpl; [destruct b; reflexivity|].
  destruct (ascii_dec c c) as [_|N]; [exact IH|contradiction].
Qed.

Section Reach.

Context {S : Serializer}.
Variable env : Env.
Variable input : string.
Variable b : Reference.url.
Hypothesis parsed : Reference.parseAbsolute input = Some b.

Lemma sendsOneTo_callMethod apiName (methodName : string)
    (options : option CallMethodOptions) :
  forallb Reference.isPathChar (JS.chars methodName) = true ->
  (forall o body, options = Some o -> opt_body o = Some body -> opt_method o = Some POST) ->
  sendsOneTo b (callMethod env apiName methodName options).
Proof.
  intros Hm Ho w Hw.
  destruct (prepare_on_base input b apiName methodName options parsed Hm) as [H1 _].
  eexists. split; [|split; [|split]].
  - apply callMethod_sent.
    + rewrite Hw. exact H1.
    + simpl. destruct options as [[[[|]|] q [bd|] hh]|]; try reflexivity;
        intros Hg; first [discriminate Hg
                         |specialize (Ho _ bd eq_refl eq_refl); discriminate Ho].
  - cbn [req_url]. unfold JS.startsWith. rewrite <- append_assoc. apply prefix_append.
  - reflexivity.
  - simpl. destruct options as [[[[|]|] q [bd|] hh]|]; simpl; try congruence;
      intros _; specialize (Ho _ bd eq_refl eq_refl); discriminate Ho.
Qed.

Lemma sendsOneTo_bind {A B} (c : M A) (k : A -> M B) :
  (forall a w, sent (snd (k a w)) = sent w) -> sendsOneTo b c -> sendsOneTo b (x <- c ;; k x).
Proof.
  intros Hk Hc w Hw. destruct (Hc w Hw) as (request & Hs & Hr). exists request.
  split; [|exact Hr]. simpl.
  destruct (c w) as [[a|e] w'] eqn:E; simpl in *; [|exact Hs].
  rewrite Hk. exact Hs.
Qed.

Lemma sendsOneTo_addNewTorrent torrents options :
  firstUnreadable env torrents = None ->
  sendsOneTo b (addNewTorrent env torrents options).
Proof.
  intros H. apply firstUnreadable_uploads in H as [uploads Hu].
  unfold addNewTorrent.
  rewrite (addNewTorrent_body_partitioned env torrents options uploads Hu).
  intros w. rewrite pure_bind. revert w.
  apply (sendsOneTo_bind (callMethod env APINames.torrents "add" _) (fun _ => ret tt)).
  - reflexivity.
  - apply sendsOneTo_callMethod; [reflexivity|].
    intros o body E _. injection E as <-. reflexivity.
Qed.

Lemma sendsOneTo_stringified {A} (object : JSObject) (json : option string)
    (k : option string -> M A) :
  JSON_stringify object = Returned json ->
  sendsOneTo b (k json) ->
  sendsOneTo b (x <- pure (JSON_stringify object) ;; k x).
Proof. intros -> H. exact H. Qed.

(** X20.  On the reference platform, on a new handle for a URL that parses
    in the URL model, every method of the class sends exactly one request,
    for all its arguments and whatever the server answers, under three
    conditions on the platform: [addNewTorrent] when the paths among its
    torrents can be read (its streams are those that end),
    [setApplicationPreferences] and [setAutoDownloadingRule] when
    [JSON.stringify] returns.  The URL of the request lies under the base
    of the handle, its only header is the [Referer], and a request with a
    body is a POST. *)
Theorem operations_reach_server

    (hashes : HashesArg) (l1 l2 : list string) (ol : option (list string))
    (s1 s2 s3 : string) (os : option string) (flag : option bool)
    (n : number) (on om : option number) (ids : list number) (oids : option (list number))
    (limits : SetTorrentShareLimitOptions) (fields : option (list (string * Field)))
    (plugins : option HashesArg) (object : JSObject)
    (torrents : list TorrentInput) (options : option AddNewTorrentOptions) :
  sendsOneTo b (logout env)
  /\ sendsOneTo b (getApplicationVersion env)
  /\ sendsOneTo b (pauseTorrents env l1)
  /\ sendsOneTo b (resumeTorrents env l1)
  /\ sendsOneTo b (deleteTorrents env hashes flag)
  /\ sendsOneTo b (recheckTorrents env l1)
  /\ sendsOneTo b (reannounceTorrents env l1)
  /\ sendsOneTo b (addPeers env l1 l2)
  /\ sendsOneTo b (increaseTorrentPriority env hashes)
  /\ sendsOneTo b (decreaseTorrentPriority env hashes)
  /\ sendsOneTo b (maximalTorrentPriority env hashes)
  /\ sendsOneTo b (minimalTorrentPriority env hashes)
  /\ sendsOneTo b (getTorrentDownloadLimit env hashes)
  /\ sendsOneTo b (setTorrentDownloadLimit env hashes n)
  /\ sendsOneTo b (setTorrentShareLimit env hashes limits)
  /\ sendsOneTo b (getTorrentUploadLimit env hashes)
  /\ sendsOneTo b (setTorrentUploadLimit env hashes n)
  /\ sendsOneTo b (setTorrentLocation env hashes s1)
  /\ sendsOneTo b (setTorrentCategory env hashes s1)
  /\ sendsOneTo b (addTorrentTags env hashes l1)
  /\ sendsOneTo b (removeTorrentTags env hashes ol)
  /\ sendsOneTo b (createTags env l1)
  /\ sendsOneTo b (deleteTags env l1)
  /\ sendsOneTo b (setAutomaticTorrentManagement env hashes flag)
  /\ sendsOneTo b (toggleSequentialDownload env hashes)
  /\ sendsOneTo b (setFirstLastPiecePriority env hashes)
  /\ sendsOneTo b (setForceStart env hashes flag)
  /\ sendsOneTo b (setSuperSeeding env hashes flag)
  /\ sendsOneTo b (renameFile env hashes s1 s2)
  /\ sendsOneTo b (renameFolder env hashes s1 s2)
  /\ (firstUnreadable env torrents = None ->
      sendsOneTo b (addNewTorrent env torrents options))
  /\ (forall json, JSON_stringify object = Returned json ->
                   sendsOneTo b (setApplicationPreferences env object))
  /\ (forall json, JSON_stringify object = Returned json ->
                   sendsOneTo b (setAutoDownloadingRule env s1 object))
  /\ sendsOneTo b (getAPIVersion env)
  /\ sendsOneTo b (getBuildInfo env)
  /\ sendsOneTo b (shutdownApplication env)
  /\ sendsOneTo b (getApplicationPreferences env)
  /\ sendsOneTo b (getDefaultSavePath env)
  /\ sendsOneTo b (getLog env fields)
  /\ sendsOneTo b (getPeerLog env on)
  /\ sendsOneTo b (getMainData env on)
  /\ sendsOneTo b (getTorrentPeersData env s1 on)
  /\ sendsOneTo b (getGlobalTransferInfo env)
  /\ sendsOneTo b (getAlternativeSpeedLimitsState env)
  /\ sendsOneTo b (toggleAlternativeSpeedLimits env)
  /\ sendsOneTo b (getGlobalDownloadLimit env)
  /\ sendsOneTo b (setGlobalDownloadLimit env on)
  /\ sendsOneTo b (getGlobalUploadLimit env)
  /\ sendsOneTo b (setGlobalUploadLimit env on)
  /\ sendsOneTo b (banPeers env l1)
  /\ sendsOneTo b (getTorrentList env fields)
  /\ sendsOneTo b (getTorrentGenericProperties env s1)
  /\ sendsOneTo b (getTorrentTrackers env s1)
  /\ sendsOneTo b (getTorrentWebSeeds env s1)
  /\ sendsOneTo b (getTorrentContents env s1 oids)
  /\ sendsOneTo b (getTorrentPiecesStates env s1)
  /\ sendsOneTo b (getTorrentPiecesHashes env s1)
  /\ sendsOneTo b (addTrackersToTorrent env s1 l1)
  /\ sendsOneTo b (editTrackers env s1 s2 s3)
  /\ sendsOneTo b (removeTrackers env s1 l1)
  /\ sendsOneTo b (setFilePriority env s1 ids n)
  /\ sendsOneTo b (setTorrentName env s1 s2)
  /\ sendsOneTo b (getAllCategories env)
  /\ sendsOneTo b (editCategory env s1 s2)
  /\ sendsOneTo b (removeCategory env l1)
  /\ sendsOneTo b (getAllTags env)
  /\ sendsOneTo b (addFolder env s1)
  /\ sendsOneTo b (addFeed env s1 s2)
  /\ sendsOneTo b (removeItem env s1)
  /\ sendsOneTo b (moveItem env s1 s2)
  /\ sendsOneTo b (getAllItems env flag)
  /\ sendsOneTo b (markAsRead env s1 os)
  /\ sendsOneTo b (refreshItem env s1)
  /\ sendsOneTo b (renameAutoDownloadingRule env s1 s2)
  /\ sendsOneTo b (removeAutoDownloadingRule env s1)
  /\ sendsOneTo b (getAllAutoDownloadingRules env)
  /\ sendsOneTo b (getAllArticlesMatchingRule env s1)
  /\ sendsOneTo b (startSearch env s1 plugins os)
  /\ sendsOneTo b (stopSearch env n)
  /\ sendsOneTo b (getSearchStatus env on)
  /\ sendsOneTo b (getSearchResults env n on om)
  /\ sendsOneTo b (deleteSearch env n)
  /\ sendsOneTo b (getSearchPlugins env)
  /\ sendsOneTo b (installSearchPlugin env l1)
  /\ sendsOneTo b (uninstallSearchPlugin env l1)
  /\ sendsOneTo b (enableSearchPlugin env l1 flag)
  /\ sendsOneTo b (updateSearchPlugins env)
  /\ (forall username password, sendsOneTo b (login env username password)).
Proof.
  repeat match goal with |- _ /\ _ => split end;
    try (intros H; exact (sendsOneTo_addNewTorrent _ _ H));
    try (intros json H; unfold setApplicationPreferences, setAutoDownloadingRule;
         apply (sendsOneTo_stringified object json _ H));
    try match goal with |- forall _ _ : string, _ => intros username password end;
    unfold login, logout, getApplicationVersion, pauseTorrents, resumeTorrents, deleteTorrents,
    recheckTorrents, reannounceTorrents, addPeers, increaseTorrentPriority,
    decreaseTorrentPriority, maximalTorrentPriority, minimalTorrentPriority,
    getTorrentDownloadLimit, setTorrentDownloadLimit, setTorrentShareLimit,
    getTorrentUploadLimit, setTorrentUploadLimit, setTorrentLocation, setTorrentCategory,
    addTorrentTags, removeTorrentTags, createTags, deleteTags, setAutomaticTorrentManagement,
    toggleSequentialDownload, setFirstLastPiecePriority, setForceStart, setSuperSeeding,
    renameFile, renameFolder, getAPIVersion, getBuildInfo, shutdownApplication,
    getApplicationPreferences, getDefaultSavePath, getLog, getPeerLog, getMainData,
    getTorrentPeersData, getGlobalTransferInfo, getAlternativeSpeedLimitsState,
    toggleAlternativeSpeedLimits, getGlobalDownloadLimit, setGlobalDownloadLimit,
    getGlobalUploadLimit, setGlobalUploadLimit, banPeers, getTorrentList,
    getTorrentGenericProperties, getTorrentTrackers, getTorrentWebSeeds, getTorrentContents,
    getTorrentPiecesStates, getTorrentPiecesHashes, addTrackersToTorrent, editTrackers,
    removeTrackers, setFilePriority, setTorrentName, getAllCategories, editCategory,
    removeCategory, getAllTags, addFolder, addFeed, removeItem, moveItem, getAllItems,
    markAsRead, refreshItem, renameAutoDownloadingRule, removeAutoDownloadingRule,
    getAllAutoDownloadingRules, getAllArticlesMatchingRule, startSearch, stopSearch,
    getSearchStatus, getSearchResults, deleteSearch, getSearchPlugins, installSearchPlugin,
    uninstallSearchPlugin, enableSearchPlugin, updateSearchPlugins, post;
    (apply sendsOneTo_bind;
     [reflexivity
     |apply sendsOneTo_callMethod;
      [reflexivity
      |intros o body E Hb; first [discriminate E | injection E as <-; first [reflexivity|discriminate Hb]]]]).
Qed.

End Reach.

(** ** Instances *)

(** The version request answered: one request, status 200, the text. *)
Lemma callMethod_returned_inv_witness :
  exists request response,
    prepare Scenario.handle APINames.app "version" None = Returned request
    /\ remote (Reference.constantEnv Scenario.version) [] request = Responds response
    /\ 200 <= status response <= 299
    /\ mkWorld Scenario.handle [Scenario.versionRequest]
       = mkWorld Scenario.handle ([] ++ [request])
    /\ res_headers Samples.versionAnswer = Response_headers response
    /\ res_body Samples.versionAnswer
       = match JSON_parse (text response) with
         | Some v => Parsed v
         | None => Raw (text response)
         end.
Proof.
  exact (callMethod_returned_inv (Reference.constantEnv Scenario.version)
           (Reference.initialWorld Scenario.handle)
           (mkWorld Scenario.handle [Scenario.versionRequest])
           APINames.app "version" None Samples.versionAnswer eq_refl).
Defined.

(** A forbidden version request: the handle stays. *)
Lemma callMethod_threw_inv_witness :
  this (mkWorld Scenario.handle [Scenario.versionRequest]) = Scenario.handle.
Proof.
  exact (proj1 (callMethod_threw_inv (Reference.constantEnv Scenario.forbidden)
                  (Reference.initialWorld Scenario.handle)
                  (mkWorld Scenario.handle [Scenario.versionRequest])
                  APINames.app "version" None
                  (Thrown_RequestError (new_RequestError 403 "Forbidden")) eq_refl)).
Defined.

(** The version request on a network that is down. *)
Lemma callMethod_network_failure_witness :
  callMethod Samples.down APINames.app "version" None (Reference.initialWorld Scenario.handle)
  = (Threw (Thrown_network "ECONNREFUSED"),
     mkWorld Scenario.handle [Scenario.versionRequest]).
Proof.
  apply (callMethod_network_failure Samples.down (Reference.initialWorld Scenario.handle)
           APINames.app "version" None Scenario.versionRequest "ECONNREFUSED").
  - reflexivity.
  - reflexivity.
  - reflexivity.
Defined.

(** The logout request of a logged-in handle: two headers, the [Referer]
    first. *)
Lemma prepare_shape_witness :
  exists base,
    new_URL (url Scenario.loggedIn) None = Some base
    /\ hd_error (req_headers Scenario.logoutRequest)
       = Some ("Referer", Headers.normalize (URL_origin base))
    /\ Headers.values (req_headers Scenario.logoutRequest) "Referer"
       = [Headers.normalize (URL_origin base)]
    /\ (forall n v, In (n, v) (req_headers Scenario.logoutRequest) ->
                    n = "Referer" \/ n = "Cookie")
    /\ (List.length (req_headers Scenario.logoutRequest) <= 2)%nat
    /\ req_body Scenario.logoutRequest = None
    /\ req_method Scenario.logoutRequest = GET.
Proof.
  exact (prepare_shape Scenario.loggedIn APINames.auth "logout" None Scenario.logoutRequest
           eq_refl).
Defined.

(** A login on a network that is down leaves the credential held. *)
Lemma login_touches_only_credential_witness :
  this (snd (login Samples.down "admin" "adminadmin"
               (Reference.initialWorld Scenario.loggedIn)))
  = Scenario.loggedIn.
Proof.
  destruct (login_touches_only_credential Samples.down
              (Reference.initialWorld Scenario.loggedIn) "admin" "adminadmin")
    as (_ & _ & H).
  exact (H (Thrown_network "ECONNREFUSED") eq_refl).
Defined.

(** Login, then logout: the cookie is still held. *)
Lemma stale_cookie_after_logout_witness :
  authCookie (this (snd (logout Scenario.env
                           (snd (login Scenario.env "admin" "adminadmin"
                                   (Reference.initialWorld Scenario.handle))))))
  = Some Scenario.sessionCookie.
Proof.
  refine (proj1 (stale_cookie_after_logout Scenario.env
                   (Reference.initialWorld Scenario.handle)
                   (mkWorld Scenario.handle [Scenario.loginRequest])
                   "admin" "adminadmin" Scenario.loginRequest Scenario.accepted
                   Scenario.sessionCookie eq_refl eq_refl _ eq_refl)).
  simpl. lia.
Defined.

(** The default root, with and without its slash. *)
Lemma new_QBittorrent_root_witness :
  new_QBittorrent (Some "http://localhost:8080/") = new_QBittorrent (Some "http://localhost:8080")
  /\ new_QBittorrent (Some "http://localhost:8080") = Returned Scenario.handle
  /\ authCookie Scenario.handle = None.
Proof.
  destruct (new_QBittorrent_root (P := Reference.platform) "http://localhost:8080")
    as (_ & H & _ & N).
  split; [exact (H eq_refl)|]. split; [reflexivity|].
  exact (N (Some "http://localhost:8080") Scenario.handle eq_refl).
Defined.

(** A ratio alone reaches the server. *)
Lemma setTorrentShareLimit_without_seedingTimeLimit_witness :
  setTorrentShareLimit_body (HashString "all")
    (mkShareLimitOptions (Some (Scenario.ratio : @number Reference.platform)) None)
  = [("hashes", "all"); ("ratioLimit", "2")]
  /\ postsForm (setTorrentShareLimit Scenario.env (HashString "all")
                  (mkShareLimitOptions (Some (Scenario.ratio : @number Reference.platform))
                     None))
       APINames.torrents "setShareLimits" [("hashes", "all"); ("ratioLimit", "2")].
Proof.
  exact (setTorrentShareLimit_without_seedingTimeLimit Scenario.env (HashString "all")
           (mkShareLimitOptions (Some (Scenario.ratio : @number Reference.platform)) None)
           eq_refl).
Defined.

(** Two peers, banned: the field splits back into the two. *)
Lemma list_fields_round_trip_witness :
  option_map (fun f => JS.split f "|")
    (URLSearchParams.get (banPeers_body ["10.0.0.1:6881"; "10.0.0.2:6881"]) "peers")
  = Some ["10.0.0.1:6881"; "10.0.0.2:6881"]
  /\ option_map (fun f => JS.split f ",")
       (URLSearchParams.get (createTags_body ["10.0.0.1:6881"; "10.0.0.2:6881"]) "tags")
     = Some ["10.0.0.1:6881"; "10.0.0.2:6881"]
  /\ option_map (fun f => JS.split f (ascii_of_N 10))
       (URLSearchParams.get
          (addTrackersToTorrent_body "h1" ["10.0.0.1:6881"; "10.0.0.2:6881"]) "urls")
     = Some ["10.0.0.1:6881"; "10.0.0.2:6881"].
Proof.
  assert (N : ["10.0.0.1:6881"; "10.0.0.2:6881"] <> @nil string) by discriminate.
  destruct (list_fields_round_trip
              Scenario.env ["10.0.0.1:6881"; "10.0.0.2:6881"] (HashString "all") "h1" None N)
    as (H1 & H2 & H3 & _).
  split; [|split].
  - apply H1. intros x [<-|[<-|[]]] E; simpl in E;
      repeat (destruct E as [E|E]; [discriminate E|]); exact E.
  - apply H2. intros x [<-|[<-|[]]] E; simpl in E;
      repeat (destruct E as [E|E]; [discriminate E|]); exact E.
  - apply H3. intros x [<-|[<-|[]]] E; simpl in E;
      repeat (destruct E as [E|E]; [discriminate E|]); exact E.
Defined.

(** Two disks that differ at a link only give the same outcome. *)
Lemma addNewTorrent_reads_only_paths_witness :
  addNewTorrent_body Scenario.env Samples.readable (@None (@AddNewTorrentOptions Reference.platform))
  = addNewTorrent_body Samples.otherEnv Samples.readable None
  /\ readFileSync Scenario.env "https://example.org/ubuntu.torrent"
     <> readFileSync Samples.otherEnv "https://example.org/ubuntu.torrent".
Proof.
  split; [|discriminate].
  apply (addNewTorrent_reads_only_paths Scenario.env Samples.otherEnv Samples.readable None).
  intros s [E|[E|[]]] L; injection E as <-; [discriminate L|reflexivity].
Defined.

(** Two missing files: the error names the first. *)
Lemma addNewTorrent_first_unreadable_witness :
  addNewTorrent Scenario.env Samples.missing
    (@None (@AddNewTorrentOptions Reference.platform)) (Reference.initialWorld Scenario.handle)
  = (Threw (Thrown_fs "/tmp/missing.torrent"), Reference.initialWorld Scenario.handle)
  /\ exists body, addNewTorrent_body Scenario.env Samples.readable
                    (@None (@AddNewTorrentOptions Reference.platform)) = Returned body.
Proof.
  split.
  - exact (proj1 (proj1 (addNewTorrent_first_unreadable Scenario.env Samples.missing None
                           (Reference.initialWorld Scenario.handle))
                    "/tmp/missing.torrent" eq_refl)).
  - exact (proj2 (addNewTorrent_first_unreadable Scenario.env Samples.readable None
                    (Reference.initialWorld Scenario.handle)) eq_refl).
Defined.

(** A root with a path: the path is dropped. *)
Lemma constructor_drops_path_witness :
  new_QBittorrent (Some "http://localhost:8080/qbt/") = Returned Scenario.handle.
Proof.
  exact (constructor_drops_path "http://localhost:8080/qbt/"
           (Reference.mkUrl "http" "localhost:8080" "/qbt" "") eq_refl).
Defined.

(** The version request: base, namespace, slash and action. *)
Lemma dispatch_path_witness :
  sent (snd (callMethod Samples.down APINames.app "version" None
               (Reference.initialWorld Scenario.handle)))
  = [mkRequest "http://localhost:8080/api/v2/app/version" GET
       [("Referer", "http://localhost:8080")] None].
Proof.
  exact (proj2 (dispatch_path Samples.down (Reference.initialWorld Scenario.handle)
                  "http://localhost:8080" Samples.localhost APINames.app "version" None
                  eq_refl eq_refl eq_refl) eq_refl I).
Defined.

(** The contents of a torrent, for three files. *)
Lemma query_urls_witness :
  sent (snd (getTorrentContents Samples.down "c12fe1c0" (Some Samples.indexes)
               (Reference.initialWorld Scenario.handle)))
  = [mkRequest "http://localhost:8080/api/v2/torrents/files?hash=c12fe1c0&indexes=0%7C2%7C5"
       GET [("Referer", "http://localhost:8080")] None].
Proof.
  destruct (query_urls Samples.down (Reference.initialWorld Scenario.handle)
              "http://localhost:8080" Samples.localhost "c12fe1c0" Samples.seven
              Samples.indexes
              eq_refl eq_refl)
    as (_ & _ & _ & _ & _ & _ & _ & _ & H & _).
  exact H.
Defined.

(** A version request after an accepted login can still be prepared. *)
Lemma login_never_blocks_requests_witness :
  exists request',
    prepare (this (snd (login Scenario.env "admin" "adminadmin"
                          (Reference.initialWorld Scenario.handle))))
      APINames.app "version" None
    = Returned request'
    /\ req_url request' = req_url Scenario.versionRequest
    /\ req_method request' = req_method Scenario.versionRequest
    /\ req_body request' = req_body Scenario.versionRequest
    /\ hd_error (req_headers request') = hd_error (req_headers Scenario.versionRequest).
Proof.
  exact (login_never_blocks_requests Scenario.env (Reference.initialWorld Scenario.handle)
           "admin" "adminadmin" APINames.app "version" None Scenario.versionRequest eq_refl).
Defined.

(** A link and a readable file, added on a new handle: one request.  The
    preference [{ dht: true }], set on a new handle: one request. *)
Lemma operations_reach_server_witness :
  (exists request,
      sent (snd (addNewTorrent Scenario.env Samples.readable
                   (@None (@AddNewTorrentOptions Reference.platform))
                   (Reference.initialWorld Scenario.handle)))
      = [] ++ [request]
      /\ JS.startsWith (req_url request) "http://localhost:8080/api/v2/" = true
      /\ req_headers request = [("Referer", "http://localhost:8080")]
      /\ (req_body request <> None -> req_method request = POST))
  /\ (exists request,
        sent (snd (setApplicationPreferences (S := Samples.dhtObjects) Scenario.env (Some true)
                     (Reference.initialWorld Scenario.handle)))
        = [] ++ [request]
        /\ JS.startsWith (req_url request) "http://localhost:8080/api/v2/" = true
        /\ req_headers request = [("Referer", "http://localhost:8080")]
        /\ (req_body request <> None -> req_method request = POST)).
Proof.
  pose proof (operations_reach_server (S := Samples.dhtObjects) Scenario.env
                "http://localhost:8080" Samples.localhost
                eq_refl (HashString "all") [] [] None "a" "b" "c" None None Samples.seven
                None None [] None (mkShareLimitOptions None None) None None (Some true)
                Samples.readable None) as H.
  repeat match type of H with
         | (firstUnreadable _ _ = None -> _) /\ _ => fail 1
         | _ /\ _ => destruct H as [_ H]
         end.
  destruct H as (H1 & H2 & _). split.
  - exact (H1 eq_refl (Reference.initialWorld Scenario.handle) eq_refl).
  - exact (H2 _ eq_refl (Reference.initialWorld Scenario.handle) eq_refl).
Defined.
